(** * Schema handler of serverless-openapi-documenter: a shallow embedding

    This development embeds [src/schemaHandler.js] (class [SchemaHandler]) and
    checks the statements of the specification against it.

    Modelling choices, all taken from the source:
    - JavaScript values are a tree of JSON-like data extended with
      [undefined] and with instances of [Error]; numbers are restricted to
      integers.  Objects are lists of own properties kept in the order in
      which [Object.keys]/[Object.entries] enumerate them.  Only own data
      properties are modelled: there is no prototype chain besides [Error],
      so names that shadow a member of [Object.prototype] ([constructor],
      [toString], [__proto__], ...) are outside the model.
    - The handler instance is a record; every method is a function from the
      record to an outcome and the record after the call, so that in-place
      mutation survives a thrown exception as it does in JavaScript.
    - [await] is sequential composition: the methods never interleave.
    - The collaborators ([$RefParser], [SchemaConvertor], [uuid],
      [JSON.stringify]) are parameters gathered in a class; every invocation
      is recorded in the handler's ghost field [calls].  They are functions
      of values: what a collaborator does in place to the object it is given
      (the parser rewrites the schema it resolves, which [this.models] also
      holds) is not tracked, and no statement is made about [this.models]
      after a call of the parser.
    - The normalizer changes the raw entries in place (lines 46-49); the
      embedding computes [this.models] and does not track the change in
      [this.documentation] and [this.apiGatewayModels], which no method reads
      again: the statements about the normalizer are about [this.models].
    - [__dereferenceSchema] recurses without a bound; the embedding takes
      fuel and reports [OutOfFuel] when it is exhausted.
    - Logging ([this.logger.verbose]) is omitted. *)

From Stdlib Require Import String Ascii List ZArith NArith Bool Arith Lia.
From Stdlib Require Import DecimalString.
Import ListNotations.
Open Scope string_scope.
Set Warnings "-register-all".

(** ** JavaScript values *)

Inductive value : Type :=
| VUndefined
| VNull
| VBool (b : bool)
| VNum (n : Z)
| VStr (s : string)
| VArr (elems : list value)
| VObj (props : list (string * value))
| VError (cls : string) (message : value) (props : list (string * value)).

Definition props : Type := list (string * value).

(** [new Error(msg)] and the engine's [TypeError]. *)
Definition new_Error (msg : string) : value := VError "Error" (VStr msg) [].
Definition TypeError (msg : string) : value := VError "TypeError" (VStr msg) [].

Definition instanceof_Error (v : value) : bool :=
  match v with VError _ _ _ => true | _ => false end.

Definition nullish (v : value) : bool :=
  match v with VUndefined | VNull => true | _ => false end.

(** [Boolean(v)]. *)
Definition truthy (v : value) : bool :=
  match v with
  | VUndefined | VNull => false
  | VBool b => b
  | VNum n => negb (n =? 0)%Z
  | VStr s => negb (s =? "")
  | VArr _ | VObj _ | VError _ _ _ => true
  end.

(** [typeof v === "object"], [Array.isArray(v)]. *)
Definition typeof_object (v : value) : bool :=
  match v with VNull | VArr _ | VObj _ | VError _ _ _ => true | _ => false end.

Definition isArray (v : value) : bool :=
  match v with VArr _ => true | _ => false end.

(** ** Strings *)

Definition LF : string := String (ascii_of_nat 10) "".

(** [hay.includes(needle)] and [s.startsWith(p)]. *)
Fixpoint includes (needle hay : string) : bool :=
  prefix needle hay ||
  match hay with
  | EmptyString => false
  | String _ rest => includes needle rest
  end.

Definition startsWith (p s : string) : bool := prefix p s.

(** [s.split(sep)] for a one-character separator: [cur] is the segment being
    read. *)
Fixpoint split_from (sep : ascii) (s : string) (cur : string) : list string :=
  match s with
  | EmptyString => [cur]
  | String c rest =>
      if (c =? sep)%char then cur :: split_from sep rest ""
      else split_from sep rest (cur ++ String c "")
  end.

Definition split (sep : ascii) (s : string) : list string := split_from sep s "".

Definition string_of_nat (n : nat) : string := NilZero.string_of_uint (Nat.to_uint n).
Definition string_of_Z (z : Z) : string := NilZero.string_of_int (Z.to_int z).

(** A canonical array index: decimal digits without a leading zero, below
    [2^32 - 1].  Such keys are enumerated before all other keys. *)
Definition digit_of (c : ascii) : option N :=
  let n := N_of_ascii c in
  if ((48 <=? n) && (n <=? 57))%N then Some (n - 48)%N else None.

Fixpoint parse_digits (s : string) (acc : N) : option N :=
  match s with
  | EmptyString => Some acc
  | String c rest =>
      match digit_of c with
      | Some d => parse_digits rest (10 * acc + d)%N
      | None => None
      end
  end.

Definition array_index (s : string) : option N :=
  match s with
  | EmptyString => None
  | String c rest =>
      if (c =? "0")%char && negb (rest =? "") then None
      else match parse_digits s 0 with
           | Some n => if (n <? 4294967295)%N then Some n else None
           | None => None
           end
  end.

(** ** Objects as ordered lists of own properties *)

Fixpoint obj_get (k : string) (ps : props) : option value :=
  match ps with
  | [] => None
  | (k', v) :: rest => if k' =? k then Some v else obj_get k rest
  end.

Definition obj_has (k : string) (ps : props) : bool :=
  match obj_get k ps with Some _ => true | None => false end.

Fixpoint obj_replace (k : string) (v : value) (ps : props) : props :=
  match ps with
  | [] => []
  | (k', v') :: rest =>
      if k' =? k then (k', v) :: rest else (k', v') :: obj_replace k v rest
  end.

(** A new index key goes before the first key that is not an index or is a
    larger index. *)
Fixpoint obj_insert_index (n : N) (k : string) (v : value) (ps : props) : props :=
  match ps with
  | [] => [(k, v)]
  | (k', v') :: rest =>
      match array_index k' with
      | Some m => if (m <? n)%N then (k', v') :: obj_insert_index n k v rest
                  else (k, v) :: ps
      | None => (k, v) :: ps
      end
  end.

(** [o[k] = v] on an ordinary object. *)
Definition obj_set (k : string) (v : value) (ps : props) : props :=
  if obj_has k ps then obj_replace k v ps
  else match array_index k with
       | Some n => obj_insert_index n k v ps
       | None => (ps ++ [(k, v)])%list
       end.

(** [delete o[k]]. *)
Fixpoint obj_remove (k : string) (ps : props) : props :=
  match ps with
  | [] => []
  | (k', v) :: rest =>
      if k' =? k then obj_remove k rest else (k', v) :: obj_remove k rest
  end.

Definition keys (ps : props) : list string := map fst ps.

Definition or_undefined (o : option value) : value :=
  match o with Some v => v | None => VUndefined end.



(** ** Outcomes of a computation *)

Inductive abort_reason : Type :=
| OutOfFuel       (* the recursion bound of the embedding was reached *)
| OutsideModel.   (* JavaScript behaviour that the value model cannot express *)

Inductive result (A : Type) : Type :=
| Ok (a : A)
| Throw (e : value)
| Abort (r : abort_reason).

Arguments Ok {A} a.
Arguments Throw {A} e.
Arguments Abort {A} r.

Definition rbind {A B : Type} (c : result A) (k : A -> result B) : result B :=
  match c with
  | Ok a => k a
  | Throw e => Throw e
  | Abort r => Abort r
  end.

Notation "'let?' x ':=' c 'in' k" := (rbind c (fun x => k))
  (at level 10, x name, c at level 100, k at level 200).

Fixpoint rmap {A B : Type} (f : A -> result B) (l : list A) : result (list B) :=
  match l with
  | [] => Ok []
  | x :: rest =>
      let? y := f x in
      let? ys := rmap f rest in
      Ok (y :: ys)
  end.

(** ** Property access *)

Definition chars (s : string) : list value :=
  map (fun c => VStr (String c "")) (list_ascii_of_string s).

Definition nth_value (n : N) (l : list value) : value :=
  if (n <? N.of_nat (length l))%N then nth (N.to_nat n) l VUndefined else VUndefined.

(** Own property [v[k]] of a value that is neither [null] nor [undefined]. *)
Definition own_prop (v : value) (k : string) : value :=
  match v with
  | VStr s =>
      if k =? "length" then VNum (Z.of_nat (String.length s))
      else match array_index k with
           | Some n => nth_value n (chars s)
           | None => VUndefined
           end
  | VArr l =>
      if k =? "length" then VNum (Z.of_nat (List.length l))
      else match array_index k with
           | Some n => nth_value n l
           | None => VUndefined
           end
  | VObj ps => or_undefined (obj_get k ps)
  | VError _ m ps => if k =? "message" then m else or_undefined (obj_get k ps)
  | _ => VUndefined
  end.

(** The engine's message for a property read on [null] or [undefined]; only
    the class of the error matters to the statements. *)
Definition cannot_read (v : value) (k : string) : value :=
  TypeError ("Cannot read properties of " ++
             (match v with VNull => "null" | _ => "undefined" end) ++
             " (reading '" ++ k ++ "')").

(** [v.k]: reading a property of [null] or [undefined] throws. *)
Definition get_prop (v : value) (k : string) : result value :=
  if nullish v then Throw (cannot_read v k) else Ok (own_prop v k).

(** [v?.k]. *)
Definition opt_get (v : value) (k : string) : value :=
  if nullish v then VUndefined else own_prop v k.

(** [Object.entries(v)], [Object.keys(v)] and the spread [{...v}]. *)
Fixpoint indexed (i : nat) (l : list value) : props :=
  match l with
  | [] => []
  | x :: rest => (string_of_nat i, x) :: indexed (S i) rest
  end.

Definition own_entries (v : value) : props :=
  match v with
  | VStr s => indexed 0 (chars s)
  | VArr l => indexed 0 l
  | VObj ps => ps
  | VError _ _ ps => ps
  | _ => []
  end.

Definition js_entries (v : value) : result props :=
  if nullish v then Throw (TypeError "Cannot convert undefined or null to object")
  else Ok (own_entries v).

Definition js_keys (v : value) : result (list string) :=
  let? es := js_entries v in Ok (keys es).

Definition spread (v : value) : props := own_entries v.

(** [target[k] = v] in strict mode. *)
Definition put_prop (target : value) (k : string) (v : value) : result value :=
  match target with
  | VObj ps => Ok (VObj (obj_set k v ps))
  | VError c m ps =>
      if k =? "message" then Ok (VError c v ps) else Ok (VError c m (obj_set k v ps))
  | VUndefined | VNull =>
      Throw (TypeError ("Cannot set properties of " ++
        (match target with VNull => "null" | _ => "undefined" end) ++
        " (setting '" ++ k ++ "')"))
  | VBool _ | VNum _ | VStr _ =>
      Throw (TypeError ("Cannot create property '" ++ k ++ "' on a primitive"))
  | VArr _ => Abort OutsideModel
  end.

(** [Object.assign(target, src)]: the properties of [src] are written in
    order.  A boolean or number target is wrapped, the wrapper is discarded. *)
Fixpoint assign_props (src : props) (ps : props) : props :=
  match src with
  | [] => ps
  | (k, v) :: rest => assign_props rest (obj_set k v ps)
  end.

Fixpoint assign_error (src : props) (m : value) (ps : props) : value * props :=
  match src with
  | [] => (m, ps)
  | (k, v) :: rest =>
      if k =? "message" then assign_error rest v ps
      else assign_error rest m (obj_set k v ps)
  end.

Definition js_assign (target : value) (src : props) : result value :=
  match target with
  | VObj ps => Ok (VObj (assign_props src ps))
  | VError c m ps => let (m', ps') := assign_error src m ps in Ok (VError c m' ps')
  | VUndefined | VNull => Throw (TypeError "Cannot convert undefined or null to object")
  | VBool _ | VNum _ => Ok target
  | VStr _ | VArr _ => Abort OutsideModel
  end.

(** The parent of a property that was mutated in place: the tree is rebuilt
    with the new child at the position where it was read. *)
Fixpoint replace_nth (n : nat) (x : value) (l : list value) : list value :=
  match l, n with
  | [], _ => []
  | _ :: rest, O => x :: rest
  | y :: rest, S n' => y :: replace_nth n' x rest
  end.

Definition with_prop (parent : value) (k : string) (child : value) : value :=
  match parent with
  | VObj ps => VObj (obj_replace k child ps)
  | VError c m ps =>
      if k =? "message" then VError c child ps else VError c m (obj_replace k child ps)
  | VArr l =>
      match array_index k with
      | Some n => if (n <? N.of_nat (List.length l))%N
                  then VArr (replace_nth (N.to_nat n) child l) else parent
      | None => parent
      end
  | _ => parent
  end.

(** [delete v[k]]. *)
Definition delete_prop (v : value) (k : string) : value :=
  match v with
  | VObj ps => VObj (obj_remove k ps)
  | VError c m ps => VError c m (obj_remove k ps)
  | _ => v
  end.

(** [v === s] for a string literal [s]. *)
Definition strict_eq_str (v : value) (s : string) : bool :=
  match v with VStr t => t =? s | _ => false end.

(** [msg.includes(needle)]: strings and arrays have the method. *)
Definition js_includes (msg : value) (needle : string) : result bool :=
  match msg with
  | VStr s => Ok (includes needle s)
  | VArr l => Ok (existsb (fun x => strict_eq_str x needle) l)
  | VUndefined | VNull => Throw (cannot_read msg "includes")
  | _ => Throw (TypeError "includes is not a function")
  end.

(** [ref.split("/")]. *)
Definition js_split (ref : value) (sep : ascii) : result (list string) :=
  match ref with
  | VStr s => Ok (split sep s)
  | VUndefined | VNull => Throw (cannot_read ref "split")
  | _ => Throw (TypeError "split is not a function")
  end.

(** The values a [for ... of] loop visits. *)
Definition js_iterate (v : value) : result (list value) :=
  match v with
  | VArr l => Ok l
  | VStr s => Ok (chars s)
  | _ => Throw (TypeError "value is not iterable")
  end.

(** Template-literal conversion [`${v}`], also used for property keys. *)
Fixpoint to_str (v : value) : string :=
  match v with
  | VUndefined => "undefined"
  | VNull => "null"
  | VBool true => "true"
  | VBool false => "false"
  | VNum n => string_of_Z n
  | VStr s => s
  | VArr l =>
      (fix join (l : list value) : string :=
         match l with
         | [] => ""
         | x :: rest =>
             (if nullish x then "" else to_str x) ++
             match rest with [] => "" | _ => "," ++ join rest end
         end) l
  | VObj _ => "[object Object]"
  | VError c m _ =>
      let msg := match m with VUndefined => "" | _ => to_str m end in
      if msg =? "" then c else c ++ ": " ++ msg
  end.

(** ** Structural comparisons *)

(** [util.isDeepStrictEqual]: the order of an object's keys is irrelevant. *)
Fixpoint isEqual (a b : value) {struct a} : bool :=
  match a, b with
  | VUndefined, VUndefined => true
  | VNull, VNull => true
  | VBool x, VBool y => Bool.eqb x y
  | VNum x, VNum y => (x =? y)%Z
  | VStr x, VStr y => x =? y
  | VArr xs, VArr ys =>
      (fix all2 (xs ys : list value) : bool :=
         match xs, ys with
         | [], [] => true
         | x :: xs', y :: ys' => isEqual x y && all2 xs' ys'
         | _, _ => false
         end) xs ys
  | VObj ps, VObj qs =>
      (List.length ps =? List.length qs)%nat &&
      (fix all (ps : props) : bool :=
         match ps with
         | [] => true
         | (k, v) :: ps' =>
             match obj_get k qs with
             | Some w => isEqual v w
             | None => false
             end && all ps'
         end) ps
  | VError c m ps, VError d n qs =>
      (c =? d) && isEqual m n &&
      (List.length ps =? List.length qs)%nat &&
      (fix all (ps : props) : bool :=
         match ps with
         | [] => true
         | (k, v) :: ps' =>
             match obj_get k qs with
             | Some w => isEqual v w
             | None => false
             end && all ps'
         end) ps
  | _, _ => false
  end.

(** Equality of representations, used to tabulate collaborators. *)
Fixpoint value_eqb (a b : value) {struct a} : bool :=
  match a, b with
  | VUndefined, VUndefined => true
  | VNull, VNull => true
  | VBool x, VBool y => Bool.eqb x y
  | VNum x, VNum y => (x =? y)%Z
  | VStr x, VStr y => x =? y
  | VArr xs, VArr ys =>
      (fix all2 (xs ys : list value) : bool :=
         match xs, ys with
         | [], [] => true
         | x :: xs', y :: ys' => value_eqb x y && all2 xs' ys'
         | _, _ => false
         end) xs ys
  | VObj ps, VObj qs =>
      (fix all2 (ps qs : props) : bool :=
         match ps, qs with
         | [], [] => true
         | (k, v) :: ps', (k', w) :: qs' => (k =? k') && value_eqb v w && all2 ps' qs'
         | _, _ => false
         end) ps qs
  | VError c m ps, VError d n qs =>
      (c =? d) && value_eqb m n &&
      (fix all2 (ps qs : props) : bool :=
         match ps, qs with
         | [], [] => true
         | (k, v) :: ps', (k', w) :: qs' => (k =? k') && value_eqb v w && all2 ps' qs'
         | _, _ => false
         end) ps qs
  | _, _ => false
  end.

(** ** The handler instance and its collaborators *)

(** A settled promise of a collaborator (or the return/throw of a call).
    The collaborators are taken as functions of their arguments that leave
    the arguments as they are. *)
Inductive settled : Type :=
| Resolved (v : value)
| Rejected (e : value).

Inductive call : Type :=
| CallBundle (schema options : value)
| CallDereference (schema options : value)
| CallConvert (schema name : value)
| CallUuid.

Class Collaborators : Type := {
  (* $RefParser.bundle(schema, options) *)
  bundle : value -> value -> settled;
  (* $RefParser.dereference(schema, options) *)
  dereference : value -> value -> settled;
  (* SchemaConvertor.convert(schema, name) *)
  convert : value -> value -> settled;
  (* the identifier returned by the n-th call of uuid() *)
  uuid : nat -> string;
  (* `${JSON.stringify(v)}` *)
  stringify : value -> string
}.

Record SchemaHandler : Type := mkSchemaHandler {
  apiGatewayModels : value;
  documentation : value;
  openAPI : value;
  modelReferences : props;
  models : list value;
  refParserOptions : value;
  drawn : nat;          (* ghost: identifiers drawn from uuid() so far *)
  calls : list call     (* ghost: collaborator invocations, oldest first *)
}.

Definition set_openAPI (doc : value) (h : SchemaHandler) : SchemaHandler :=
  mkSchemaHandler (apiGatewayModels h) (documentation h) doc (modelReferences h)
    (models h) (refParserOptions h) (drawn h) (calls h).

Definition set_modelReferences (refs : props) (h : SchemaHandler) : SchemaHandler :=
  mkSchemaHandler (apiGatewayModels h) (documentation h) (openAPI h) refs
    (models h) (refParserOptions h) (drawn h) (calls h).

Definition set_models (ms : list value) (h : SchemaHandler) : SchemaHandler :=
  mkSchemaHandler (apiGatewayModels h) (documentation h) (openAPI h)
    (modelReferences h) ms (refParserOptions h) (drawn h) (calls h).

Definition record_call (c : call) (h : SchemaHandler) : SchemaHandler :=
  mkSchemaHandler (apiGatewayModels h) (documentation h) (openAPI h)
    (modelReferences h) (models h) (refParserOptions h)
    (match c with CallUuid => S (drawn h) | _ => drawn h end)
    (calls h ++ [c])%list.

(** ** The monad of methods: state that survives exceptions *)

Definition M (A : Type) : Type := SchemaHandler -> result A * SchemaHandler.

Definition ret {A : Type} (a : A) : M A := fun h => (Ok a, h).

Definition bind {A B : Type} (c : M A) (k : A -> M B) : M B :=
  fun h =>
    match c h with
    | (Ok a, h') => k a h'
    | (Throw e, h') => (Throw e, h')
    | (Abort r, h') => (Abort r, h')
    end.

Definition lift {A : Type} (r : result A) : M A := fun h => (r, h).

Definition throw {A : Type} (e : value) : M A := fun h => (Throw e, h).

Definition abort {A : Type} (r : abort_reason) : M A := fun h => (Abort r, h).

Definition this : M SchemaHandler := fun h => (Ok h, h).

Definition modify (f : SchemaHandler -> SchemaHandler) : M unit :=
  fun h => (Ok tt, f h).

(** [promise.catch(handler)]. *)
Definition catch {A : Type} (c : M A) (handler : value -> M A) : M A :=
  fun h =>
    match c h with
    | (Throw e, h') => handler e h'
    | other => other
    end.

Notation "x <- c ;; k" := (bind c (fun x => k))
  (at level 61, c at next level, right associativity).
Notation "c ;; k" := (bind c (fun _ => k))
  (at level 61, right associativity).

Fixpoint for_each {A : Type} (l : list A) (body : A -> M unit) : M unit :=
  match l with
  | [] => ret tt
  | x :: rest => body x ;; for_each rest body
  end.

Fixpoint fold_each {A S : Type} (l : list A) (s : S) (body : S -> A -> M S) : M S :=
  match l with
  | [] => ret s
  | x :: rest => s' <- body s x ;; fold_each rest s' body
  end.

Fixpoint rfor_each {A : Type} (l : list A) (body : A -> result unit) : result unit :=
  match l with
  | [] => Ok tt
  | x :: rest => let? _ := body x in rfor_each rest body
  end.

Definition of_settled (s : settled) : result value :=
  match s with
  | Resolved v => Ok v
  | Rejected e => Throw e
  end.

Definition REF_PREFIX : string := "#/components/schemas/".

(** [`${schemaName}-${uuid()}`]. *)
Definition suffixed (schemaName u : string) : string := schemaName ++ "-" ++ u.

Definition MISSING_PATH : string :=
  "Expected a file path, URL, or object. Got undefined".

Section Handler.

Context {collaborators : Collaborators}.

Definition call_bundle (schema : value) : M value :=
  fun h => (of_settled (bundle schema (refParserOptions h)),
            record_call (CallBundle schema (refParserOptions h)) h).

Definition call_dereference (schema : value) : M value :=
  fun h => (of_settled (dereference schema (refParserOptions h)),
            record_call (CallDereference schema (refParserOptions h)) h).

Definition call_convert (schema name : value) : M value :=
  fun h => (of_settled (convert schema name), record_call (CallConvert schema name) h).

Definition call_uuid : M string :=
  fun h => (Ok (uuid (drawn h)), record_call CallUuid h).

(** *** [__standardiseModels] (lines 39-67) *)

(** The arrow function [standardModel]; the model is mutated in place and
    returned, the result is the model after the mutation.  The raw entry is
    held by [this.documentation] or [this.apiGatewayModels]; the change it
    undergoes there is not tracked in those two fields. *)
Definition standardModel (model : value) : result value :=
  let? schema := get_prop model "schema" in
  if truthy schema then Ok model
  else
    let? content := get_prop model "content" in
    let? ks := js_keys content in
    let contentType := match ks with k :: _ => VStr k | [] => VUndefined end in
    let? model1 := put_prop model "contentType" contentType in
    let? content1 := get_prop model1 "content" in
    let? media := get_prop content1 (to_str contentType) in
    let? lifted := get_prop media "schema" in
    put_prop model1 "schema" lifted.

(** [collection?.map(standardModel) || []]. *)
Definition map_standardModel (collection : value) : result (list value) :=
  match collection with
  | VUndefined | VNull => Ok []
  | VArr l => rmap standardModel l
  | _ => Throw (TypeError "map is not a function")
  end.

(** One level of flattening, as [flatMap] applies to what its callback
    returns. *)
Definition flatten1 (v : value) : list value :=
  match v with
  | VArr l => l
  | _ => [v]
  end.

Definition standardiseModels : M unit :=
  h <- this ;;
  standardisedModels <-
    lift (map_standardModel (opt_get (documentation h) "models")) ;;
  standardisedModelsList <-
    lift (map_standardModel (opt_get (documentation h) "modelsList")) ;;
  ks <- lift (js_keys (apiGatewayModels h)) ;;
  gateway <-
    lift (rmap (fun key =>
                  let gatewayModel := own_prop (apiGatewayModels h) key in
                  let? m := standardModel gatewayModel in Ok (flatten1 m)) ks) ;;
  modify (set_models
    (standardisedModels ++ standardisedModelsList ++ concat gateway)%list).

(** *** Predicates and insertion on the registry (lines 220-260) *)

(** [Boolean(this.openAPI?.components?.schemas?.[name])], read on own
    properties.  For a name of [object_prototype_names] that the registry
    does not own, the code finds the inherited member and answers [true]:
    the statements that depend on a name being absent from the registry are
    made for plain keys. *)
Definition existsInComponents (name : string) : M bool :=
  h <- this ;;
  ret (truthy (opt_get (opt_get (opt_get (openAPI h) "components") "schemas") name)).

Definition isTheSameSchema (schema : value) (otherSchemaName : string) : M bool :=
  h <- this ;;
  components <- lift (get_prop (openAPI h) "components") ;;
  schemas <- lift (get_prop components "schemas") ;;
  other <- lift (get_prop schemas otherSchemaName) ;;
  ret (isEqual schema other).

(** The body of [__addToComponents] as a function of [this.openAPI]: the
    document after the in-place [Object.assign], on own properties.  For the
    key [__proto__] and a registry that does not own it, [Object.assign]
    calls the setter of the prototype and no own entry is created: the
    statements about what is registered under a name are made for names
    other than [__proto__]. *)
Definition assigned (doc : value) (type : string) (schema : value) (name : string)
  : result value :=
  let schemaObj := [(name, schema)] in
  let components := opt_get doc "components" in
  if truthy components then
    let slot := own_prop components type in
    if truthy slot then
      let? slot' := js_assign slot schemaObj in
      Ok (with_prop doc "components" (with_prop components type slot'))
    else
      let? components' := js_assign components [(type, VObj schemaObj)] in
      Ok (with_prop doc "components" components')
  else
    js_assign doc [("components", VObj [(type, VObj schemaObj)])].

Definition addToComponents (type : string) (schema : value) (name : string) : M unit :=
  h <- this ;;
  doc <- lift (assigned (openAPI h) type schema name) ;;
  modify (set_openAPI doc).

(** *** Error classification (lines 262-287) *)

Definition HTTPError (error model : value) : result unit :=
  let? message := get_prop error "message" in
  let? found := js_includes message "HTTP ERROR" in
  if found then
    let? name := get_prop model "name" in
    Throw (new_Error
      ("There was an error dereferencing " ++ to_str name ++
       " schema.  " ++ LF ++ LF ++ " dereferencing message: " ++ to_str message ++
       " " ++ LF ++ LF ++ " Model received: " ++ stringify model))
  else Ok tt.

Definition checkForHTTPErrorsAndThrow (error model : value) : result unit :=
  let? errors := get_prop error "errors" in
  if truthy errors then
    let? subs := js_iterate errors in
    rfor_each subs (fun err => HTTPError err model)
  else HTTPError error model.

Definition checkForMissingPathAndThrow (error : value) : result unit :=
  let? message := get_prop error "message" in
  if strict_eq_str message MISSING_PATH then Throw error else Ok tt.

(** *** [__dereferenceSchema] (lines 181-213) *)

Fixpoint dereferenceSchema (fuel : nat) (schema : value) : M value :=
  match fuel with
  | O => abort OutOfFuel
  | S fuel' =>
      bundledSchema <- call_bundle schema ;;
      deReferencedSchema <- call_dereference bundledSchema ;;
      if strict_eq_str (opt_get deReferencedSchema "$ref") "#" then
        oldRef <- lift (get_prop bundledSchema "$ref") ;;
        path <- lift (js_split oldRef "/") ;;
        let pathTitle := last path "" in
        definitions <- lift (get_prop deReferencedSchema "definitions") ;;
        referencedProperties <- lift (get_prop definitions pathTitle) ;;
        merged <- lift (js_assign deReferencedSchema (spread referencedProperties)) ;;
        dereferenceSchema fuel' (delete_prop merged "$ref")
      else ret deReferencedSchema
  end.

(** *** [__dereferenceAndConvert] (lines 148-179) *)

(** The loop of lines 168-172 on one entry of the model. *)
Definition overlay_entry (name : value) (converted : value) (entry : string * value)
  : result value :=
  let (key, v) := entry in
  if startsWith "x-" key then
    let? schemas := get_prop converted "schemas" in
    let target := opt_get schemas (to_str name) in
    if truthy target then
      let? target' := put_prop target key v in
      Ok (with_prop converted "schemas" (with_prop schemas (to_str name) target'))
    else Ok converted
  else Ok converted.

Fixpoint overlay (name : value) (converted : value) (entries : props) : result value :=
  match entries with
  | [] => Ok converted
  | e :: rest =>
      let? converted' := overlay_entry name converted e in
      overlay name converted' rest
  end.

(** Lines 164-178: what runs once the resolver's promise has settled. *)
Definition convert_phase (dereferencedSchema name model : value) : M value :=
  convertedSchemas <- call_convert dereferencedSchema name ;;
  entries <- lift (js_entries model) ;;
  lift (overlay name convertedSchemas entries).

Definition dereferenceAndConvert (fuel : nat) (schema name model : value) : M value :=
  dereferencedSchema <-
    catch (dereferenceSchema fuel schema)
      (fun err =>
         lift (checkForHTTPErrorsAndThrow err model) ;;
         lift (checkForMissingPathAndThrow err) ;;
         ret schema) ;;
  convert_phase dereferencedSchema name model.

(** *** [addModelsToOpenAPI] (lines 69-111) *)

Definition shape_error (model converted : value) : result value :=
  let? name := get_prop model "name" in
  Ok (new_Error
    ("There was an error converting the " ++ to_str name ++
     " schema. Model received looks like: " ++ LF ++ LF ++ stringify model ++
     ".  The convereted schema looks like " ++ LF ++ LF ++ stringify converted)).

(** Lines 91-97: the body of the inner loop.  The cache is written as an
    own property; for the name [__proto__] the assignment of line 92 goes to
    the setter of the prototype, which ignores a string: the statements
    about the cache entry of a model are made for names other than
    [__proto__]. *)
Definition absorb_entry (modelName : value) (entry : string * value) : M unit :=
  let (schemaName, schemaValue) := entry in
  (if strict_eq_str modelName schemaName then
     h <- this ;;
     modify (set_modelReferences
       (obj_set schemaName (VStr (REF_PREFIX ++ to_str modelName)) (modelReferences h)))
   else ret tt) ;;
  addToComponents "schemas" schemaValue schemaName.

(** Lines 83-109: from the shape check on. *)
Definition absorb_converted (model modelName convertedSchemas : value) : M unit :=
  schemas <- lift (get_prop convertedSchemas "schemas") ;;
  if typeof_object schemas && negb (isArray schemas) && negb (nullish schemas) then
    entries <- lift (js_entries schemas) ;;
    for_each entries (absorb_entry modelName)
  else
    e <- lift (shape_error model convertedSchemas) ;;
    throw e.

(** Lines 71-109: the body of the outer loop. *)
Definition absorb_model (fuel : nat) (model : value) : M unit :=
  modelName <- lift (get_prop model "name") ;;
  modelSchema <- lift (get_prop model "schema") ;;
  convertedSchemas <-
    catch (dereferenceAndConvert fuel modelSchema modelName model)
      (fun err => if instanceof_Error err then throw err else ret err) ;;
  absorb_converted model modelName convertedSchemas.

Definition addModelsToOpenAPI (fuel : nat) : M unit :=
  h <- this ;;
  for_each (models h) (absorb_model fuel).

(** *** [createSchema] (lines 113-146) *)

(** Lines 131-142: the body of the loop; the state of the loop is
    [finalName]. *)
Definition merge_entry (originalName : string) (finalName : string)
  (entry : string * value) : M string :=
  let (schemaName, schemaValue) := entry in
  present <- existsInComponents schemaName ;;
  if present then
    same <- isTheSameSchema schemaValue schemaName ;;
    if negb same then
      if schemaName =? originalName then
        u <- call_uuid ;;
        let finalName' := suffixed schemaName u in
        addToComponents "schemas" schemaValue finalName' ;;
        ret finalName'
      else
        addToComponents "schemas" schemaValue schemaName ;;
        ret finalName
    else ret finalName
  else
    addToComponents "schemas" schemaValue schemaName ;;
    ret finalName.

(** The object literal [{ name, schema }] of lines 121-124.  In
    [createSchema] the cache is read on own properties; for a name of
    [object_prototype_names] that the cache does not own, line 117 finds the
    inherited member: the statements about a call without a schema are made
    for cached names. *)
Definition inline_model (name : string) (schema : value) : value :=
  VObj [("name", VStr name); ("schema", schema)].

Definition createSchema (fuel : nat) (name : string) (schema : value) : M value :=
  h <- this ;;
  let cached := or_undefined (obj_get name (modelReferences h)) in
  if truthy cached && (match schema with VUndefined => true | _ => false end)
  then ret cached
  else
    convertedSchemas <-
      dereferenceAndConvert fuel schema (VStr name) (inline_model name schema) ;;
    schemas <- lift (get_prop convertedSchemas "schemas") ;;
    entries <- lift (js_entries schemas) ;;
    finalName <- fold_each entries name (merge_entry name) ;;
    ret (VStr (REF_PREFIX ++ finalName)).

End Handler.


(** ** Vocabulary of the statements *)

(** [this.openAPI.components.schemas], the registry, and its own entries. *)
Definition registry (doc : value) : value :=
  opt_get (opt_get doc "components") "schemas".

Definition schemas_of (doc : value) : props :=
  match registry doc with
  | VObj r => r
  | _ => []
  end.

Definition entry (doc : value) (k : string) : option value :=
  obj_get k (schemas_of doc).

(** A document of the expected shape: an object whose [components], when
    truthy, is an object whose [schemas], when truthy, is an object. *)
Definition doc_ok (doc : value) : bool :=
  match doc with
  | VObj d =>
      match or_undefined (obj_get "components" d) with
      | VObj c =>
          match or_undefined (obj_get "schemas" c) with
          | VObj _ => true
          | s => negb (truthy s)
          end
      | c => negb (truthy c)
      end
  | _ => false
  end.

(** Everything but the ghost log of collaborator calls. *)
Definition same_store (h h' : SchemaHandler) : Prop :=
  apiGatewayModels h' = apiGatewayModels h /\
  documentation h' = documentation h /\
  openAPI h' = openAPI h /\
  modelReferences h' = modelReferences h /\
  models h' = models h /\
  refParserOptions h' = refParserOptions h /\
  drawn h' = drawn h.

(** A computation that changes nothing but the log. *)
Definition keeps_store {A : Type} (c : M A) : Prop :=
  forall h, same_store h (snd (c h)).

(** A computation that, on a document of the expected shape, leaves a
    document of the expected shape in which every registered name is still
    registered. *)
Definition keeps_names {A : Type} (c : M A) : Prop :=
  forall h, doc_ok (openAPI h) = true ->
    doc_ok (openAPI (snd (c h))) = true /\
    forall k, entry (openAPI h) k <> None -> entry (openAPI (snd (c h))) k <> None.

(** Induction on values through the lists they nest. *)
Section ValueInduction.

Variable P : value -> Prop.
Hypothesis P_undefined : P VUndefined.
Hypothesis P_null : P VNull.
Hypothesis P_bool : forall b, P (VBool b).
Hypothesis P_num : forall n, P (VNum n).
Hypothesis P_str : forall s, P (VStr s).
Hypothesis P_arr : forall l, Forall P l -> P (VArr l).
Hypothesis P_obj : forall ps, Forall (fun kv => P (snd kv)) ps -> P (VObj ps).
Hypothesis P_error :
  forall c m ps, P m -> Forall (fun kv => P (snd kv)) ps -> P (VError c m ps).

Fixpoint value_nested_ind (v : value) : P v :=
  match v with
  | VUndefined => P_undefined
  | VNull => P_null
  | VBool b => P_bool b
  | VNum n => P_num n
  | VStr s => P_str s
  | VArr l =>
      P_arr l
        ((fix go (l : list value) : Forall P l :=
            match l with
            | [] => Forall_nil P
            | x :: rest => Forall_cons x (value_nested_ind x) (go rest)
            end) l)
  | VObj ps =>
      P_obj ps
        ((fix go (ps : props) : Forall (fun kv => P (snd kv)) ps :=
            match ps with
            | [] => Forall_nil _
            | kv :: rest => Forall_cons kv (value_nested_ind (snd kv)) (go rest)
            end) ps)
  | VError c m ps =>
      P_error c m ps (value_nested_ind m)
        ((fix go (ps : props) : Forall (fun kv => P (snd kv)) ps :=
            match ps with
            | [] => Forall_nil _
            | kv :: rest => Forall_cons kv (value_nested_ind (snd kv)) (go rest)
            end) ps)
  end.

End ValueInduction.

(** A computation whose outcome depends on the handler only through
    [refParserOptions]. *)
Definition reads_options {A : Type} (c : M A) : Prop :=
  forall h h', refParserOptions h = refParserOptions h' -> fst (c h) = fst (c h').

(** A computation that leaves [this.modelReferences] alone. *)
Definition keeps_refs {A : Type} (c : M A) : Prop :=
  forall h, modelReferences (snd (c h)) = modelReferences h.

(** The messages that the HTTP rule inspects in a resolution failure: those
    of the sub-errors when the failure carries a list of them, its own
    otherwise.  [None] when the failure is not of that form. *)
Definition message_of (e : value) : option string :=
  if nullish e then None
  else match own_prop e "message" with
       | VStr m => Some m
       | _ => None
       end.

Fixpoint messages_of (subs : list value) : option (list string) :=
  match subs with
  | [] => Some []
  | e :: rest =>
      match message_of e, messages_of rest with
      | Some m, Some ms => Some (m :: ms)
      | _, _ => None
      end
  end.

Definition inspected_messages (e : value) : option (list string) :=
  if nullish e then None
  else
    let errors := own_prop e "errors" in
    if truthy errors then
      match errors with
      | VArr subs => messages_of subs
      | _ => None
      end
    else match message_of e with
         | Some m => Some [m]
         | None => None
         end.

(** What the normalizer makes of a raw entry: an entry with a truthy
    [schema] is kept; an object without one gets the [schema] of the first
    media type of its [content] and that media type as [contentType]. *)
Inductive standard_of : value -> value -> Prop :=
| standard_kept (model : value) :
    nullish model = false ->
    truthy (own_prop model "schema") = true ->
    standard_of model model
| standard_lifted (ps : props) (content media : value) (mediaType : string)
    (others : list string) :
    truthy (or_undefined (obj_get "schema" ps)) = false ->
    or_undefined (obj_get "content" ps) = content ->
    js_keys content = Ok (mediaType :: others) ->
    own_prop content mediaType = media ->
    nullish media = false ->
    standard_of (VObj ps)
      (VObj (obj_set "schema" (own_prop media "schema")
               (obj_set "contentType" (VStr mediaType) ps))).

(** A collection of raw entries: absent, or an array. *)
Inductive collection : value -> list value -> Prop :=
| collection_absent (c : value) : nullish c = true -> collection c []
| collection_array (l : list value) : collection (VArr l) l.

(** Everything but the document, the identifier counter and the log. *)
Definition same_config (h h' : SchemaHandler) : Prop :=
  apiGatewayModels h' = apiGatewayModels h /\
  documentation h' = documentation h /\
  modelReferences h' = modelReferences h /\
  models h' = models h /\
  refParserOptions h' = refParserOptions h.

(** Objects with pairwise distinct keys at every depth, as every JavaScript
    object has. *)
Fixpoint uniq_keys (ps : props) : bool :=
  match ps with
  | [] => true
  | (k, _) :: rest => negb (obj_has k rest) && uniq_keys rest
  end.

Fixpoint wf_value (v : value) : bool :=
  match v with
  | VArr l =>
      (fix all (l : list value) : bool :=
         match l with
         | [] => true
         | x :: rest => wf_value x && all rest
         end) l
  | VObj ps =>
      uniq_keys ps &&
      (fix all (ps : props) : bool :=
         match ps with
         | [] => true
         | (_, x) :: rest => wf_value x && all rest
         end) ps
  | VError _ m ps =>
      wf_value m && uniq_keys ps &&
      (fix all (ps : props) : bool :=
         match ps with
         | [] => true
         | (_, x) :: rest => wf_value x && all rest
         end) ps
  | _ => true
  end.

Definition wf_entries (ps : props) : Prop :=
  NoDup (keys ps) /\ forall k v, In (k, v) ps -> wf_value v = true.

(** An entry of a converted set that a merge would leave alone: the registry
    holds a structurally equal truthy value, or the very same falsy one. *)
Definition settled_in (doc : value) (k : string) (v : value) : Prop :=
  exists cur,
    entry doc k = Some cur /\
    (truthy cur = true -> isEqual v cur = true) /\
    (truthy cur = false -> cur = v).

Section Vocabulary.

Context {collaborators : Collaborators}.

(** The three things one iteration of the loop of [createSchema] can do. *)
Inductive merge_step (originalName finalName k : string) (v : value)
  (h : SchemaHandler) : string -> SchemaHandler -> Prop :=
| step_keep (cur : value) :
    entry (openAPI h) k = Some cur ->
    truthy cur = true ->
    isEqual v cur = true ->
    merge_step originalName finalName k v h finalName h
| step_mint (cur doc' : value) :
    entry (openAPI h) k = Some cur ->
    truthy cur = true ->
    isEqual v cur = false ->
    k = originalName ->
    assigned (openAPI h) "schemas" v (suffixed k (uuid (drawn h))) = Ok doc' ->
    merge_step originalName finalName k v h
      (suffixed k (uuid (drawn h))) (set_openAPI doc' (record_call CallUuid h))
| step_put (doc' : value) :
    truthy (or_undefined (entry (openAPI h) k)) = false \/
    (exists cur, entry (openAPI h) k = Some cur /\ isEqual v cur = false /\
                 k <> originalName) ->
    assigned (openAPI h) "schemas" v k = Ok doc' ->
    merge_step originalName finalName k v h finalName (set_openAPI doc' h).

End Vocabulary.

(** ** The constructor (lines 11-34) *)

Definition set_refParserOptions (options : value) (h : SchemaHandler) : SchemaHandler :=
  mkSchemaHandler (apiGatewayModels h) (documentation h) (openAPI h)
    (modelReferences h) (models h) options (drawn h) (calls h).

(** [required] is how the [try] block of lines 23-30 settled: the module
    that [require] returned, or what was thrown.  The fields that the
    constructor has not assigned yet are [undefined] (an empty list for
    [this.models]). *)
Definition construct (serverless doc : value) (required : settled)
  : result SchemaHandler :=
  let? service := get_prop serverless "service" in
  let schemas :=
    opt_get (opt_get (opt_get (opt_get service "provider") "apiGateway") "request")
      "schemas" in
  let gateway := if truthy schemas then schemas else VObj [] in
  let? custom := get_prop service "custom" in
  let? documentation := get_prop custom "documentation" in
  let h := mkSchemaHandler gateway documentation doc [] [] VUndefined 0 [] in
  match standardiseModels h with
  | (Ok _, h') =>
      Ok (set_refParserOptions
            (match required with
             | Resolved options => options
             | Rejected _ => VObj []
             end) h')
  | (Throw e, _) => Throw e
  | (Abort r, _) => Abort r
  end.



(** ** Concrete collaborators and handlers for the examples *)

(** A JSON printer for the examples (escapes are not rendered). *)
Definition quoted (s : string) : string :=
  String (ascii_of_nat 34) (s ++ String (ascii_of_nat 34) "").

Fixpoint json (v : value) : string :=
  match v with
  | VUndefined => "undefined"
  | VNull => "null"
  | VBool true => "true"
  | VBool false => "false"
  | VNum n => string_of_Z n
  | VStr s => quoted s
  | VArr l =>
      "[" ++ String.concat ","
        ((fix items (l : list value) : list string :=
            match l with
            | [] => []
            | x :: rest =>
                (match x with VUndefined => "null" | _ => json x end) :: items rest
            end) l) ++ "]"
  | VObj ps | VError _ _ ps =>
      "{" ++ String.concat ","
        ((fix members (ps : props) : list string :=
            match ps with
            | [] => []
            | (k, x) :: rest =>
                match x with
                | VUndefined => members rest
                | _ => (quoted k ++ ":" ++ json x) :: members rest
                end
            end) ps) ++ "}"
  end.

(** Collaborators that leave a document as it is, reject a missing document
    as [$RefParser] does, and convert a document to the one-entry set that
    binds the requested name to it. *)
Definition demo : Collaborators := {|
  bundle := fun schema _ =>
    match schema with
    | VUndefined => Rejected (new_Error MISSING_PATH)
    | _ => Resolved schema
    end;
  dereference := fun schema _ => Resolved schema;
  convert := fun schema name =>
    Resolved (VObj [("schemas", VObj [(to_str name, schema)])]);
  uuid := fun n => "id" ++ string_of_nat n;
  stringify := json
|}.

Definition string_schema : value := VObj [("type", VStr "string")].
Definition number_schema : value := VObj [("type", VStr "number")].

Definition handler_with (doc : value) (refs : props) (ms : list value) : SchemaHandler :=
  mkSchemaHandler (VObj []) (VObj []) doc refs ms (VObj []) 0 [].

(** A handler whose registry already holds [Foo]. *)
Definition handler_Foo : SchemaHandler :=
  handler_with
    (VObj [("openapi", VStr "3.0.0");
           ("components", VObj [("schemas", VObj [("Foo", string_schema)])])])
    [] [].

(** A handler whose registry maps [Foo] to [null]. *)
Definition handler_null_Foo : SchemaHandler :=
  handler_with
    (VObj [("components", VObj [("schemas", VObj [("Foo", VNull)])])]) [] [].

(** A handler with an empty document. *)
Definition handler_empty : SchemaHandler := handler_with (VObj []) [] [].

(** The same collaborators with a resolver that always rejects with [e]. *)
Definition demo_failing (e : value) : Collaborators := {|
  bundle := fun _ _ => Rejected e;
  dereference := fun schema _ => Resolved schema;
  convert := @convert demo;
  uuid := @uuid demo;
  stringify := json
|}.

(** The same collaborators with a converter that always settles as [out]. *)
Definition demo_converting (out : settled) : Collaborators := {|
  bundle := @bundle demo;
  dereference := @dereference demo;
  convert := fun _ _ => out;
  uuid := @uuid demo;
  stringify := json
|}.

(** A document whose root is a reference to a definition that itself refers
    to another definition, and a dereferencer that returns the root
    self-reference for it, as the pathology of lines 194-210 has it. *)
Definition nested_definitions : value :=
  VObj [("A", VObj [("type", VStr "object");
                    ("properties",
                     VObj [("x", VObj [("$ref", VStr "#/definitions/B")])])]);
        ("B", string_schema)].

Definition nested_doc : value :=
  VObj [("$ref", VStr "#/definitions/A"); ("definitions", nested_definitions)].

Definition nested_dereferenced : value :=
  VObj [("$ref", VStr "#"); ("definitions", nested_definitions)].

Definition nested_patched : value :=
  VObj [("definitions", nested_definitions);
        ("type", VStr "object");
        ("properties", VObj [("x", VObj [("$ref", VStr "#/definitions/B")])])].

Definition nested_resolved : value :=
  VObj [("definitions", nested_definitions);
        ("type", VStr "object");
        ("properties", VObj [("x", string_schema)])].

Definition demo_nested : Collaborators := {|
  bundle := fun schema _ => Resolved schema;
  dereference := fun schema _ =>
    if value_eqb schema nested_doc then Resolved nested_dereferenced
    else if value_eqb schema nested_patched then Resolved nested_resolved
    else Resolved schema;
  convert := @convert demo;
  uuid := @uuid demo;
  stringify := json
|}.

Definition Foo_model : value :=
  VObj [("name", VStr "Foo"); ("schema", number_schema)].

(** [handler_Foo] with one model to absorb, named like the registered
    entry. *)
Definition handler_Foo_model : SchemaHandler :=
  handler_with (openAPI handler_Foo) [] [Foo_model].

(** Raw entries of the three origins. *)
Definition User_model : value :=
  VObj [("name", VStr "User"); ("schema", string_schema)].

Definition Problem_model : value :=
  VObj [("name", VStr "Problem");
        ("content", VObj [("application/json", VObj [("schema", number_schema)])])].

Definition Problem_standard : value :=
  VObj [("name", VStr "Problem");
        ("content", VObj [("application/json", VObj [("schema", number_schema)])]);
        ("contentType", VStr "application/json");
        ("schema", number_schema)].

Definition Never_model : value :=
  VObj [("name", VStr "Never"); ("schema", VBool false)].

Definition handler_raw (doc gateway : value) : SchemaHandler :=
  mkSchemaHandler gateway doc (VObj []) [] [] (VObj []) 0 [].

(** A dereferencer that never gets rid of the root self-reference. *)
Definition demo_stuck : Collaborators := {|
  bundle := fun _ _ => Resolved (VObj [("$ref", VStr "#/definitions/A")]);
  dereference := fun _ _ =>
    Resolved (VObj [("$ref", VStr "#"); ("definitions", VObj [("A", VObj [])])]);
  convert := @convert demo;
  uuid := @uuid demo;
  stringify := json
|}.

(** Two models of the same name with different schemas. *)
Definition Foo_string_model : value :=
  VObj [("name", VStr "Foo"); ("schema", string_schema)].

Definition handler_same_name : SchemaHandler :=
  handler_with (VObj []) [] [Foo_string_model; Foo_model].

(** A failure whose own message has the HTTP marker and whose sub-errors do
    not, and one whose sub-error has it. *)
Definition grouped_failure : value :=
  VError "Error" (VStr "HTTP ERROR 404") [("errors", VArr [new_Error "timeout"])].

Definition grouped_http_failure : value :=
  VError "Error" (VStr "2 errors occurred")
    [("errors", VArr [new_Error "timeout"; new_Error "HTTP ERROR 500"])].

(** A model with a vendor extension. *)
Definition Ext_model : value :=
  VObj [("name", VStr "Foo"); ("schema", number_schema); ("x-tag", VStr "t")].

(** A model without a schema, which the resolver of [demo] rejects. *)
Definition Bad_model : value := VObj [("name", VStr "Bad")].

(** A batch whose second model fails. *)
Definition handler_batch : SchemaHandler :=
  handler_with (VObj []) [] [Foo_model; Bad_model; User_model].

(** A failure whose own message has the HTTP marker and whose sub-error
    list is empty. *)
Definition aggregate_failure : value :=
  VError "Error" (VStr "HTTP ERROR 404") [("errors", VArr [])].

(** A converted set that has no entry of the requested name. *)
Definition other_converted : value :=
  VObj [("schemas", VObj [("Other", number_schema)])].


(** Configurations for the constructor. *)
Definition serverless_documented : value :=
  VObj [("service",
         VObj [("custom",
                VObj [("documentation",
                       VObj [("models", VArr [User_model; Problem_model])])])])].

Definition serverless_bare : value := VObj [("service", VObj [])].

(** Runs of the methods on the handlers above. *)
Definition Foo_bulk : result unit * SchemaHandler :=
  addModelsToOpenAPI (collaborators := demo) 1 handler_Foo_model.

Definition Bar_first : result value * SchemaHandler :=
  createSchema (collaborators := demo) 1 "Bar" number_schema handler_empty.

Definition Bar_second : result value * SchemaHandler :=
  createSchema (collaborators := demo) 1 "Bar" VUndefined (snd Bar_first).

Definition Foo_first : result value * SchemaHandler :=
  createSchema (collaborators := demo) 1 "Foo" number_schema handler_Foo.

Definition Foo_second : result value * SchemaHandler :=
  createSchema (collaborators := demo) 1 "Foo" number_schema (snd Foo_first).

Definition array_converted : value := VObj [("schemas", VArr [number_schema])].

Definition Foo_array : result value * SchemaHandler :=
  createSchema (collaborators := demo_converting (Resolved array_converted))
    1 "Foo" number_schema handler_empty.

Definition Foo_missing : result value * SchemaHandler :=
  createSchema (collaborators := demo_converting (Resolved (VObj [])))
    1 "Foo" number_schema handler_empty.

Definition Foo_rejected : result unit * SchemaHandler :=
  absorb_model (collaborators := demo_converting (Rejected VUndefined))
    1 Foo_model handler_empty.

Definition Foo_once : result unit * SchemaHandler :=
  absorb_model (collaborators := demo) 1 Foo_string_model handler_same_name.

Definition Foo_twice : result unit * SchemaHandler :=
  addModelsToOpenAPI (collaborators := demo) 1 handler_same_name.

Definition Foo_grouped : result value * SchemaHandler :=
  dereferenceAndConvert (collaborators := demo_failing grouped_failure)
    1 number_schema (VStr "Foo") Foo_model handler_empty.

(** * Properties *)

(** ** Own-property lists *)

Lemma obj_get_replace_same (k : string) (v : value) (ps : props) :
  obj_has k ps = true -> obj_get k (obj_replace k v ps) = Some v.
Proof.
  unfold obj_has. induction ps as [|[k' v'] rest IH]; simpl; [discriminate|].
  destruct (k' =? k) eqn:E; simpl; rewrite E; auto.
Qed.

Lemma obj_get_replace_other (k k' : string) (v : value) (ps : props) :
  k' <> k -> obj_get k' (obj_replace k v ps) = obj_get k' ps.
Proof.
  intros Hne. induction ps as [|[k0 v0] rest IH]; simpl; [reflexivity|].
  destruct (k0 =? k) eqn:E; simpl.
  - apply String.eqb_eq in E. subst k0.
    destruct (k =? k') eqn:E'; [apply String.eqb_eq in E'; congruence | reflexivity].
  - destruct (k0 =? k'); auto.
Qed.

Lemma obj_replace_same (k : string) (v : value) (ps : props) :
  obj_get k ps = Some v -> obj_replace k v ps = ps.
Proof.
  induction ps as [|[k' v'] rest IH]; simpl; [reflexivity|].
  destruct (k' =? k) eqn:E; intros H.
  - congruence.
  - f_equal. auto.
Qed.

Lemma obj_get_insert_index_same (n : N) (k : string) (v : value) (ps : props) :
  obj_get k ps = None -> obj_get k (obj_insert_index n k v ps) = Some v.
Proof.
  induction ps as [|[k' v'] rest IH]; simpl.
  - now rewrite String.eqb_refl.
  - destruct (k' =? k) eqn:E; [discriminate|]. intros H.
    destruct (array_index k') as [m|]; [destruct (m <? n)%N|]; simpl;
      rewrite ?E, ?String.eqb_refl; auto.
Qed.

Lemma obj_get_insert_index_other (n : N) (k k' : string) (v : value) (ps : props) :
  k' <> k -> obj_get k' (obj_insert_index n k v ps) = obj_get k' ps.
Proof.
  intros Hne. apply not_eq_sym in Hne. apply String.eqb_neq in Hne.
  induction ps as [|[k0 v0] rest IH]; simpl.
  - now rewrite Hne.
  - destruct (array_index k0) as [m|]; [destruct (m <? n)%N|]; simpl;
      rewrite ?Hne, ?IH; reflexivity.
Qed.

Lemma obj_get_app (k : string) (ps qs : props) :
  obj_get k (ps ++ qs)%list =
  match obj_get k ps with Some v => Some v | None => obj_get k qs end.
Proof.
  induction ps as [|[k' v'] rest IH]; simpl; [reflexivity|].
  destruct (k' =? k); auto.
Qed.

Lemma obj_get_set_same (k : string) (v : value) (ps : props) :
  obj_get k (obj_set k v ps) = Some v.
Proof.
  unfold obj_set. destruct (obj_has k ps) eqn:H.
  - now apply obj_get_replace_same.
  - unfold obj_has in H. destruct (obj_get k ps) eqn:G; [discriminate|].
    destruct (array_index k).
    + now apply obj_get_insert_index_same.
    + rewrite obj_get_app, G. simpl. now rewrite String.eqb_refl.
Qed.

Lemma obj_get_set_other (k k' : string) (v : value) (ps : props) :
  k' <> k -> obj_get k' (obj_set k v ps) = obj_get k' ps.
Proof.
  intros Hne. unfold obj_set. destruct (obj_has k ps).
  - now apply obj_get_replace_other.
  - destruct (array_index k).
    + now apply obj_get_insert_index_other.
    + rewrite obj_get_app. destruct (obj_get k' ps); [reflexivity|].
      simpl. apply not_eq_sym in Hne. apply String.eqb_neq in Hne. now rewrite Hne.
Qed.

Lemma obj_set_same (k : string) (v : value) (ps : props) :
  obj_get k ps = Some v -> obj_set k v ps = ps.
Proof.
  intros H. unfold obj_set, obj_has. rewrite H. now apply obj_replace_same.
Qed.

Lemma obj_set_nil (k : string) (v : value) : obj_set k v [] = [(k, v)].
Proof. unfold obj_set. simpl. now destruct (array_index k). Qed.

Lemma In_obj_get (k : string) (v : value) (ps : props) :
  NoDup (keys ps) -> In (k, v) ps -> obj_get k ps = Some v.
Proof.
  induction ps as [|[k' v'] rest IH]; simpl; [tauto|].
  intros Hnd [H|H].
  - inversion H; subst. now rewrite String.eqb_refl.
  - inversion Hnd as [|? ? Hnot Hnd']; subst.
    destruct (k' =? k) eqn:E.
    + apply String.eqb_eq in E. subst k'. exfalso. apply Hnot.
      change k with (fst (k, v)). now apply in_map.
    + auto.
Qed.

(** ** The registry under [__addToComponents] *)

Lemma registry_shape (doc : value) :
  doc_ok doc = true ->
  match registry doc with
  | VObj _ => True
  | VArr _ | VError _ _ _ => False
  | v => truthy v = false
  end.
Proof.
  unfold registry, opt_get. destruct doc as [| | | | | |d|]; try discriminate.
  simpl. destruct (obj_get "components" d) as [c|]; simpl; [|auto].
  destruct c as [| |b|n|s|l|c|]; simpl; intros H; try discriminate; auto.
  - destruct (obj_get "schemas" c) as [r|]; simpl in *; [|reflexivity].
    destruct r; simpl in *; try discriminate; auto.
    all: now apply negb_true_iff in H.
Qed.

Lemma registered_entry (doc : value) (k : string) :
  doc_ok doc = true ->
  truthy (opt_get (registry doc) k) = truthy (or_undefined (entry doc k)).
Proof.
  intros Hok. apply registry_shape in Hok. unfold entry, schemas_of, opt_get.
  destruct (registry doc) as [| |b|n|s|l|r|]; simpl in *; try reflexivity; try tauto.
  apply negb_false_iff, String.eqb_eq in Hok. subst s. simpl.
  destruct (k =? "length"); [reflexivity|].
  destruct (array_index k) as [n|]; [|reflexivity].
  unfold nth_value. simpl. destruct (n <? 0)%N; [destruct (N.to_nat n)|]; reflexivity.
Qed.

Lemma registry_of_components (d c r : props) :
  obj_get "components" d = Some (VObj c) ->
  obj_get "schemas" c = Some (VObj r) ->
  doc_ok (VObj d) = true /\ registry (VObj d) = VObj r.
Proof.
  intros Hc Hr. unfold registry, opt_get. simpl. rewrite Hc. simpl. rewrite Hr. auto.
Qed.

Lemma obj_has_get (k : string) (v : value) (ps : props) :
  obj_get k ps = Some v -> obj_has k ps = true.
Proof. unfold obj_has. now intros ->. Qed.

Lemma assigned_ok (doc : value) (k : string) (v : value) :
  doc_ok doc = true ->
  exists doc',
    assigned doc "schemas" v k = Ok doc' /\
    doc_ok doc' = true /\
    registry doc' = VObj (obj_set k v (schemas_of doc)).
Proof.
  intros Hok. unfold schemas_of, registry, assigned, opt_get.
  destruct doc as [| | | | | |d|]; try discriminate. simpl in *.
  assert (Hfresh : forall c0, or_undefined (obj_get "components" d) = c0 ->
            truthy c0 = false ->
            exists doc',
              Ok (VObj (obj_set "components" (VObj [("schemas", VObj [(k, v)])]) d)) =
              Ok doc' /\ doc_ok doc' = true /\
              registry doc' = VObj (obj_set k v [])).
  { intros c0 _ _. eexists. split; [reflexivity|]. rewrite obj_set_nil.
    eapply registry_of_components; [apply obj_get_set_same | reflexivity]. }
  destruct (obj_get "components" d) as [c|] eqn:Hc; simpl in *.
  - destruct c as [| |b|n|s|l|c|]; simpl in *; try discriminate;
      try (eapply Hfresh; [reflexivity|]; reflexivity).
    + destruct b; [discriminate|]. simpl. now eapply Hfresh.
    + apply negb_true_iff in Hok. rewrite Hok. now eapply Hfresh.
    + apply negb_true_iff in Hok. rewrite Hok. now eapply Hfresh.
    + destruct (obj_get "schemas" c) as [r|] eqn:Hr; simpl in *.
      * destruct r as [| |b|n|s|l|r|]; simpl in *; try discriminate;
          try apply negb_true_iff in Hok; rewrite ?Hok.
        all: try (eexists; split; [reflexivity|]; rewrite obj_set_nil;
                  eapply registry_of_components;
                  [ apply obj_get_replace_same; eapply obj_has_get; eassumption
                  | apply obj_get_set_same ]).
        eexists; split; [reflexivity|].
        eapply registry_of_components;
          [ apply obj_get_replace_same; eapply obj_has_get; eassumption
          | apply obj_get_replace_same; eapply obj_has_get; eassumption ].
      * eexists; split; [reflexivity|]. rewrite obj_set_nil.
        eapply registry_of_components;
          [ apply obj_get_replace_same; eapply obj_has_get; eassumption
          | apply obj_get_set_same ].
  - now eapply Hfresh.
Qed.

Lemma assigned_same (doc : value) (k : string) (v : value) :
  doc_ok doc = true ->
  entry doc k = Some v ->
  assigned doc "schemas" v k = Ok doc.
Proof.
  intros Hok. unfold entry, schemas_of, registry, assigned, opt_get.
  destruct doc as [| | | | | |d|]; try discriminate. simpl in *.
  destruct (obj_get "components" d) as [c|] eqn:Hc; simpl in *; [|discriminate].
  destruct c as [| |b|n|s|l|c|]; simpl in *; try discriminate.
  destruct (obj_get "schemas" c) as [r|] eqn:Hr; simpl in *; [|discriminate].
  destruct r as [| |b|n|s|l|r|]; simpl in *; try discriminate.
  intros Hk. rewrite (obj_set_same _ _ _ Hk).
  rewrite (obj_replace_same _ _ _ Hr), (obj_replace_same _ _ _ Hc). reflexivity.
Qed.
Lemma entry_assigned_same (doc doc' : value) (k : string) (v : value) :
  doc_ok doc = true ->
  assigned doc "schemas" v k = Ok doc' ->
  doc_ok doc' = true /\ entry doc' k = Some v /\
  forall k', k' <> k -> entry doc' k' = entry doc k'.
Proof.
  intros Hok Ha. destruct (assigned_ok doc k v Hok) as (d & Hd & Hok' & Hr).
  rewrite Ha in Hd. inversion Hd; subst d. split; [assumption|].
  assert (Hs : schemas_of doc' = obj_set k v (schemas_of doc))
    by (unfold schemas_of at 1; now rewrite Hr).
  unfold entry. rewrite Hs. split.
  - apply obj_get_set_same.
  - intros k' Hne. now apply obj_get_set_other.
Qed.

Lemma entry_registry (doc : value) (k : string) (cur : value) :
  entry doc k = Some cur ->
  exists r, registry doc = VObj r /\ obj_get k r = Some cur.
Proof.
  unfold entry, schemas_of. destruct (registry doc); simpl; try discriminate.
  eauto.
Qed.

Lemma set_openAPI_same (h : SchemaHandler) : set_openAPI (openAPI h) h = h.
Proof. now destruct h. Qed.

Section Merge.

Context {collaborators : Collaborators}.

Lemma existsInComponents_eq (h : SchemaHandler) (k : string) :
  doc_ok (openAPI h) = true ->
  existsInComponents k h = (Ok (truthy (or_undefined (entry (openAPI h) k))), h).
Proof.
  intros Hok. unfold existsInComponents, bind, this, ret.
  now rewrite <- registered_entry.
Qed.

Lemma isTheSameSchema_eq (h : SchemaHandler) (k : string) (v cur : value) :
  entry (openAPI h) k = Some cur ->
  isTheSameSchema v k h = (Ok (isEqual v cur), h).
Proof.
  intros He. apply entry_registry in He. destruct He as (r & Hr & Hk).
  unfold isTheSameSchema, bind, this, ret, lift.
  unfold registry, opt_get in Hr. unfold get_prop.
  destruct (nullish (openAPI h)); [discriminate|].
  destruct (nullish (own_prop (openAPI h) "components")); [discriminate|].
  rewrite Hr. simpl. now rewrite Hk.
Qed.

Lemma addToComponents_eq (h : SchemaHandler) (k : string) (v doc' : value) :
  assigned (openAPI h) "schemas" v k = Ok doc' ->
  addToComponents "schemas" v k h = (Ok tt, set_openAPI doc' h).
Proof.
  intros Ha. unfold addToComponents, bind, this, lift, modify. now rewrite Ha.
Qed.

Lemma merge_entry_step (originalName finalName k : string) (v : value)
  (h : SchemaHandler) :
  doc_ok (openAPI h) = true ->
  exists finalName' h',
    merge_entry originalName finalName (k, v) h = (Ok finalName', h') /\
    merge_step originalName finalName k v h finalName' h'.
Proof.
  intros Hok. unfold merge_entry.
  unfold bind at 1. rewrite existsInComponents_eq by assumption.
  destruct (entry (openAPI h) k) as [cur|] eqn:He; simpl.
  - destruct (truthy cur) eqn:Ht.
    + unfold bind at 1. rewrite (isTheSameSchema_eq h k v cur He).
      destruct (isEqual v cur) eqn:Heq; simpl.
      * exists finalName, h. split; [reflexivity|]. now apply step_keep with cur.
      * destruct (k =? originalName) eqn:Hk.
        -- apply String.eqb_eq in Hk.
           assert (Hok' : doc_ok (openAPI (record_call CallUuid h)) = true) by assumption.
           destruct (assigned_ok _ (suffixed k (uuid (drawn h))) v Hok')
             as (doc' & Ha & _).
           exists (suffixed k (uuid (drawn h))), (set_openAPI doc' (record_call CallUuid h)).
           split.
           ++ unfold bind, call_uuid. cbv beta iota.
              rewrite (addToComponents_eq _ _ _ _ Ha). reflexivity.
           ++ now apply step_mint with cur.
        -- apply String.eqb_neq in Hk.
           destruct (assigned_ok _ k v Hok) as (doc' & Ha & _).
           exists finalName, (set_openAPI doc' h). split.
           ++ unfold bind. rewrite (addToComponents_eq _ _ _ _ Ha). reflexivity.
           ++ apply step_put; [right; eauto | assumption].
    + destruct (assigned_ok _ k v Hok) as (doc' & Ha & _).
      exists finalName, (set_openAPI doc' h). split.
      * unfold bind. rewrite (addToComponents_eq _ _ _ _ Ha). reflexivity.
      * apply step_put; [left; rewrite He; assumption | assumption].
  - destruct (assigned_ok _ k v Hok) as (doc' & Ha & _).
    exists finalName, (set_openAPI doc' h). split.
    + unfold bind. rewrite (addToComponents_eq _ _ _ _ Ha). reflexivity.
    + apply step_put; [left; rewrite He; reflexivity | assumption].
Qed.

End Merge.
Lemma length_app (s t : string) :
  String.length (s ++ t) = String.length s + String.length t.
Proof. induction s; simpl; auto. Qed.

Lemma suffixed_neq (name u : string) : suffixed name u <> name.
Proof.
  unfold suffixed. intros H. apply (f_equal String.length) in H.
  rewrite length_app in H. simpl in H. lia.
Qed.

Lemma fold_each_cons {A S : Type} (x : A) (rest : list A) (s : S)
  (body : S -> A -> M S) :
  fold_each (x :: rest) s body = (s' <- body s x ;; fold_each rest s' body).
Proof. reflexivity. Qed.

Section Loop.

Context {collaborators : Collaborators}.

Lemma merge_step_facts (originalName finalName k : string) (v : value)
  (h : SchemaHandler) (finalName' : string) (h' : SchemaHandler) :
  doc_ok (openAPI h) = true ->
  merge_step originalName finalName k v h finalName' h' ->
  doc_ok (openAPI h') = true /\
  same_config h h' /\
  ((finalName' = finalName /\ drawn h' = drawn h /\ calls h' = calls h) \/
   (k = originalName /\ finalName' = suffixed originalName (uuid (drawn h)) /\
    drawn h' = S (drawn h))) /\
  (forall k', k' <> k -> k' <> suffixed originalName (uuid (drawn h)) ->
     entry (openAPI h') k' = entry (openAPI h) k').
Proof.
  intros Hok Hs. unfold same_config.
  destruct Hs as [cur He Ht Heq | cur doc' He Ht Heq Hk Ha | doc' Hc Ha].
  - repeat split; auto.
  - subst k.
    assert (Hok' : doc_ok (openAPI (record_call CallUuid h)) = true) by assumption.
    destruct (entry_assigned_same _ _ _ _ Hok Ha) as (Hd & _ & Hf).
    repeat split; auto.
  - destruct (entry_assigned_same _ _ _ _ Hok Ha) as (Hd & _ & Hf).
    destruct h; repeat split; auto.
Qed.

Lemma loop_spec (originalName : string) (S : props) :
  forall (finalName : string) (h : SchemaHandler),
    doc_ok (openAPI h) = true ->
    exists finalName' h',
      fold_each S finalName (merge_entry originalName) h = (Ok finalName', h') /\
      doc_ok (openAPI h') = true /\
      same_config h h' /\
      drawn h <= drawn h' /\
      ((finalName' = finalName /\ drawn h' = drawn h /\ calls h' = calls h) \/
       (exists i, finalName' = suffixed originalName (uuid i) /\ drawn h < drawn h')) /\
      (~ In originalName (keys S) ->
         finalName' = finalName /\ drawn h' = drawn h /\ calls h' = calls h) /\
      (forall k, ~ In k (keys S) ->
         (forall i, drawn h <= i < drawn h' -> k <> suffixed originalName (uuid i)) ->
         entry (openAPI h') k = entry (openAPI h) k).
Proof.
  induction S as [|[k v] rest IH]; intros finalName h Hok.
  - exists finalName, h. unfold same_config. simpl. unfold ret.
    repeat split; auto.
  - destruct (merge_entry_step originalName finalName k v h Hok)
      as (fin1 & h1 & Hrun & Hstep).
    destruct (merge_step_facts _ _ _ _ _ _ _ Hok Hstep) as (Hok1 & Hcfg1 & Hd1 & Hf1).
    destruct (IH fin1 h1 Hok1) as (fin' & h' & Hrest & Hok' & Hcfg' & Hle & Hd' & Hno & Hf').
    exists fin', h'. rewrite fold_each_cons. unfold bind at 1. rewrite Hrun.
    split; [exact Hrest|]. split; [exact Hok'|].
    assert (Hle1 : drawn h <= drawn h1)
      by (destruct Hd1 as [(_ & -> & _)|(_ & _ & ->)]; lia).
    split.
    { unfold same_config in *. intuition congruence. }
    split; [lia|]. split; [|split].
    + destruct Hd1 as [(-> & Hdr & Hcl)|(_ & -> & Hdr)].
      * destruct Hd' as [(-> & Hdr' & Hcl')|(i & -> & Hlt)].
        -- left. repeat split; congruence.
        -- right. exists i. split; [reflexivity|lia].
      * right. destruct Hd' as [(-> & Hdr' & Hcl')|(i & -> & Hlt)].
        -- exists (drawn h). split; [reflexivity|lia].
        -- exists i. split; [reflexivity|lia].
    + intros Hnot. simpl in Hnot.
      destruct Hd1 as [(-> & Hdr & Hcl)|(Hk & _ & _)]; [|tauto].
      destruct Hno as (-> & Hdr' & Hcl'); [tauto|].
      repeat split; congruence.
    + intros k' Hnot Hfresh. simpl in Hnot.
      rewrite Hf'.
      * destruct Hd1 as [(_ & Hdr & _)|(_ & _ & Hdr)].
        -- destruct Hstep as [cur He Ht Heq | cur doc' He Ht Heq Hk Ha | doc' Hc Ha].
           ++ reflexivity.
           ++ simpl in Hdr. lia.
           ++ destruct (entry_assigned_same _ _ _ _ Hok Ha) as (_ & _ & Hf).
              simpl. apply Hf. intros ->. tauto.
        -- apply Hf1; [intros ->; tauto|]. apply Hfresh. lia.
      * tauto.
      * intros i Hi. apply Hfresh. lia.
Qed.

End Loop.
Lemma same_store_refl (h : SchemaHandler) : same_store h h.
Proof. unfold same_store. tauto. Qed.

Lemma same_store_trans (h1 h2 h3 : SchemaHandler) :
  same_store h1 h2 -> same_store h2 h3 -> same_store h1 h3.
Proof. unfold same_store. intuition congruence. Qed.

Lemma same_store_record (c : call) (h : SchemaHandler) :
  c <> CallUuid -> same_store h (record_call c h).
Proof. unfold same_store. destruct c; simpl; tauto. Qed.

Lemma keeps_ret {A : Type} (a : A) : keeps_store (ret a).
Proof. intros h. apply same_store_refl. Qed.

Lemma keeps_lift {A : Type} (r : result A) : keeps_store (lift r).
Proof. intros h. apply same_store_refl. Qed.

Lemma keeps_throw {A : Type} (e : value) : keeps_store (@throw A e).
Proof. intros h. apply same_store_refl. Qed.

Lemma keeps_abort {A : Type} (r : abort_reason) : keeps_store (@abort A r).
Proof. intros h. apply same_store_refl. Qed.

Lemma keeps_bind {A B : Type} (c : M A) (k : A -> M B) :
  keeps_store c -> (forall a, keeps_store (k a)) -> keeps_store (bind c k).
Proof.
  intros Hc Hk h. unfold bind. specialize (Hc h).
  destruct (c h) as [[a|e|r] h1]; simpl in *; auto.
  eapply same_store_trans; [exact Hc|apply Hk].
Qed.

Lemma keeps_catch {A : Type} (c : M A) (handler : value -> M A) :
  keeps_store c -> (forall e, keeps_store (handler e)) -> keeps_store (catch c handler).
Proof.
  intros Hc Hk h. unfold catch. specialize (Hc h).
  destruct (c h) as [[a|e|r] h1]; simpl in *; auto.
  eapply same_store_trans; [exact Hc|apply Hk].
Qed.

Create HintDb store.

#[local] Hint Resolve keeps_ret keeps_lift keeps_throw keeps_abort : store.

Ltac keeps_step :=
  match goal with
  | |- keeps_store (bind _ _) => apply keeps_bind; [|intros ?]
  | |- keeps_store (catch _ _) => apply keeps_catch; [|intros ?]
  | |- keeps_store (if ?b then _ else _) => destruct b
  | |- keeps_store (let _ := _ in _) => cbv zeta
  | |- keeps_store _ => solve [auto with store]
  end.

Section Conversion.

Context {collaborators : Collaborators}.

Lemma keeps_call_bundle (schema : value) : keeps_store (call_bundle schema).
Proof. intros h. apply same_store_record. discriminate. Qed.

Lemma keeps_call_dereference (schema : value) : keeps_store (call_dereference schema).
Proof. intros h. apply same_store_record. discriminate. Qed.

Lemma keeps_call_convert (schema name : value) : keeps_store (call_convert schema name).
Proof. intros h. apply same_store_record. discriminate. Qed.

#[local] Hint Resolve keeps_call_bundle keeps_call_dereference keeps_call_convert : store.

Lemma keeps_dereferenceSchema (fuel : nat) :
  forall schema, keeps_store (dereferenceSchema fuel schema).
Proof.
  induction fuel as [|fuel IH]; intros schema; simpl.
  - auto with store.
  - repeat keeps_step.
Qed.

Lemma keeps_convert_phase (doc name model : value) :
  keeps_store (convert_phase doc name model).
Proof. unfold convert_phase. repeat keeps_step. Qed.

Lemma keeps_dereferenceAndConvert (fuel : nat) (schema name model : value) :
  keeps_store (dereferenceAndConvert fuel schema name model).
Proof.
  unfold dereferenceAndConvert. repeat keeps_step.
  - apply keeps_dereferenceSchema.
  - apply keeps_convert_phase.
Qed.

End Conversion.
Lemma fold_each_app {A S : Type} (l1 l2 : list A) (body : S -> A -> M S) :
  forall s h, fold_each (l1 ++ l2)%list s body h =
              (s' <- fold_each l1 s body ;; fold_each l2 s' body) h.
Proof.
  induction l1 as [|x l1 IH]; intros s h; simpl.
  - reflexivity.
  - unfold bind in *. destruct (body s x h) as [[s1|e|r] h1]; auto.
Qed.

Lemma keys_app (ps qs : props) : keys (ps ++ qs)%list = (keys ps ++ keys qs)%list.
Proof. unfold keys. apply map_app. Qed.

Lemma split_entry (k : string) (v : value) (S : props) :
  NoDup (keys S) -> In (k, v) S ->
  exists S1 S2, S = (S1 ++ (k, v) :: S2)%list /\
                ~ In k (keys S1) /\ ~ In k (keys S2).
Proof.
  intros Hnd Hin. destruct (in_split _ _ Hin) as (S1 & S2 & ->).
  exists S1, S2. split; [reflexivity|].
  rewrite keys_app in Hnd. simpl in Hnd.
  apply NoDup_remove_2 in Hnd. rewrite in_app_iff in Hnd. tauto.
Qed.

Section Create.

Context {collaborators : Collaborators}.

Lemma createSchema_run (fuel : nat) (name : string) (schema : value)
  (h h1 : SchemaHandler) (converted : value) (S : props) (r : result string)
  (h' : SchemaHandler) :
  schema <> VUndefined ->
  dereferenceAndConvert fuel schema (VStr name) (inline_model name schema) h =
    (Ok converted, h1) ->
  get_prop converted "schemas" = Ok (VObj S) ->
  fold_each S name (merge_entry name) h1 = (r, h') ->
  createSchema fuel name schema h =
    (let? finalName := r in Ok (VStr (REF_PREFIX ++ finalName)), h').
Proof.
  intros Hs Hconv Hget Hloop. unfold createSchema. unfold bind at 1. unfold this.
  replace (match schema with VUndefined => true | _ => false end) with false
    by (destruct schema; congruence).
  rewrite andb_false_r. unfold bind at 1.
  rewrite Hconv. unfold bind at 1. unfold lift at 1. rewrite Hget.
  unfold bind at 1. unfold lift.
  change (js_entries (VObj S)) with (@Ok props S). cbv iota.
  unfold bind. rewrite Hloop. destruct r; reflexivity.
Qed.

End Create.
Section CreateSchema.

Context {collaborators : Collaborators}.

Lemma converted_store (fuel : nat) (schema name model : value)
  (h h1 : SchemaHandler) (r : result value) :
  dereferenceAndConvert fuel schema name model h = (r, h1) -> same_store h h1.
Proof.
  intros H. pose proof (keeps_dereferenceAndConvert fuel schema name model h) as K.
  now rewrite H in K.
Qed.

(** C3.  Collision on the primary entry: when the registry holds a truthy
    value [a] under the requested name and the converted set brings a
    structurally different value [b] under that name, [createSchema] keeps
    [name |-> a], stores [b] under the name suffixed with the identifier it
    draws, and returns the pointer to the suffixed name. *)
Theorem createSchema_collision_on_primary
  (fuel : nat) (name : string) (schema : value) (h h1 : SchemaHandler)
  (converted : value) (S : props) (a b : value) :
  doc_ok (openAPI h) = true ->
  schema <> VUndefined ->
  dereferenceAndConvert fuel schema (VStr name) (inline_model name schema) h =
    (Ok converted, h1) ->
  get_prop converted "schemas" = Ok (VObj S) ->
  NoDup (keys S) ->
  In (name, b) S ->
  entry (openAPI h) name = Some a ->
  truthy a = true ->
  isEqual b a = false ->
  ~ In (suffixed name (uuid (drawn h))) (keys S) ->
  exists h',
    createSchema fuel name schema h =
      (Ok (VStr (REF_PREFIX ++ suffixed name (uuid (drawn h)))), h') /\
    entry (openAPI h') name = Some a /\
    entry (openAPI h') (suffixed name (uuid (drawn h))) = Some b.
Proof.
  intros Hok Hs Hconv Hget Hnd Hin Ha Hta Hneq Hfresh.
  destruct (converted_store _ _ _ _ _ _ _ Hconv) as (_ & _ & Hdoc & _ & _ & _ & Hdr).
  rewrite <- Hdoc in Hok, Ha. rewrite <- Hdr in *. clear Hdoc Hdr.
  destruct (split_entry _ _ _ Hnd Hin) as (S1 & S2 & -> & Hn1 & Hn2).
  rewrite keys_app, in_app_iff in Hfresh. simpl in Hfresh.
  (* the entries before the primary one *)
  destruct (loop_spec name S1 name h1 Hok)
    as (f1 & h2 & Hrun1 & Hok2 & _ & _ & _ & Hno1 & Hfr1).
  destruct (Hno1 Hn1) as (-> & Hdr1 & _).
  assert (Ha2 : entry (openAPI h2) name = Some a).
  { rewrite Hfr1; [assumption|assumption|]. intros i Hi. lia. }
  (* the primary entry *)
  destruct (merge_entry_step name name name b h2 Hok2) as (f2 & h3 & Hrun2 & Hstep).
  destruct Hstep as [cur He Ht Heq | cur doc' He Ht Heq Hk Hasg | doc' Hc Hasg].
  { rewrite Ha2 in He. inversion He; subst cur. congruence. }
  2:{ exfalso. destruct Hc as [Hc|(cur & He & _ & Hk)]; [|congruence].
      rewrite Ha2 in Hc. simpl in Hc. congruence. }
  destruct (entry_assigned_same _ _ _ _ Hok2 Hasg) as (Hok3 & Hb3 & Hfr3).
  rewrite Hdr1 in *.
  set (m := suffixed name (uuid (drawn h1))) in *.
  set (h3 := set_openAPI doc' (record_call CallUuid h2)) in *.
  (* the entries after the primary one *)
  destruct (loop_spec name S2 m h3 Hok3)
    as (f3 & h4 & Hrun3 & _ & _ & _ & _ & Hno3 & Hfr3').
  destruct (Hno3 Hn2) as (-> & Hdr3 & _).
  exists h4. split; [|split].
  - rewrite (createSchema_run _ _ _ _ _ _ _ (Ok m) h4 Hs Hconv Hget); [reflexivity|].
    rewrite fold_each_app. unfold bind at 1. rewrite Hrun1.
    rewrite fold_each_cons. unfold bind at 1. rewrite Hrun2. exact Hrun3.
  - rewrite Hfr3'; [|assumption|intros i Hi; lia].
    simpl. rewrite Hfr3; [assumption|]. apply not_eq_sym, suffixed_neq.
  - rewrite Hfr3'; [|tauto|intros i Hi; lia]. exact Hb3.
Qed.

(** C9.  A falsy registry value counts as absent: when the registry maps [n]
    to a falsy value and the converted set brings [v] under [n], the
    iteration on that entry is the plain insertion (no comparison, no
    identifier drawn), the registry ends with [n |-> v], and when [n] is the
    requested name the pointer to [n] itself is returned. *)
Theorem createSchema_falsy_entry_is_absent
  (fuel : nat) (name : string) (schema : value) (h h1 : SchemaHandler)
  (converted : value) (S : props) (n : string) (v f : value) :
  doc_ok (openAPI h) = true ->
  schema <> VUndefined ->
  dereferenceAndConvert fuel schema (VStr name) (inline_model name schema) h =
    (Ok converted, h1) ->
  get_prop converted "schemas" = Ok (VObj S) ->
  NoDup (keys S) ->
  In (n, v) S ->
  entry (openAPI h) n = Some f ->
  truthy f = false ->
  (forall i, n <> suffixed name (uuid i)) ->
  (forall finalName hx,
      entry (openAPI hx) n = Some f -> doc_ok (openAPI hx) = true ->
      merge_entry name finalName (n, v) hx =
      (addToComponents "schemas" v n ;; ret finalName) hx) /\
  exists ref h',
    createSchema fuel name schema h = (Ok ref, h') /\
    entry (openAPI h') n = Some v /\
    (n = name -> ref = VStr (REF_PREFIX ++ n) /\ drawn h' = drawn h).
Proof.
  intros Hok Hs Hconv Hget Hnd Hin Hf Htf Hfresh. split.
  { intros fin hx Hx Hokx. unfold merge_entry. unfold bind at 1.
    rewrite existsInComponents_eq by assumption. rewrite Hx. simpl. rewrite Htf.
    reflexivity. }
  destruct (converted_store _ _ _ _ _ _ _ Hconv) as (_ & _ & Hdoc & _ & _ & _ & Hdr).
  rewrite <- Hdoc in Hok, Hf. rewrite <- Hdr. clear Hdoc Hdr.
  destruct (split_entry _ _ _ Hnd Hin) as (S1 & S2 & -> & Hn1 & Hn2).
  destruct (loop_spec name S1 name h1 Hok)
    as (f1 & h2 & Hrun1 & Hok2 & _ & _ & _ & Hno1 & Hfr1).
  assert (Hf2 : entry (openAPI h2) n = Some f).
  { rewrite Hfr1; auto. }
  destruct (merge_entry_step name f1 n v h2 Hok2) as (f2 & h3 & Hrun2 & Hstep).
  destruct Hstep as [cur He Ht Heq | cur doc' He Ht Heq Hk Hasg | doc' Hc Hasg];
    try (rewrite Hf2 in He; inversion He; subst cur; congruence).
  destruct (entry_assigned_same _ _ _ _ Hok2 Hasg) as (Hok3 & Hv3 & _).
  set (h3 := set_openAPI doc' h2) in *.
  destruct (loop_spec name S2 f1 h3 Hok3)
    as (f3 & h4 & Hrun3 & _ & _ & _ & _ & Hno3 & Hfr3).
  exists (VStr (REF_PREFIX ++ f3)), h4. split; [|split].
  - rewrite (createSchema_run _ _ _ _ _ _ _ (Ok f3) h4 Hs Hconv Hget); [reflexivity|].
    rewrite fold_each_app. unfold bind at 1. rewrite Hrun1.
    rewrite fold_each_cons. unfold bind at 1. rewrite Hrun2. exact Hrun3.
  - rewrite Hfr3; auto.
  - intros ->. destruct (Hno1 Hn1) as (-> & Hd1 & _).
    destruct (Hno3 Hn2) as (-> & Hd3 & _). split; [reflexivity|].
    rewrite Hd3. simpl. exact Hd1.
Qed.

End CreateSchema.
(** ** Structural equality is reflexive on well-formed values *)

Lemma In_keys_obj_get (k : string) (ps : props) :
  In k (keys ps) -> exists w, obj_get k ps = Some w.
Proof.
  induction ps as [|[k' v'] rest IH]; simpl; [tauto|].
  destruct (k' =? k) eqn:E; [eauto|]. intros [->|Hin]; [|auto].
  now rewrite String.eqb_refl in E.
Qed.

Lemma uniq_keys_NoDup (ps : props) : uniq_keys ps = true -> NoDup (keys ps).
Proof.
  induction ps as [|[k v] rest IH]; simpl; intros H; [constructor|].
  apply andb_true_iff in H. destruct H as (Hk & Hr). constructor; [|auto].
  intros Hin. apply In_keys_obj_get in Hin. destruct Hin as (w & Hw).
  unfold obj_has in Hk. rewrite Hw in Hk. discriminate.
Qed.

Lemma wf_props_In (ps : props) (k : string) (v : value) :
  (fix all (ps : props) : bool :=
     match ps with
     | [] => true
     | (_, x) :: rest => wf_value x && all rest
     end) ps = true ->
  In (k, v) ps -> wf_value v = true.
Proof.
  induction ps as [|[k' v'] rest IH]; simpl; [tauto|].
  intros H [Heq|Hin]; apply andb_true_iff in H; destruct H as (H1 & H2).
  - now inversion Heq; subst.
  - auto.
Qed.

Lemma isEqual_props_refl (ps sub : props) :
  (forall k v, In (k, v) sub -> obj_get k ps = Some v /\ isEqual v v = true) ->
  (fix all (qs : props) : bool :=
     match qs with
     | [] => true
     | (k, v) :: qs' =>
         match obj_get k ps with
         | Some w => isEqual v w
         | None => false
         end && all qs'
     end) sub = true.
Proof.
  induction sub as [|[k v] rest IH]; intros H; [reflexivity|].
  destruct (H k v (or_introl eq_refl)) as (Hg & He). rewrite Hg, He. simpl.
  apply IH. intros k' v' Hin. apply H. now right.
Qed.

Lemma isEqual_refl (v : value) : wf_value v = true -> isEqual v v = true.
Proof.
  induction v as [| | b | n | s | l IH | ps IH | c m ps IHm IH] using value_nested_ind;
    intros Hwf; simpl in *; auto.
  - now destruct b.
  - apply Z.eqb_refl.
  - apply String.eqb_refl.
  - induction l as [|x rest IHl]; [reflexivity|].
    apply andb_true_iff in Hwf. destruct Hwf as (Hx & Hrest).
    inversion IH; subst. rewrite H1 by assumption. simpl. auto.
  - apply andb_true_iff in Hwf. destruct Hwf as (Hu & Hall).
    rewrite Nat.eqb_refl. simpl. apply isEqual_props_refl.
    intros k v Hin. split.
    + apply In_obj_get; [now apply uniq_keys_NoDup|assumption].
    + rewrite Forall_forall in IH. apply (IH (k, v) Hin).
      eapply wf_props_In; eassumption.
  - apply andb_true_iff in Hwf. destruct Hwf as (Hmu & Hall).
    apply andb_true_iff in Hmu. destruct Hmu as (Hm & Hu).
    rewrite String.eqb_refl, IHm, Nat.eqb_refl by assumption. simpl.
    apply isEqual_props_refl.
    intros k v Hin. split.
    + apply In_obj_get; [now apply uniq_keys_NoDup|assumption].
    + rewrite Forall_forall in IH. apply (IH (k, v) Hin).
      eapply wf_props_In; eassumption.
Qed.
(** ** Outcomes that depend on the handler through the options only *)

Lemma reads_ret {A : Type} (a : A) : reads_options (ret a).
Proof. intros h h' _. reflexivity. Qed.

Lemma reads_lift {A : Type} (r : result A) : reads_options (lift r).
Proof. intros h h' _. reflexivity. Qed.

Lemma reads_abort {A : Type} (r : abort_reason) : reads_options (@abort A r).
Proof. intros h h' _. reflexivity. Qed.

Lemma reads_bind {A B : Type} (c : M A) (k : A -> M B) :
  reads_options c -> keeps_store c ->
  (forall a, reads_options (k a)) -> reads_options (bind c k).
Proof.
  intros Hc Kc Hk h h' Ho. unfold bind. specialize (Hc h h' Ho).
  pose proof (Kc h) as (_ & _ & _ & _ & _ & K1 & _).
  pose proof (Kc h') as (_ & _ & _ & _ & _ & K2 & _).
  destruct (c h) as [r1 h1], (c h') as [r2 h2]. simpl in *. subst r2.
  destruct r1; simpl; auto. apply Hk. congruence.
Qed.

Lemma reads_catch {A : Type} (c : M A) (handler : value -> M A) :
  reads_options c -> keeps_store c ->
  (forall e, reads_options (handler e)) -> reads_options (catch c handler).
Proof.
  intros Hc Kc Hk h h' Ho. unfold catch. specialize (Hc h h' Ho).
  pose proof (Kc h) as (_ & _ & _ & _ & _ & K1 & _).
  pose proof (Kc h') as (_ & _ & _ & _ & _ & K2 & _).
  destruct (c h) as [r1 h1], (c h') as [r2 h2]. simpl in *. subst r2.
  destruct r1; simpl; auto. apply Hk. congruence.
Qed.

Create HintDb reads.

#[local] Hint Resolve reads_ret reads_lift reads_abort : reads.
#[local] Hint Resolve keeps_ret keeps_lift keeps_throw keeps_abort : reads.

Ltac reads_step :=
  match goal with
  | |- reads_options (bind _ _) => apply reads_bind; [| |intros ?]
  | |- reads_options (catch _ _) => apply reads_catch; [| |intros ?]
  | |- reads_options (if ?b then _ else _) => destruct b
  | |- keeps_store (bind _ _) => apply keeps_bind; [|intros ?]
  | |- keeps_store (catch _ _) => apply keeps_catch; [|intros ?]
  | |- keeps_store (if ?b then _ else _) => destruct b
  | |- _ => solve [auto with reads store]
  end.

Section Determinism.

Context {collaborators : Collaborators}.

Lemma reads_call_bundle (schema : value) : reads_options (call_bundle schema).
Proof. intros h h' Ho. unfold call_bundle. simpl. now rewrite Ho. Qed.

Lemma reads_call_dereference (schema : value) : reads_options (call_dereference schema).
Proof. intros h h' Ho. unfold call_dereference. simpl. now rewrite Ho. Qed.

Lemma reads_call_convert (schema name : value) : reads_options (call_convert schema name).
Proof. intros h h' Ho. reflexivity. Qed.

#[local] Hint Resolve reads_call_bundle reads_call_dereference reads_call_convert : reads.
#[local] Hint Resolve keeps_call_bundle keeps_call_dereference keeps_call_convert
  keeps_dereferenceSchema keeps_convert_phase : reads.

Lemma reads_dereferenceSchema (fuel : nat) :
  forall schema, reads_options (dereferenceSchema fuel schema).
Proof.
  induction fuel as [|fuel IH]; intros schema; simpl.
  - auto with reads.
  - repeat reads_step.
Qed.

Lemma reads_dereferenceAndConvert (fuel : nat) (schema name model : value) :
  reads_options (dereferenceAndConvert fuel schema name model).
Proof.
  unfold dereferenceAndConvert. repeat reads_step.
  - apply reads_dereferenceSchema.
  - unfold convert_phase. repeat reads_step.
Qed.

End Determinism.
Section Idempotence.

Context {collaborators : Collaborators}.

Lemma loop_noop (originalName : string) (S : props) :
  forall (finalName : string) (h : SchemaHandler),
    doc_ok (openAPI h) = true ->
    (forall k v, In (k, v) S -> settled_in (openAPI h) k v) ->
    fold_each S finalName (merge_entry originalName) h = (Ok finalName, h).
Proof.
  induction S as [|[k v] rest IH]; intros finalName h Hok Hall; [reflexivity|].
  rewrite fold_each_cons. unfold bind.
  assert (Hstep : merge_entry originalName finalName (k, v) h = (Ok finalName, h)).
  { destruct (Hall k v (or_introl eq_refl)) as (cur & He & Ht & Hf).
    unfold merge_entry. unfold bind at 1.
    rewrite existsInComponents_eq by assumption. rewrite He. simpl.
    destruct (truthy cur) eqn:T.
    - unfold bind at 1. rewrite (isTheSameSchema_eq h k v cur He).
      rewrite Ht by reflexivity. reflexivity.
    - specialize (Hf eq_refl). subst cur. unfold bind.
      rewrite (addToComponents_eq h k v (openAPI h)).
      + now rewrite set_openAPI_same.
      + now apply assigned_same. }
  rewrite Hstep. apply IH; [assumption|]. intros k' v' Hin. apply Hall. now right.
Qed.

Lemma loop_settles (originalName : string) (S : props) :
  forall (finalName finalName' : string) (h h' : SchemaHandler),
    wf_entries S ->
    doc_ok (openAPI h) = true ->
    fold_each S finalName (merge_entry originalName) h = (Ok finalName', h') ->
    drawn h' = drawn h ->
    forall k v, In (k, v) S -> settled_in (openAPI h') k v.
Proof.
  induction S as [|[k0 v0] rest IH]; intros fin fin' h h' (Hnd & Hwf) Hok Hrun Hdr k v Hin;
    [destruct Hin|].
  rewrite fold_each_cons in Hrun. unfold bind in Hrun.
  destruct (merge_entry_step originalName fin k0 v0 h Hok) as (f1 & h1 & Hrun1 & Hstep).
  rewrite Hrun1 in Hrun.
  destruct (merge_step_facts _ _ _ _ _ _ _ Hok Hstep) as (Hok1 & _ & Hd1 & _).
  destruct (loop_spec originalName rest f1 h1 Hok1)
    as (f2 & h2 & Hrun2 & _ & _ & Hle & _ & _ & Hfr).
  rewrite Hrun2 in Hrun. inversion Hrun; subst f2 h2. clear Hrun.
  simpl in Hnd. inversion Hnd as [|? ? Hnot Hnd']; subst.
  assert (Hdr1 : drawn h1 = drawn h)
    by (destruct Hd1 as [(_ & -> & _)|(_ & _ & Hx)]; [reflexivity|lia]).
  destruct Hin as [Heq|Hin].
  - inversion Heq; subst k0 v0. unfold settled_in.
    rewrite Hfr; [|assumption|intros i Hi; lia].
    destruct Hstep as [cur He Ht Heq' | cur doc' He Ht Heq' Hk Hasg | doc' Hc Hasg].
    + exists cur. repeat split; auto. congruence.
    + simpl in Hdr1. lia.
    + destruct (entry_assigned_same _ _ _ _ Hok Hasg) as (_ & Hv & _).
      exists v. simpl. repeat split; auto. intros _. apply isEqual_refl.
      apply (Hwf k v). now left.
  - apply (IH f1 fin' h1 h'); auto.
    + split; [assumption|]. intros k' v' Hin'. apply (Hwf k' v'). now right.
    + congruence.
Qed.

End Idempotence.
Section Twice.

Context {collaborators : Collaborators}.

(** C7 (amended).  Equal-value short-circuit: an entry whose value is
    structurally equal to the truthy value registered under its name changes
    nothing; and when a call of [createSchema] returned the pointer to the
    requested name itself (no suffixed name was minted), repeating the call
    with the same name and schema returns the same pointer and leaves
    [this.openAPI] as the first call left it. *)
Theorem createSchema_twice_same_registry
  (fuel : nat) (name : string) (schema : value) (h h1 h' : SchemaHandler)
  (converted : value) (S : props) :
  doc_ok (openAPI h) = true ->
  schema <> VUndefined ->
  dereferenceAndConvert fuel schema (VStr name) (inline_model name schema) h =
    (Ok converted, h1) ->
  get_prop converted "schemas" = Ok (VObj S) ->
  wf_entries S ->
  createSchema fuel name schema h = (Ok (VStr (REF_PREFIX ++ name)), h') ->
  (forall finalName hx k v cur,
      entry (openAPI hx) k = Some cur -> truthy cur = true -> isEqual v cur = true ->
      doc_ok (openAPI hx) = true ->
      merge_entry name finalName (k, v) hx = (Ok finalName, hx)) /\
  exists h'',
    createSchema fuel name schema h' = (Ok (VStr (REF_PREFIX ++ name)), h'') /\
    openAPI h'' = openAPI h'.
Proof.
  intros Hok Hs Hconv Hget Hwf Hfirst. split.
  { intros fin hx k v cur He Ht Heq Hokx.
    assert (Hone : fold_each [(k, v)] fin (merge_entry name) hx = (Ok fin, hx)).
    { apply loop_noop; [assumption|].
      intros k' v' [Hin|[]]. inversion Hin; subst. exists cur. repeat split; auto.
      congruence. }
    rewrite fold_each_cons in Hone. unfold bind in Hone.
    destruct (merge_entry name fin (k, v) hx) as [[f|e|r] hy]; simpl in Hone;
      unfold ret in Hone; congruence. }
  pose proof (converted_store _ _ _ _ _ _ _ Hconv) as (_ & _ & Hdoc & _ & _ & Hopt & Hdr).
  assert (Hok1 : doc_ok (openAPI h1) = true) by congruence.
  destruct (loop_spec name S name h1 Hok1)
    as (f & h2 & Hrun & Hok2 & (_ & _ & _ & _ & Hopt2) & _ & Hdich & _ & _).
  rewrite (createSchema_run _ _ _ _ _ _ _ (Ok f) h2 Hs Hconv Hget Hrun) in Hfirst.
  simpl in Hfirst. inversion Hfirst as [[Hf Hh]]. subst h2.
  subst f.
  assert (Hdr2 : drawn h' = drawn h1).
  { destruct Hdich as [(_ & Hd & _)|(i & Hi & _)]; [assumption|].
    symmetry in Hi. now apply suffixed_neq in Hi. }
  pose proof (loop_settles name S name name h1 h' Hwf Hok1 Hrun Hdr2) as Hset.
  (* the second call converts to the same set *)
  pose proof (reads_dereferenceAndConvert fuel schema (VStr name)
                (inline_model name schema) h h') as Hsame.
  rewrite Hconv in Hsame. simpl in Hsame.
  destruct (dereferenceAndConvert fuel schema (VStr name) (inline_model name schema) h')
    as [r2 h3] eqn:Hconv2.
  simpl in Hsame. rewrite <- Hsame in Hconv2 by congruence.
  pose proof (converted_store _ _ _ _ _ _ _ Hconv2) as (_ & _ & Hdoc3 & _).
  assert (Hloop : fold_each S name (merge_entry name) h3 = (Ok name, h3)).
  { apply loop_noop; rewrite Hdoc3; assumption. }
  exists h3. split; [|assumption].
  now rewrite (createSchema_run _ _ _ _ _ _ _ (Ok name) h3 Hs Hconv2 Hget Hloop).
Qed.

End Twice.
(** ** The model-reference cache *)

Lemma refs_ret {A : Type} (a : A) : keeps_refs (ret a).
Proof. intros h. reflexivity. Qed.

Lemma refs_lift {A : Type} (r : result A) : keeps_refs (lift r).
Proof. intros h. reflexivity. Qed.

Lemma refs_this : keeps_refs this.
Proof. intros h. reflexivity. Qed.

Lemma refs_set_openAPI (doc : value) : keeps_refs (modify (set_openAPI doc)).
Proof. intros h. reflexivity. Qed.

Lemma refs_of_store {A : Type} (c : M A) : keeps_store c -> keeps_refs c.
Proof. intros K h. now destruct (K h) as (_ & _ & _ & Hr & _). Qed.

Lemma refs_bind {A B : Type} (c : M A) (k : A -> M B) :
  keeps_refs c -> (forall a, keeps_refs (k a)) -> keeps_refs (bind c k).
Proof.
  intros Hc Hk h. unfold bind. specialize (Hc h).
  destruct (c h) as [[a|e|r] h1]; simpl in *; auto.
  rewrite Hk. exact Hc.
Qed.

Lemma refs_fold_each {A S : Type} (l : list A) (body : S -> A -> M S) :
  (forall s x, keeps_refs (body s x)) -> forall s, keeps_refs (fold_each l s body).
Proof.
  intros Hb. induction l as [|x rest IH]; intros s; simpl.
  - apply refs_ret.
  - apply refs_bind; auto.
Qed.

Create HintDb refs.

#[local] Hint Resolve refs_ret refs_lift refs_this refs_set_openAPI : refs.

Ltac refs_step :=
  match goal with
  | |- keeps_refs (bind _ _) => apply refs_bind; [|intros ?]
  | |- keeps_refs (if ?b then _ else _) => destruct b
  | |- keeps_refs (let _ := _ in _) => cbv zeta
  | |- keeps_refs _ => solve [auto with refs]
  end.

Section Cache.

Context {collaborators : Collaborators}.

Lemma refs_call_uuid : keeps_refs call_uuid.
Proof. intros h. reflexivity. Qed.

Lemma refs_addToComponents (type : string) (schema : value) (name : string) :
  keeps_refs (addToComponents type schema name).
Proof. unfold addToComponents. repeat refs_step. Qed.

Lemma refs_existsInComponents (name : string) : keeps_refs (existsInComponents name).
Proof. unfold existsInComponents. repeat refs_step. Qed.

Lemma refs_isTheSameSchema (schema : value) (name : string) :
  keeps_refs (isTheSameSchema schema name).
Proof. unfold isTheSameSchema. repeat refs_step. Qed.

#[local] Hint Resolve refs_call_uuid refs_addToComponents refs_existsInComponents
  refs_isTheSameSchema : refs.

Lemma refs_merge_entry (originalName finalName : string) (e : string * value) :
  keeps_refs (merge_entry originalName finalName e).
Proof. unfold merge_entry. destruct e as [k v]. repeat refs_step. Qed.

Lemma refs_createSchema (fuel : nat) (name : string) (schema : value) :
  keeps_refs (createSchema fuel name schema).
Proof.
  unfold createSchema. apply refs_bind; [auto with refs|]. intros h0.
  cbv zeta. repeat refs_step.
  - apply refs_of_store, keeps_dereferenceAndConvert.
  - apply refs_fold_each. intros s x. apply refs_merge_entry.
Qed.

End Cache.
Lemma for_each_cons {A : Type} (x : A) (rest : list A) (body : A -> M unit) :
  for_each (x :: rest) body = (body x ;; for_each rest body).
Proof. reflexivity. Qed.

Lemma strict_eq_str_true (v : value) (s : string) :
  strict_eq_str v s = true <-> v = VStr s.
Proof.
  destruct v; simpl; split; try discriminate.
  - intros H. apply String.eqb_eq in H. now subst.
  - intros H. inversion H. apply String.eqb_refl.
Qed.

Section Bulk.

Context {collaborators : Collaborators}.

Lemma absorb_entry_ok (modelName : value) (k : string) (v : value) (h : SchemaHandler) :
  doc_ok (openAPI h) = true ->
  exists h',
    absorb_entry modelName (k, v) h = (Ok tt, h') /\
    doc_ok (openAPI h') = true /\
    entry (openAPI h') k = Some v /\
    (forall k', k' <> k -> entry (openAPI h') k' = entry (openAPI h) k') /\
    drawn h' = drawn h /\ calls h' = calls h /\
    modelReferences h' =
      (if strict_eq_str modelName k
       then obj_set k (VStr (REF_PREFIX ++ to_str modelName)) (modelReferences h)
       else modelReferences h).
Proof.
  intros Hok. destruct (assigned_ok _ k v Hok) as (doc' & Ha & _).
  destruct (entry_assigned_same _ _ _ _ Hok Ha) as (Hok' & Hv & Hfr).
  unfold absorb_entry.
  destruct (strict_eq_str modelName k).
  - eexists. split.
    + unfold bind, this, modify. cbv beta iota.
      rewrite (addToComponents_eq _ k v doc') by exact Ha. reflexivity.
    + simpl. repeat split; auto.
  - eexists. split.
    + unfold bind, ret. rewrite (addToComponents_eq _ k v doc') by exact Ha. reflexivity.
    + simpl. repeat split; auto.
Qed.

Lemma absorb_entries_ok (modelName : value) (S : props) :
  forall h,
    doc_ok (openAPI h) = true ->
    exists h',
      for_each S (absorb_entry modelName) h = (Ok tt, h') /\
      doc_ok (openAPI h') = true /\
      (NoDup (keys S) -> forall k v, In (k, v) S -> entry (openAPI h') k = Some v) /\
      (forall k, ~ In k (keys S) -> entry (openAPI h') k = entry (openAPI h) k) /\
      drawn h' = drawn h /\ calls h' = calls h /\
      (forall n, modelName = VStr n -> In n (keys S) ->
         obj_get n (modelReferences h') = Some (VStr (REF_PREFIX ++ n))) /\
      (forall n, ~ (modelName = VStr n /\ In n (keys S)) ->
         obj_get n (modelReferences h') = obj_get n (modelReferences h)).
Proof.
  induction S as [|[k v] rest IH]; intros h Hok.
  - exists h. simpl. unfold ret. repeat split; auto; tauto.
  - destruct (absorb_entry_ok modelName k v h Hok)
      as (h1 & Hrun1 & Hok1 & Hv1 & Hfr1 & Hd1 & Hc1 & Hm1).
    destruct (IH h1 Hok1) as (h' & Hrun & Hok' & Hin' & Hfr' & Hd' & Hc' & Hset' & Hkeep').
    exists h'. rewrite for_each_cons. unfold bind at 1. rewrite Hrun1.
    split; [exact Hrun|]. split; [exact Hok'|].
    split; [|split; [|split; [|split; [|split]]]]; try congruence.
    + intros Hnd k' v' [Heq|Hin].
      * inversion Heq; subst. inversion Hnd; subst. rewrite Hfr'; auto.
      * inversion Hnd; subst. auto.
    + intros k' Hnot. simpl in Hnot. rewrite Hfr' by tauto. apply Hfr1.
      intros ->. tauto.
    + intros n Hn Hin. destruct (in_dec string_dec n (keys rest)) as [Hr|Hr].
      * now apply Hset'.
      * rewrite Hkeep' by tauto. rewrite Hm1. simpl in Hin.
        destruct Hin as [->|Hin]; [|tauto]. subst modelName. simpl.
        rewrite String.eqb_refl. apply obj_get_set_same.
    + intros n Hnot. rewrite Hkeep'.
      * rewrite Hm1. destruct (strict_eq_str modelName k) eqn:E; [|reflexivity].
        apply strict_eq_str_true in E. apply obj_get_set_other.
        intros ->. apply Hnot. simpl. auto.
      * intros (Hn & Hin). apply Hnot. simpl. auto.
Qed.

End Bulk.
Lemma get_prop_Ok (v : value) (k : string) (x : value) :
  get_prop v k = Ok x -> nullish v = false /\ x = own_prop v k.
Proof.
  unfold get_prop. destruct (nullish v); [discriminate|]. intros H. now inversion H.
Qed.

Section BulkModel.

Context {collaborators : Collaborators}.

Lemma absorb_model_run (fuel : nat) (model name : value) (h h1 : SchemaHandler)
  (r : result value) :
  get_prop model "name" = Ok name ->
  dereferenceAndConvert fuel (own_prop model "schema") name model h = (r, h1) ->
  absorb_model fuel model h =
    match r with
    | Ok converted => absorb_converted model name converted h1
    | Throw e =>
        if instanceof_Error e then (Throw e, h1)
        else absorb_converted model name e h1
    | Abort a => (Abort a, h1)
    end.
Proof.
  intros Hname Hconv. destruct (get_prop_Ok _ _ _ Hname) as (Hnn & _).
  unfold absorb_model. unfold bind at 1. unfold lift at 1. rewrite Hname.
  unfold bind at 1. unfold lift at 1. unfold get_prop. rewrite Hnn.
  unfold bind at 1. unfold catch. rewrite Hconv.
  destruct r as [c|e|a]; try reflexivity.
  destruct (instanceof_Error e); reflexivity.
Qed.

Lemma absorb_converted_mapping (model name converted : value) (S : props)
  (h : SchemaHandler) :
  get_prop converted "schemas" = Ok (VObj S) ->
  absorb_converted model name converted h = for_each S (absorb_entry name) h.
Proof.
  intros Hget. unfold absorb_converted. unfold bind at 1. unfold lift at 1.
  rewrite Hget. reflexivity.
Qed.

(** What the bulk loop does with the entries of a model (lines 88-98): it
    writes every converted entry under its own name without testing whether
    the name is taken.  After a model whose converted set has no [__proto__]
    key has been absorbed, the registry holds each converted entry under its
    name (whatever was there before is overwritten), every other name is
    left as it was, and no identifier has been drawn. *)
Lemma addModels_overwrites
  (fuel : nat) (model name : value) (h h1 : SchemaHandler)
  (converted : value) (S : props) :
  doc_ok (openAPI h) = true ->
  get_prop model "name" = Ok name ->
  dereferenceAndConvert fuel (own_prop model "schema") name model h =
    (Ok converted, h1) ->
  get_prop converted "schemas" = Ok (VObj S) ->
  NoDup (keys S) ->
  ~ In "__proto__" (keys S) ->
  exists h',
    absorb_model fuel model h = (Ok tt, h') /\
    (forall k v, In (k, v) S -> entry (openAPI h') k = Some v) /\
    (forall k, ~ In k (keys S) -> entry (openAPI h') k = entry (openAPI h) k) /\
    drawn h' = drawn h.
Proof.
  intros Hok Hname Hconv Hget Hnd _.
  destruct (converted_store _ _ _ _ _ _ _ Hconv) as (_ & _ & Hdoc & _ & _ & _ & Hdr).
  assert (Hok1 : doc_ok (openAPI h1) = true) by congruence.
  destruct (absorb_entries_ok name S h1 Hok1)
    as (h' & Hrun & _ & Hin & Hfr & Hd & _).
  exists h'. rewrite (absorb_model_run _ _ _ _ _ _ Hname Hconv).
  rewrite (absorb_converted_mapping _ _ _ _ _ Hget).
  split; [exact Hrun|]. split; [auto|]. split; [|congruence].
  intros k Hk. rewrite Hfr by assumption. now rewrite Hdoc.
Qed.

Lemma absorb_entry_refs (name : value) (k : string) (v : value) (h : SchemaHandler) :
  modelReferences (snd (absorb_entry name (k, v) h)) =
  if strict_eq_str name k
  then obj_set k (VStr (REF_PREFIX ++ to_str name)) (modelReferences h)
  else modelReferences h.
Proof.
  unfold absorb_entry. destruct (strict_eq_str name k).
  - unfold bind at 1. unfold bind at 1. unfold this, modify. cbv beta iota.
    now rewrite (refs_addToComponents "schemas" v k).
  - unfold bind at 1. unfold ret. cbv beta iota.
    now rewrite (refs_addToComponents "schemas" v k).
Qed.

Lemma absorb_entries_keep (n : string) (S : props) :
  forall h,
    obj_get n (modelReferences h) = Some (VStr (REF_PREFIX ++ n)) ->
    obj_get n (modelReferences (snd (for_each S (absorb_entry (VStr n)) h))) =
    Some (VStr (REF_PREFIX ++ n)).
Proof.
  induction S as [|[k v] rest IH]; intros h Hn; [exact Hn|].
  rewrite for_each_cons. unfold bind.
  pose proof (absorb_entry_refs (VStr n) k v h) as Hstep.
  destruct (absorb_entry (VStr n) (k, v) h) as [[[]|e|a] h1]; simpl in Hstep |- *.
  - apply IH. rewrite Hstep. destruct (n =? k) eqn:E; [|exact Hn].
    apply String.eqb_eq in E. subst k. apply obj_get_set_same.
  - rewrite Hstep. destruct (n =? k) eqn:E; [|exact Hn].
    apply String.eqb_eq in E. subst k. apply obj_get_set_same.
  - rewrite Hstep. destruct (n =? k) eqn:E; [|exact Hn].
    apply String.eqb_eq in E. subst k. apply obj_get_set_same.
Qed.

Lemma absorb_entries_cache (n : string) (S : props) :
  forall h h',
    In n (keys S) ->
    for_each S (absorb_entry (VStr n)) h = (Ok tt, h') ->
    obj_get n (modelReferences h') = Some (VStr (REF_PREFIX ++ n)).
Proof.
  induction S as [|[k v] rest IH]; intros h h' Hin Hrun; [destruct Hin|].
  rewrite for_each_cons in Hrun. unfold bind in Hrun.
  pose proof (absorb_entry_refs (VStr n) k v h) as Hstep.
  destruct (absorb_entry (VStr n) (k, v) h) as [[[]|e|a] h1]; try discriminate.
  simpl in Hstep. destruct (n =? k) eqn:E.
  - apply String.eqb_eq in E. subst k.
    pose proof (absorb_entries_keep n rest h1) as Hkeep. rewrite Hrun in Hkeep.
    apply Hkeep. rewrite Hstep. apply obj_get_set_same.
  - destruct Hin as [Hk|Hin]; [simpl in Hk; subst k; now rewrite String.eqb_refl in E|].
    eauto.
Qed.

(** The model-reference cache as the code keeps it: [createSchema] never
    writes it; whenever the cache maps [n] to a truthy value,
    [createSchema(n)] without a schema returns that value and touches
    neither the handler nor any collaborator; the cache entry for a name [n]
    other than [__proto__] is written by the bulk operation, when it absorbs
    a model named [n] whose converted set has an entry [n]. *)
Lemma model_reference_cache :
  (forall fuel name schema h,
      modelReferences (snd (createSchema fuel name schema h)) = modelReferences h) /\
  (forall fuel n p h,
      obj_get n (modelReferences h) = Some p -> truthy p = true ->
      createSchema fuel n VUndefined h = (Ok p, h)) /\
  (forall fuel model n h h1 converted S h',
      get_prop model "name" = Ok (VStr n) ->
      n <> "__proto__" ->
      dereferenceAndConvert fuel (own_prop model "schema") (VStr n) model h =
        (Ok converted, h1) ->
      get_prop converted "schemas" = Ok (VObj S) ->
      In n (keys S) ->
      absorb_model fuel model h = (Ok tt, h') ->
      createSchema fuel n VUndefined h' = (Ok (VStr (REF_PREFIX ++ n)), h')).
Proof.
  split; [|split].
  - intros fuel name schema h. apply refs_createSchema.
  - intros fuel n p h Hp Ht. unfold createSchema, bind, this. rewrite Hp. simpl.
    now rewrite Ht.
  - intros fuel model n h h1 converted S h' Hname _ Hconv Hget Hin Hrun.
    rewrite (absorb_model_run _ _ _ _ _ _ Hname Hconv) in Hrun.
    rewrite (absorb_converted_mapping _ _ _ _ _ Hget) in Hrun.
    pose proof (absorb_entries_cache n S h1 h' Hin Hrun) as Href.
    unfold createSchema, bind, this. rewrite Href. reflexivity.
Qed.

End BulkModel.
Section Shape.

Context {collaborators : Collaborators}.

Lemma absorb_converted_malformed (model name converted : value) (h : SchemaHandler) :
  get_prop model "name" = Ok name ->
  nullish converted = false ->
  own_prop converted "schemas" = VUndefined \/
  isArray (own_prop converted "schemas") = true \/
  own_prop converted "schemas" = VNull \/
  typeof_object (own_prop converted "schemas") = false ->
  absorb_converted model name converted h =
    (Throw (new_Error
       ("There was an error converting the " ++ to_str name ++
        " schema. Model received looks like: " ++ LF ++ LF ++ stringify model ++
        ".  The convereted schema looks like " ++ LF ++ LF ++ stringify converted)),
     h).
Proof.
  intros Hname Hnn Hbad. unfold absorb_converted. unfold bind at 1.
  unfold lift at 1, get_prop at 1. rewrite Hnn.
  assert (Hcheck : typeof_object (own_prop converted "schemas") &&
                   negb (isArray (own_prop converted "schemas")) &&
                   negb (nullish (own_prop converted "schemas")) = false).
  { destruct Hbad as [H|[H|[H|H]]];
      destruct (own_prop converted "schemas"); simpl in *; congruence. }
  rewrite Hcheck. unfold bind, lift, shape_error. rewrite Hname. reflexivity.
Qed.

(** C4 (amended).  In the bulk operation, a converted result whose [schemas]
    is missing, an array, [null] or not an object makes the operation throw
    an [Error] whose message embeds the serialized model and the serialized
    converted result; the registry and the cache are as they were before the
    model was taken up. *)
Theorem addModels_malformed_conversion
  (fuel : nat) (model name converted : value) (h h1 : SchemaHandler) :
  get_prop model "name" = Ok name ->
  dereferenceAndConvert fuel (own_prop model "schema") name model h =
    (Ok converted, h1) ->
  nullish converted = false ->
  own_prop converted "schemas" = VUndefined \/
  isArray (own_prop converted "schemas") = true \/
  own_prop converted "schemas" = VNull \/
  typeof_object (own_prop converted "schemas") = false ->
  absorb_model fuel model h =
    (Throw (new_Error
       ("There was an error converting the " ++ to_str name ++
        " schema. Model received looks like: " ++ LF ++ LF ++ stringify model ++
        ".  The convereted schema looks like " ++ LF ++ LF ++ stringify converted)),
     h1) /\
  openAPI h1 = openAPI h /\
  modelReferences h1 = modelReferences h.
Proof.
  intros Hname Hconv Hnn Hbad.
  destruct (converted_store _ _ _ _ _ _ _ Hconv) as (_ & _ & Hdoc & Hrefs & _).
  rewrite (absorb_model_run _ _ _ _ _ _ Hname Hconv).
  rewrite (absorb_converted_malformed _ _ _ _ Hname Hnn Hbad). auto.
Qed.

(** C10 (amended).  In the bulk operation a rejection of the
    dereference-and-convert step by a value that is not an [Error] is not
    propagated: the value takes the place of the converted result and the
    operation goes on with the shape check.  When the value is neither
    [null] nor [undefined], the operation then either absorbs the value's
    [schemas] (when that is an object) or throws the conversion-shape
    [Error] that embeds the serialized value. *)
Theorem addModels_non_Error_rejection
  (fuel : nat) (model name v : value) (h h1 : SchemaHandler) :
  get_prop model "name" = Ok name ->
  dereferenceAndConvert fuel (own_prop model "schema") name model h = (Throw v, h1) ->
  instanceof_Error v = false ->
  absorb_model fuel model h = absorb_converted model name v h1 /\
  (nullish v = false ->
   doc_ok (openAPI h) = true ->
   match own_prop v "schemas" with
   | VObj _ | VError _ _ _ =>
       exists h', absorb_model fuel model h = (Ok tt, h')
   | _ =>
       absorb_model fuel model h =
         (Throw (new_Error
            ("There was an error converting the " ++ to_str name ++
             " schema. Model received looks like: " ++ LF ++ LF ++ stringify model ++
             ".  The convereted schema looks like " ++ LF ++ LF ++ stringify v)),
          h1)
   end).
Proof.
  intros Hname Hconv Hne.
  rewrite (absorb_model_run _ _ _ _ _ _ Hname Hconv). rewrite Hne.
  split; [reflexivity|]. intros Hnn Hok.
  destruct (converted_store _ _ _ _ _ _ _ Hconv) as (_ & _ & Hdoc & _).
  assert (Hok1 : doc_ok (openAPI h1) = true) by congruence.
  destruct (own_prop v "schemas") as [| |b|n|s|l|es|c m es] eqn:Hs.
  1-6: apply absorb_converted_malformed; auto; rewrite Hs; simpl; tauto.
  - destruct (absorb_entries_ok name es h1 Hok1) as (h' & Hrun & _).
    exists h'. rewrite <- Hrun. apply absorb_converted_mapping.
    unfold get_prop. now rewrite Hnn, Hs.
  - destruct (absorb_entries_ok name es h1 Hok1) as (h' & Hrun & _).
    exists h'. rewrite <- Hrun. unfold absorb_converted. unfold bind at 1.
    unfold lift at 1, get_prop. rewrite Hnn, Hs. reflexivity.
Qed.

End Shape.
Section Classification.

Context {collaborators : Collaborators}.

Lemma HTTPError_message (e model mname : value) (m : string) :
  get_prop model "name" = Ok mname ->
  message_of e = Some m ->
  HTTPError e model =
    if includes "HTTP ERROR" m then
      Throw (new_Error
        ("There was an error dereferencing " ++ to_str mname ++
         " schema.  " ++ LF ++ LF ++ " dereferencing message: " ++ m ++
         " " ++ LF ++ LF ++ " Model received: " ++ stringify model))
    else Ok tt.
Proof.
  intros Hname Hm. unfold message_of in Hm. unfold HTTPError, get_prop at 1.
  destruct (nullish e); [discriminate|].
  destruct (own_prop e "message"); try discriminate. inversion Hm; subst.
  simpl. destruct (includes "HTTP ERROR" m); [|reflexivity]. now rewrite Hname.
Qed.

Lemma HTTPError_messages (subs : list value) (model mname : value) (ms : list string) :
  get_prop model "name" = Ok mname ->
  messages_of subs = Some ms ->
  rfor_each subs (fun err => HTTPError err model) =
    match find (includes "HTTP ERROR") ms with
    | Some m =>
        Throw (new_Error
          ("There was an error dereferencing " ++ to_str mname ++
           " schema.  " ++ LF ++ LF ++ " dereferencing message: " ++ m ++
           " " ++ LF ++ LF ++ " Model received: " ++ stringify model))
    | None => Ok tt
    end.
Proof.
  intros Hname. revert ms. induction subs as [|e rest IH]; intros ms Hms; simpl in *.
  - inversion Hms. reflexivity.
  - destruct (message_of e) as [m|] eqn:Hm; [|discriminate].
    destruct (messages_of rest) as [ms'|]; [|discriminate].
    inversion Hms; subst ms. simpl.
    rewrite (HTTPError_message _ _ _ _ Hname Hm).
    destruct (includes "HTTP ERROR" m); [reflexivity|]. simpl. now apply IH.
Qed.

Lemma checkForHTTPErrorsAndThrow_messages (e model mname : value) (ms : list string) :
  get_prop model "name" = Ok mname ->
  inspected_messages e = Some ms ->
  checkForHTTPErrorsAndThrow e model =
    match find (includes "HTTP ERROR") ms with
    | Some m =>
        Throw (new_Error
          ("There was an error dereferencing " ++ to_str mname ++
           " schema.  " ++ LF ++ LF ++ " dereferencing message: " ++ m ++
           " " ++ LF ++ LF ++ " Model received: " ++ stringify model))
    | None => Ok tt
    end.
Proof.
  intros Hname Hms. unfold inspected_messages in Hms.
  unfold checkForHTTPErrorsAndThrow, get_prop at 1.
  destruct (nullish e) eqn:Hn; [discriminate|]. simpl.
  destruct (truthy (own_prop e "errors")).
  - destruct (own_prop e "errors"); try discriminate. simpl.
    now apply HTTPError_messages.
  - destruct (message_of e) as [m|] eqn:Hm; [|discriminate]. inversion Hms; subst.
    rewrite (HTTPError_message _ _ _ _ Hname Hm). simpl.
    now destruct (includes "HTTP ERROR" m).
Qed.

(** The classification in terms of the messages that are inspected. *)
Lemma classified_by_messages
  (fuel : nat) (schema name model mname e : value) (h h1 : SchemaHandler)
  (ms : list string) :
  get_prop model "name" = Ok mname ->
  dereferenceSchema fuel schema h = (Throw e, h1) ->
  inspected_messages e = Some ms ->
  dereferenceAndConvert fuel schema name model h =
    match find (includes "HTTP ERROR") ms with
    | Some m =>
        (Throw (new_Error
           ("There was an error dereferencing " ++ to_str mname ++
            " schema.  " ++ LF ++ LF ++ " dereferencing message: " ++ m ++
            " " ++ LF ++ LF ++ " Model received: " ++ stringify model)),
         h1)
    | None =>
        if strict_eq_str (own_prop e "message") MISSING_PATH
        then (Throw e, h1)
        else convert_phase schema name model h1
    end.
Proof.
  intros Hname Hfail Hms.
  unfold dereferenceAndConvert. unfold bind at 1. unfold catch. rewrite Hfail.
  assert (Hn : nullish e = false).
  { unfold inspected_messages in Hms. destruct (nullish e); [discriminate|reflexivity]. }
  unfold bind, lift.
  rewrite (checkForHTTPErrorsAndThrow_messages _ _ _ _ Hname Hms).
  destruct (find (includes "HTTP ERROR") ms) as [m|]; [reflexivity|].
  unfold checkForMissingPathAndThrow, get_prop. rewrite Hn. simpl.
  destruct (strict_eq_str (own_prop e "message") MISSING_PATH); reflexivity.
Qed.

(** C5 (amended).  Classification of a resolution failure [e] whose
    [message] is the string [m].
    - When [e] carries no sub-error list ([e.errors] is falsy), [m] decides:
      if it contains "HTTP ERROR", a new [Error] naming the model and
      embedding [m] and the serialized model is thrown; otherwise [e] is
      rethrown when [m] is exactly the missing-document message; otherwise
      [e] is swallowed and the conversion proceeds on the original schema.
    - When [e] carries a list of sub-errors, only their messages are tested
      for "HTTP ERROR", in order, and the first one that contains it is the
      one embedded in the new [Error]; [m] itself is not tested for the
      marker.  When no sub-error has it, [e] is rethrown when [m] is exactly
      the missing-document message and swallowed otherwise. *)
Theorem resolution_failure_classified
  (fuel : nat) (schema name model mname e : value) (h h1 : SchemaHandler)
  (m : string) :
  get_prop model "name" = Ok mname ->
  dereferenceSchema fuel schema h = (Throw e, h1) ->
  nullish e = false ->
  own_prop e "message" = VStr m ->
  (truthy (own_prop e "errors") = false ->
   dereferenceAndConvert fuel schema name model h =
     if includes "HTTP ERROR" m then
       (Throw (new_Error
          ("There was an error dereferencing " ++ to_str mname ++
           " schema.  " ++ LF ++ LF ++ " dereferencing message: " ++ m ++
           " " ++ LF ++ LF ++ " Model received: " ++ stringify model)),
        h1)
     else if m =? MISSING_PATH then (Throw e, h1)
     else convert_phase schema name model h1) /\
  (forall (subs : list value) (ms : list string),
     own_prop e "errors" = VArr subs ->
     messages_of subs = Some ms ->
     dereferenceAndConvert fuel schema name model h =
       match find (includes "HTTP ERROR") ms with
       | Some m' =>
           (Throw (new_Error
              ("There was an error dereferencing " ++ to_str mname ++
               " schema.  " ++ LF ++ LF ++ " dereferencing message: " ++ m' ++
               " " ++ LF ++ LF ++ " Model received: " ++ stringify model)),
            h1)
       | None =>
           if m =? MISSING_PATH then (Throw e, h1)
           else convert_phase schema name model h1
       end).
Proof.
  intros Hname Hfail Hn Hm.
  assert (Hown : message_of e = Some m).
  { unfold message_of. now rewrite Hn, Hm. }
  split.
  - intros Hplain.
    assert (Hms : inspected_messages e = Some [m]).
    { unfold inspected_messages. now rewrite Hn, Hplain, Hown. }
    rewrite (classified_by_messages fuel schema name model mname e h h1 [m]
               Hname Hfail Hms).
    cbn [find]. rewrite Hm. cbn [strict_eq_str].
    destruct (includes "HTTP ERROR" m); reflexivity.
  - intros subs ms Herrs Hsubs.
    assert (Hms : inspected_messages e = Some ms).
    { unfold inspected_messages. rewrite Hn, Herrs. exact Hsubs. }
    rewrite (classified_by_messages fuel schema name model mname e h h1 ms
               Hname Hfail Hms).
    rewrite Hm. reflexivity.
Qed.

End Classification.
Lemma obj_get_remove (k : string) (ps : props) : obj_get k (obj_remove k ps) = None.
Proof.
  induction ps as [|[k' v] rest IH]; simpl; [reflexivity|].
  destruct (k' =? k) eqn:E; [assumption|]. simpl. now rewrite E.
Qed.

Lemma delete_prop_gone (v : value) (k : string) :
  k <> "message" ->
  (exists ps, v = VObj ps) \/ (exists c m ps, v = VError c m ps) ->
  own_prop (delete_prop v k) k = VUndefined.
Proof.
  intros Hk [(ps & ->)|(c & m & ps & ->)]; simpl.
  - now rewrite obj_get_remove.
  - apply String.eqb_neq in Hk. rewrite Hk. now rewrite obj_get_remove.
Qed.

Section Recovery.

Context {collaborators : Collaborators}.

(** C6 (amended).  One recovery pass: when the dereferenced result is a root
    self-reference, the fragment named by the last segment of the bundled
    document's [$ref] is merged onto the result and the root [$ref] is
    deleted; the patched document has no root [$ref]; it is bundled and
    dereferenced again, and when that second result is not a root
    self-reference it is what [__dereferenceSchema] returns, after exactly
    four collaborator calls (so it is the patched document exactly when the
    second pass returns the patched document unchanged). *)
Theorem dereferenceSchema_one_recovery_pass
  (fuel : nat) (schema bundled dereferenced definitions fragment merged
     bundled2 dereferenced2 : value) (ref : string) (h : SchemaHandler) :
  bundle schema (refParserOptions h) = Resolved bundled ->
  dereference bundled (refParserOptions h) = Resolved dereferenced ->
  opt_get dereferenced "$ref" = VStr "#" ->
  get_prop bundled "$ref" = Ok (VStr ref) ->
  get_prop dereferenced "definitions" = Ok definitions ->
  get_prop definitions (last (split "/" ref) "") = Ok fragment ->
  js_assign dereferenced (spread fragment) = Ok merged ->
  bundle (delete_prop merged "$ref") (refParserOptions h) = Resolved bundled2 ->
  dereference bundled2 (refParserOptions h) = Resolved dereferenced2 ->
  strict_eq_str (opt_get dereferenced2 "$ref") "#" = false ->
  dereferenceSchema (S (S fuel)) schema h =
    (Ok dereferenced2,
     record_call (CallDereference bundled2 (refParserOptions h))
       (record_call (CallBundle (delete_prop merged "$ref") (refParserOptions h))
          (record_call (CallDereference bundled (refParserOptions h))
             (record_call (CallBundle schema (refParserOptions h)) h)))) /\
  own_prop (delete_prop merged "$ref") "$ref" = VUndefined.
Proof.
  intros Hb Hd Href Hold Hdefs Hfrag Hmerge Hb2 Hd2 Hstop.
  assert (Hrun : dereferenceSchema (S (S fuel)) schema h =
    (Ok dereferenced2,
     record_call (CallDereference bundled2 (refParserOptions h))
       (record_call (CallBundle (delete_prop merged "$ref") (refParserOptions h))
          (record_call (CallDereference bundled (refParserOptions h))
             (record_call (CallBundle schema (refParserOptions h)) h))))).
  { cbn [dereferenceSchema]. unfold bind at 1. unfold call_bundle at 1. rewrite Hb.
    cbn [of_settled]. unfold bind at 1. unfold call_dereference at 1.
    cbn [refParserOptions record_call]. rewrite Hd. cbn [of_settled].
    rewrite Href. cbn [strict_eq_str]. rewrite String.eqb_refl.
    unfold bind at 1. unfold lift at 1. rewrite Hold.
    unfold bind at 1. unfold lift at 1. cbn [js_split].
    unfold bind at 1. unfold lift at 1. rewrite Hdefs.
    unfold bind at 1. unfold lift at 1. rewrite Hfrag.
    unfold bind at 1. unfold lift at 1. rewrite Hmerge.
    unfold bind at 1. unfold call_bundle at 1. cbn [refParserOptions record_call].
    rewrite Hb2. cbn [of_settled].
    unfold bind at 1. unfold call_dereference at 1. cbn [refParserOptions record_call].
    rewrite Hd2. cbn [of_settled]. rewrite Hstop. reflexivity. }
  split; [exact Hrun|]. clear Hrun.
  apply delete_prop_gone; [discriminate|].
  unfold js_assign in Hmerge. unfold opt_get in Href.
  destruct dereferenced as [| |b|n|s|l|ps|c m ps]; simpl in *; try discriminate.
  - inversion Hmerge. eauto.
  - destruct (assign_error (spread fragment) m ps). inversion Hmerge. eauto.
Qed.

End Recovery.
(** ** The normalizer *)

Lemma standardModel_standard (model model' : value) :
  standard_of model model' -> standardModel model = Ok model'.
Proof.
  intros [m Hn Ht | ps content media mediaType others Hs Hc Hk Hm Hn].
  - unfold standardModel, get_prop. rewrite Hn. simpl. now rewrite Ht.
  - unfold standardModel. simpl. rewrite Hs. rewrite Hc. rewrite Hk. simpl.
    rewrite obj_get_set_other by discriminate. rewrite Hc.
    assert (Hcn : nullish content = false).
    { unfold js_keys, js_entries in Hk. destruct (nullish content); [discriminate|].
      reflexivity. }
    unfold get_prop at 1. rewrite Hcn. simpl. rewrite Hm.
    unfold get_prop. rewrite Hn. reflexivity.
Qed.

Lemma standard_of_not_array (model model' : value) :
  standard_of model model' -> flatten1 model' = [model'].
Proof.
  intros [m Hn Ht | ps content media mediaType others Hs Hc Hk Hm Hn]; [|reflexivity].
  destruct m; try reflexivity. simpl in Ht.
  destruct (array_index "schema") eqn:E; [|discriminate].
  vm_compute in E. discriminate.
Qed.

Lemma rmap_standard (l l' : list value) :
  Forall2 standard_of l l' -> rmap standardModel l = Ok l'.
Proof.
  induction 1 as [|m m' l l' Hm _ IH]; simpl; [reflexivity|].
  rewrite (standardModel_standard _ _ Hm). simpl. now rewrite IH.
Qed.

Lemma map_standardModel_collection (c : value) (l l' : list value) :
  collection c l -> Forall2 standard_of l l' -> map_standardModel c = Ok l'.
Proof.
  intros [c0 Hn | l0] Hall.
  - inversion Hall; subst. destruct c0; try discriminate; reflexivity.
  - simpl. now apply rmap_standard.
Qed.

(** C8 (amended).  The normalized sequence, [this.models] after
    [__standardiseModels], is the documentation's [models] entries, then its
    [modelsList] entries, then the API-gateway entries in the order of the
    gateway keys, each one normalized: an entry with a truthy [schema] is
    passed through unchanged, an entry without one gets the [schema] of the
    first media type of its [content] at top level and that media type as
    [contentType]; an absent collection contributes nothing and raises no
    failure. *)
Theorem standardiseModels_sequence
  (h : SchemaHandler) (ms ms' ls ls' gs' : list value) (ks : list string) :
  collection (opt_get (documentation h) "models") ms ->
  collection (opt_get (documentation h) "modelsList") ls ->
  js_keys (apiGatewayModels h) = Ok ks ->
  Forall2 standard_of ms ms' ->
  Forall2 standard_of ls ls' ->
  Forall2 standard_of (map (own_prop (apiGatewayModels h)) ks) gs' ->
  fst (standardiseModels h) = Ok tt /\
  models (snd (standardiseModels h)) = (ms' ++ ls' ++ gs')%list.
Proof.
  intros Hms Hls Hks Fm Fl Fg.
  cut (standardiseModels h = (Ok tt, set_models (ms' ++ ls' ++ gs')%list h)).
  { intros Hrun. rewrite Hrun. split; reflexivity. }
  unfold standardiseModels. unfold bind at 1. unfold this.
  unfold bind at 1. unfold lift at 1.
  rewrite (map_standardModel_collection _ _ _ Hms Fm).
  unfold bind at 1. unfold lift at 1.
  rewrite (map_standardModel_collection _ _ _ Hls Fl).
  unfold bind at 1. unfold lift at 1. rewrite Hks.
  assert (Hg : rmap (fun key =>
                 let? m := standardModel (own_prop (apiGatewayModels h) key) in
                 Ok (flatten1 m)) ks =
               Ok (map (fun m => [m]) gs')).
  { clear Hks. revert gs' Fg. induction ks as [|k ks IH]; intros gs' Fg; simpl in *.
    - inversion Fg. reflexivity.
    - inversion Fg as [|m m' l l' Hm Hrest]; subst.
      rewrite (standardModel_standard _ _ Hm). simpl.
      rewrite (standard_of_not_array _ _ Hm). now rewrite (IH _ Hrest). }
  unfold bind, lift. cbv zeta. rewrite Hg. unfold modify.
  replace (concat (map (fun m => [m]) gs')) with gs'; [reflexivity|].
  clear. induction gs' as [|g gs IH]; simpl; congruence.
Qed.
(** ** The code at the inputs where it departs from the specification *)

(** C1.  The bulk operation at two models of the same name and of
    structurally different schemas, on an empty document: the first model
    is registered under [Foo]; absorbing the second overwrites that entry,
    no identifier is drawn and no suffixed name is minted, so that the
    registry ends with the one key [Foo] for the two schemas.  The presence
    and equality tests of [createSchema] (lines 131-142) are not made by the
    bulk loop (lines 88-98). *)
Theorem addModels_same_name_overwrites :
  models handler_same_name = [Foo_string_model; Foo_model] /\
  isEqual number_schema string_schema = false /\
  fst Foo_once = Ok tt /\
  entry (openAPI (snd Foo_once)) "Foo" = Some string_schema /\
  fst Foo_twice = Ok tt /\
  entry (openAPI (snd Foo_twice)) "Foo" = Some number_schema /\
  keys (schemas_of (openAPI (snd Foo_twice))) = ["Foo"] /\
  drawn (snd Foo_twice) = 0.
Proof.
  split; [reflexivity|]. split; [reflexivity|].
  split; [reflexivity|]. split; [reflexivity|].
  vm_compute. repeat split; reflexivity.
Qed.

(** The same overwrite when the name is already registered before the
    batch. *)
Lemma addModels_overwrites_registered :
  entry (openAPI handler_Foo_model) "Foo" = Some string_schema /\
  isEqual number_schema string_schema = false /\
  fst Foo_bulk = Ok tt /\
  entry (openAPI (snd Foo_bulk)) "Foo" = Some number_schema /\
  keys (schemas_of (openAPI (snd Foo_bulk))) = ["Foo"] /\
  drawn (snd Foo_bulk) = 0.
Proof. vm_compute. repeat split; reflexivity. Qed.

(** C2.  [createSchema] at a fresh name, then again without a schema:
    the first call completes with the requested name as final name and
    leaves the cache empty (the write of lines 91-95 has no counterpart in
    [createSchema]); the second call is therefore not served from the
    cache: it passes [undefined] to the resolver and rejects. *)
Theorem createSchema_leaves_cache_empty :
  modelReferences handler_empty = [] /\
  fst Bar_first = Ok (VStr "#/components/schemas/Bar") /\
  entry (openAPI (snd Bar_first)) "Bar" = Some number_schema /\
  modelReferences (snd Bar_first) = [] /\
  fst Bar_second = Throw (new_Error MISSING_PATH) /\
  calls (snd Bar_second) =
    (calls (snd Bar_first) ++ [CallBundle VUndefined (VObj [])])%list.
Proof.
  split; [reflexivity|]. split; [reflexivity|].
  vm_compute. repeat split; reflexivity.
Qed.

(** ** Counterexamples to the statements that the code does not satisfy *)

(** C5, as stated, fails: the message of the failure contains "HTTP ERROR",
    but the failure carries a list of sub-errors none of which has the
    marker; nothing is thrown, and the conversion proceeds on the original
    schema. *)
Lemma resolution_failure_counterexample :
  own_prop grouped_failure "message" = VStr "HTTP ERROR 404" /\
  includes "HTTP ERROR" "HTTP ERROR 404" = true /\
  own_prop grouped_failure "errors" = VArr [new_Error "timeout"] /\
  fst (dereferenceSchema (collaborators := demo_failing grouped_failure) 1
         number_schema handler_empty) = Throw grouped_failure /\
  fst Foo_grouped = Ok (VObj [("schemas", VObj [("Foo", number_schema)])]).
Proof. vm_compute. repeat split; reflexivity. Qed.

(** C4, as stated, fails for [createSchema]: an array under [schemas] is
    merged index by index and nothing is thrown; a missing [schemas] makes
    [Object.entries] throw a [TypeError]. *)
Lemma createSchema_malformed_counterexample :
  fst Foo_array = Ok (VStr "#/components/schemas/Foo") /\
  entry (openAPI (snd Foo_array)) "0" = Some number_schema /\
  fst Foo_missing = Throw (TypeError "Cannot convert undefined or null to object").
Proof. vm_compute. repeat split; reflexivity. Qed.

(** C6, as stated, fails: the fragment has no root self-reference, yet what
    is returned is the second pass over the merged document, here with the
    nested reference inlined, not the merged document. *)
Lemma dereferenceSchema_counterexample :
  bundle (Collaborators := demo_nested) nested_doc (VObj []) = Resolved nested_doc /\
  dereference (Collaborators := demo_nested) nested_doc (VObj []) =
    Resolved nested_dereferenced /\
  own_prop nested_dereferenced "$ref" = VStr "#" /\
  own_prop (own_prop nested_definitions "A") "$ref" = VUndefined /\
  delete_prop
    (VObj (assign_props (spread (own_prop nested_definitions "A"))
             [("$ref", VStr "#"); ("definitions", nested_definitions)])) "$ref" =
    nested_patched /\
  forall fuel,
    fst (dereferenceSchema (collaborators := demo_nested) fuel nested_doc handler_empty)
    <> Ok nested_patched.
Proof.
  repeat split; try reflexivity.
  intros [|[|fuel]]; vm_compute; discriminate.
Qed.

(** C7, as stated, fails when the primary entry collides: the second call
    mints a second suffixed entry. *)
Lemma createSchema_twice_counterexample :
  fst Foo_first = Ok (VStr "#/components/schemas/Foo-id0") /\
  fst Foo_second = Ok (VStr "#/components/schemas/Foo-id1") /\
  entry (openAPI (snd Foo_first)) "Foo-id1" = None /\
  entry (openAPI (snd Foo_second)) "Foo-id1" = Some number_schema /\
  openAPI (snd Foo_second) <> openAPI (snd Foo_first).
Proof.
  vm_compute. repeat split; try reflexivity. discriminate.
Qed.

(** C8, as stated, fails: an entry that exposes a falsy [schema] is not
    passed through; without [content] the normalizer throws. *)
Lemma standardModel_counterexample :
  obj_has "schema" [("name", VStr "Never"); ("schema", VBool false)] = true /\
  standardModel Never_model =
    Throw (TypeError "Cannot convert undefined or null to object") /\
  fst (standardiseModels (handler_raw (VObj [("models", VArr [Never_model])]) (VObj []))) =
    Throw (TypeError "Cannot convert undefined or null to object").
Proof. vm_compute. repeat split; reflexivity. Qed.

(** C10, as stated, fails for a rejection with [undefined]: the failure
    surfaces as the [TypeError] of reading [schemas], not as the
    conversion-shape error. *)
Lemma addModels_rejection_counterexample :
  instanceof_Error VUndefined = false /\
  fst (dereferenceAndConvert (collaborators := demo_converting (Rejected VUndefined))
         1 number_schema (VStr "Foo") Foo_model handler_empty) = Throw VUndefined /\
  fst Foo_rejected =
    Throw (TypeError "Cannot read properties of undefined (reading 'schemas')").
Proof. vm_compute. repeat split; reflexivity. Qed.

(** ** The theorems at concrete inputs *)

Lemma createSchema_collision_on_primary_witness :
  exists h',
    createSchema (collaborators := demo) 1 "Foo" number_schema handler_Foo =
      (Ok (VStr "#/components/schemas/Foo-id0"), h') /\
    entry (openAPI h') "Foo" = Some string_schema /\
    entry (openAPI h') "Foo-id0" = Some number_schema.
Proof.
  apply (createSchema_collision_on_primary (collaborators := demo)
           1 "Foo" number_schema handler_Foo
           (snd (dereferenceAndConvert (collaborators := demo) 1 number_schema (VStr "Foo")
                   (inline_model "Foo" number_schema) handler_Foo))
           (VObj [("schemas", VObj [("Foo", number_schema)])])
           [("Foo", number_schema)] string_schema number_schema).
  - reflexivity.
  - discriminate.
  - reflexivity.
  - reflexivity.
  - repeat constructor. simpl. tauto.
  - simpl. tauto.
  - reflexivity.
  - reflexivity.
  - reflexivity.
  - simpl. intros [H|[]]. discriminate H.
Defined.

Lemma createSchema_falsy_entry_is_absent_witness :
  exists ref h',
    createSchema (collaborators := demo) 1 "Foo" number_schema handler_null_Foo =
      (Ok ref, h') /\
    entry (openAPI h') "Foo" = Some number_schema /\
    ("Foo" = "Foo" -> ref = VStr "#/components/schemas/Foo" /\ drawn h' = 0).
Proof.
  apply (createSchema_falsy_entry_is_absent (collaborators := demo)
           1 "Foo" number_schema handler_null_Foo
           (snd (dereferenceAndConvert (collaborators := demo) 1 number_schema (VStr "Foo")
                   (inline_model "Foo" number_schema) handler_null_Foo))
           (VObj [("schemas", VObj [("Foo", number_schema)])])
           [("Foo", number_schema)] "Foo" number_schema VNull).
  - reflexivity.
  - discriminate.
  - reflexivity.
  - reflexivity.
  - repeat constructor. simpl. tauto.
  - simpl. tauto.
  - reflexivity.
  - reflexivity.
  - intros i. apply not_eq_sym, suffixed_neq.
Defined.

Lemma createSchema_twice_same_registry_witness :
  exists h'',
    createSchema (collaborators := demo) 1 "Bar" number_schema
      (snd (createSchema (collaborators := demo) 1 "Bar" number_schema handler_Foo)) =
      (Ok (VStr "#/components/schemas/Bar"), h'') /\
    openAPI h'' =
    openAPI (snd (createSchema (collaborators := demo) 1 "Bar" number_schema handler_Foo)).
Proof.
  apply (createSchema_twice_same_registry (collaborators := demo)
           1 "Bar" number_schema handler_Foo
           (snd (dereferenceAndConvert (collaborators := demo) 1 number_schema (VStr "Bar")
                   (inline_model "Bar" number_schema) handler_Foo))
           (snd (createSchema (collaborators := demo) 1 "Bar" number_schema handler_Foo))
           (VObj [("schemas", VObj [("Bar", number_schema)])])
           [("Bar", number_schema)]).
  - reflexivity.
  - discriminate.
  - reflexivity.
  - reflexivity.
  - split; [repeat constructor; simpl; tauto|].
    intros k v [H|[]]. inversion H. reflexivity.
  - reflexivity.
Defined.

Lemma addModels_overwrites_witness :
  exists h',
    absorb_model (collaborators := demo) 1 Foo_model handler_Foo_model = (Ok tt, h') /\
    (forall k v, In (k, v) [("Foo", number_schema)] -> entry (openAPI h') k = Some v) /\
    (forall k, ~ In k (keys [("Foo", number_schema)]) ->
       entry (openAPI h') k = entry (openAPI handler_Foo_model) k) /\
    drawn h' = 0.
Proof.
  apply (addModels_overwrites (collaborators := demo) 1 Foo_model (VStr "Foo")
           handler_Foo_model
           (snd (dereferenceAndConvert (collaborators := demo) 1 number_schema (VStr "Foo")
                   Foo_model handler_Foo_model))
           (VObj [("schemas", VObj [("Foo", number_schema)])])
           [("Foo", number_schema)]).
  - reflexivity.
  - reflexivity.
  - reflexivity.
  - reflexivity.
  - repeat constructor. simpl. tauto.
  - simpl. intros [H|[]]. discriminate H.
Defined.

Lemma model_reference_cache_witness :
  createSchema (collaborators := demo) 1 "Foo" VUndefined (snd Foo_bulk) =
    (Ok (VStr "#/components/schemas/Foo"), snd Foo_bulk).
Proof.
  apply (proj2 (proj2 (model_reference_cache (collaborators := demo)))
           1 Foo_model "Foo" handler_Foo_model
           (snd (dereferenceAndConvert (collaborators := demo) 1 number_schema (VStr "Foo")
                   Foo_model handler_Foo_model))
           (VObj [("schemas", VObj [("Foo", number_schema)])])
           [("Foo", number_schema)] (snd Foo_bulk)).
  - reflexivity.
  - discriminate.
  - reflexivity.
  - reflexivity.
  - simpl. tauto.
  - reflexivity.
Defined.

Lemma addModels_malformed_conversion_witness :
  absorb_model (collaborators := demo_converting (Resolved array_converted))
    1 Foo_model handler_empty =
    (Throw (new_Error
       ("There was an error converting the Foo schema. Model received looks like: "
        ++ LF ++ LF ++ json Foo_model ++
        ".  The convereted schema looks like " ++ LF ++ LF ++ json array_converted)),
     snd (dereferenceAndConvert (collaborators := demo_converting (Resolved array_converted))
            1 number_schema (VStr "Foo") Foo_model handler_empty)) /\
  openAPI (snd (dereferenceAndConvert
                  (collaborators := demo_converting (Resolved array_converted))
                  1 number_schema (VStr "Foo") Foo_model handler_empty)) =
    openAPI handler_empty /\
  modelReferences (snd (dereferenceAndConvert
                  (collaborators := demo_converting (Resolved array_converted))
                  1 number_schema (VStr "Foo") Foo_model handler_empty)) =
    modelReferences handler_empty.
Proof.
  apply (addModels_malformed_conversion
           (collaborators := demo_converting (Resolved array_converted))
           1 Foo_model (VStr "Foo") array_converted handler_empty).
  - reflexivity.
  - reflexivity.
  - reflexivity.
  - right. left. reflexivity.
Defined.

Lemma addModels_non_Error_rejection_witness :
  absorb_model (collaborators := demo_converting (Rejected (VStr "boom")))
    1 Foo_model handler_empty =
  absorb_converted (collaborators := demo_converting (Rejected (VStr "boom")))
    Foo_model (VStr "Foo") (VStr "boom")
    (snd (dereferenceAndConvert (collaborators := demo_converting (Rejected (VStr "boom")))
            1 number_schema (VStr "Foo") Foo_model handler_empty)) /\
  fst (absorb_model (collaborators := demo_converting (Rejected (VStr "boom")))
         1 Foo_model handler_empty) =
  Throw (new_Error
    ("There was an error converting the Foo schema. Model received looks like: "
     ++ LF ++ LF ++ json Foo_model ++
     ".  The convereted schema looks like " ++ LF ++ LF ++ json (VStr "boom"))).
Proof.
  destruct (addModels_non_Error_rejection
              (collaborators := demo_converting (Rejected (VStr "boom")))
              1 Foo_model (VStr "Foo") (VStr "boom") handler_empty
              (snd (dereferenceAndConvert
                      (collaborators := demo_converting (Rejected (VStr "boom")))
                      1 number_schema (VStr "Foo") Foo_model handler_empty))
              eq_refl eq_refl eq_refl) as [Hsubst Hshape].
  split; [exact Hsubst|].
  specialize (Hshape eq_refl eq_refl). simpl in Hshape. rewrite Hshape. reflexivity.
Defined.

Lemma resolution_failure_classified_witness :
  (* an HTTP failure *)
  fst (dereferenceAndConvert (collaborators := demo_failing (new_Error "HTTP ERROR 404"))
         1 number_schema (VStr "Foo") Foo_model handler_empty) =
    Throw (new_Error
      ("There was an error dereferencing Foo schema.  " ++ LF ++ LF ++
       " dereferencing message: HTTP ERROR 404 " ++ LF ++ LF ++
       " Model received: " ++ json Foo_model)) /\
  (* the missing document *)
  fst (dereferenceAndConvert (collaborators := demo_failing (new_Error MISSING_PATH))
         1 number_schema (VStr "Foo") Foo_model handler_empty) =
    Throw (new_Error MISSING_PATH) /\
  (* any other failure *)
  fst (dereferenceAndConvert (collaborators := demo_failing (new_Error "timeout"))
         1 number_schema (VStr "Foo") Foo_model handler_empty) =
    Ok (VObj [("schemas", VObj [("Foo", number_schema)])]) /\
  (* sub-errors, the second of which is an HTTP failure *)
  fst (dereferenceAndConvert (collaborators := demo_failing grouped_http_failure)
         1 number_schema (VStr "Foo") Foo_model handler_empty) =
    Throw (new_Error
      ("There was an error dereferencing Foo schema.  " ++ LF ++ LF ++
       " dereferencing message: HTTP ERROR 500 " ++ LF ++ LF ++
       " Model received: " ++ json Foo_model)) /\
  (* sub-errors without the marker under an own message that has it *)
  fst (dereferenceAndConvert (collaborators := demo_failing grouped_failure)
         1 number_schema (VStr "Foo") Foo_model handler_empty) =
    Ok (VObj [("schemas", VObj [("Foo", number_schema)])]).
Proof.
  split; [|split; [|split; [|split]]].
  - destruct (resolution_failure_classified
                (collaborators := demo_failing (new_Error "HTTP ERROR 404"))
                1 number_schema (VStr "Foo") Foo_model (VStr "Foo")
                (new_Error "HTTP ERROR 404") handler_empty
                (snd (dereferenceSchema
                        (collaborators := demo_failing (new_Error "HTTP ERROR 404"))
                        1 number_schema handler_empty))
                "HTTP ERROR 404" eq_refl eq_refl eq_refl eq_refl) as (Hplain & _).
    rewrite (Hplain eq_refl). reflexivity.
  - destruct (resolution_failure_classified
                (collaborators := demo_failing (new_Error MISSING_PATH))
                1 number_schema (VStr "Foo") Foo_model (VStr "Foo")
                (new_Error MISSING_PATH) handler_empty
                (snd (dereferenceSchema
                        (collaborators := demo_failing (new_Error MISSING_PATH))
                        1 number_schema handler_empty))
                MISSING_PATH eq_refl eq_refl eq_refl eq_refl) as (Hplain & _).
    rewrite (Hplain eq_refl). reflexivity.
  - destruct (resolution_failure_classified
                (collaborators := demo_failing (new_Error "timeout"))
                1 number_schema (VStr "Foo") Foo_model (VStr "Foo")
                (new_Error "timeout") handler_empty
                (snd (dereferenceSchema
                        (collaborators := demo_failing (new_Error "timeout"))
                        1 number_schema handler_empty))
                "timeout" eq_refl eq_refl eq_refl eq_refl) as (Hplain & _).
    rewrite (Hplain eq_refl). reflexivity.
  - destruct (resolution_failure_classified
                (collaborators := demo_failing grouped_http_failure)
                1 number_schema (VStr "Foo") Foo_model (VStr "Foo")
                grouped_http_failure handler_empty
                (snd (dereferenceSchema
                        (collaborators := demo_failing grouped_http_failure)
                        1 number_schema handler_empty))
                "2 errors occurred" eq_refl eq_refl eq_refl eq_refl) as (_ & Hgroup).
    rewrite (Hgroup [new_Error "timeout"; new_Error "HTTP ERROR 500"]
               ["timeout"; "HTTP ERROR 500"] eq_refl eq_refl).
    reflexivity.
  - destruct (resolution_failure_classified
                (collaborators := demo_failing grouped_failure)
                1 number_schema (VStr "Foo") Foo_model (VStr "Foo")
                grouped_failure handler_empty
                (snd (dereferenceSchema
                        (collaborators := demo_failing grouped_failure)
                        1 number_schema handler_empty))
                "HTTP ERROR 404" eq_refl eq_refl eq_refl eq_refl) as (_ & Hgroup).
    rewrite (Hgroup [new_Error "timeout"] ["timeout"] eq_refl eq_refl).
    reflexivity.
Defined.

Lemma dereferenceSchema_one_recovery_pass_witness :
  dereferenceSchema (collaborators := demo_nested) 2 nested_doc handler_empty =
    (Ok nested_resolved,
     record_call (CallDereference nested_patched (VObj []))
       (record_call (CallBundle nested_patched (VObj []))
          (record_call (CallDereference nested_doc (VObj []))
             (record_call (CallBundle nested_doc (VObj [])) handler_empty)))) /\
  own_prop nested_patched "$ref" = VUndefined.
Proof.
  apply (dereferenceSchema_one_recovery_pass (collaborators := demo_nested)
           0 nested_doc nested_doc nested_dereferenced nested_definitions
           (own_prop nested_definitions "A")
           (VObj (assign_props (spread (own_prop nested_definitions "A"))
                    [("$ref", VStr "#"); ("definitions", nested_definitions)]))
           nested_patched nested_resolved "#/definitions/A" handler_empty).
  all: reflexivity.
Defined.

Lemma standardiseModels_sequence_witness :
  fst (standardiseModels
         (handler_raw (VObj [("models", VArr [User_model])])
                      (VObj [("problem", Problem_model)]))) = Ok tt /\
  models (snd (standardiseModels
                 (handler_raw (VObj [("models", VArr [User_model])])
                              (VObj [("problem", Problem_model)])))) =
    ([User_model] ++ [] ++ [Problem_standard])%list.
Proof.
  apply (standardiseModels_sequence
           (handler_raw (VObj [("models", VArr [User_model])])
                        (VObj [("problem", Problem_model)]))
           [User_model] [User_model] [] [] [Problem_standard] ["problem"]).
  - apply collection_array.
  - apply collection_absent. reflexivity.
  - reflexivity.
  - repeat constructor.
  - constructor.
  - constructor; [|constructor].
    apply (standard_lifted
             [("name", VStr "Problem");
              ("content", VObj [("application/json", VObj [("schema", number_schema)])])]
             (VObj [("application/json", VObj [("schema", number_schema)])])
             (VObj [("schema", number_schema)]) "application/json" []);
      reflexivity.
Defined.

(** ** Scenarios of the specification, evaluated *)

(** A resolution failure with message "HTTP ERROR 404" raises the descriptive
    error that names the model. *)
Example http_error_is_fatal :
  fst (dereferenceAndConvert (collaborators := demo_failing (new_Error "HTTP ERROR 404"))
         1 number_schema (VStr "Foo") Foo_model handler_empty) =
  Throw (new_Error
    ("There was an error dereferencing Foo schema.  " ++ LF ++ LF ++
     " dereferencing message: HTTP ERROR 404 " ++ LF ++ LF ++
     " Model received: " ++ json Foo_model)).
Proof. reflexivity. Qed.

(** A resolution failure with message "timeout" falls back to the original
    document and the conversion proceeds. *)
Example timeout_falls_back :
  fst (dereferenceAndConvert (collaborators := demo_failing (new_Error "timeout"))
         1 number_schema (VStr "Foo") Foo_model handler_empty) =
  Ok (VObj [("schemas", VObj [("Foo", number_schema)])]).
Proof. reflexivity. Qed.

(** A sub-error with the HTTP marker is found in the list of an aggregate
    failure. *)
Example aggregate_http_error_is_fatal :
  fst (dereferenceAndConvert
         (collaborators :=
            demo_failing (VError "Error" (VStr "2 errors occurred")
                            [("errors", VArr [new_Error "ENOENT";
                                              new_Error "HTTP ERROR 500"])]))
         1 number_schema (VStr "Foo") Foo_model handler_empty) =
  Throw (new_Error
    ("There was an error dereferencing Foo schema.  " ++ LF ++ LF ++
     " dereferencing message: HTTP ERROR 500 " ++ LF ++ LF ++
     " Model received: " ++ json Foo_model)).
Proof. reflexivity. Qed.

(** The documentation model [User] on an empty registry: the bulk operation
    registers it under its name and a later [createSchema("User")] without
    schema is served from the cache. *)
Example end_to_end_User :
  fst (addModelsToOpenAPI (collaborators := demo) 1
         (handler_with (VObj []) [] [User_model])) = Ok tt /\
  entry (openAPI (snd (addModelsToOpenAPI (collaborators := demo) 1
                         (handler_with (VObj []) [] [User_model])))) "User" =
    Some string_schema /\
  fst (createSchema (collaborators := demo) 1 "User" VUndefined
         (snd (addModelsToOpenAPI (collaborators := demo) 1
                 (handler_with (VObj []) [] [User_model])))) =
    Ok (VStr "#/components/schemas/User").
Proof. vm_compute. repeat split; reflexivity. Qed.

(** Collision on an auxiliary entry: the registered [Bar] is overwritten and
    the primary [Foo] is inserted. *)
Example collision_on_auxiliary :
  entry (openAPI (snd (createSchema
      (collaborators :=
         demo_converting
           (Resolved (VObj [("schemas", VObj [("Foo", number_schema);
                                              ("Bar", number_schema)])])))
      1 "Foo" number_schema
      (handler_with
         (VObj [("components", VObj [("schemas", VObj [("Bar", string_schema)])])])
         [] [])))) "Bar" = Some number_schema.
Proof. reflexivity. Qed.
(** * Further properties of the handler *)

(** ** The registry primitives *)

Lemma truthy_not_nullish (v : value) : truthy v = true -> nullish v = false.
Proof. destruct v; simpl; congruence. Qed.

Lemma truthy_opt_get (v : value) (k : string) :
  truthy (opt_get v k) = true -> nullish v = false /\ opt_get v k = own_prop v k.
Proof.
  unfold opt_get. destruct (nullish v); [discriminate|]. auto.
Qed.

Lemma assigned_frame (d : props) (k : string) (v : value) :
  doc_ok (VObj d) = true ->
  exists d',
    assigned (VObj d) "schemas" v k = Ok (VObj d') /\
    (forall j, j <> "components" -> obj_get j d' = obj_get j d) /\
    (forall c, obj_get "components" d = Some (VObj c) ->
       exists c', obj_get "components" d' = Some (VObj c') /\
                  forall t, t <> "schemas" -> obj_get t c' = obj_get t c).
Proof.
  intros Hok. unfold assigned, opt_get. simpl in *.
  assert (Hfresh :
    (forall c, obj_get "components" d = Some (VObj c) -> False) ->
    exists d',
      Ok (VObj (obj_set "components" (VObj [("schemas", VObj [(k, v)])]) d)) =
      Ok (VObj d') /\
      (forall j, j <> "components" -> obj_get j d' = obj_get j d) /\
      (forall c, obj_get "components" d = Some (VObj c) ->
         exists c', obj_get "components" d' = Some (VObj c') /\
                    forall t, t <> "schemas" -> obj_get t c' = obj_get t c)).
  { intros Hno. eexists. split; [reflexivity|]. split.
    - intros j Hj. now apply obj_get_set_other.
    - intros c Hc. destruct (Hno c Hc). }
  destruct (obj_get "components" d) as [c|] eqn:Hc; simpl in *;
    [|apply Hfresh; discriminate].
  destruct c as [| |b|n|s|l|c|]; simpl in *; try discriminate;
    try (apply Hfresh; discriminate).
  - destruct b; [discriminate|]. apply Hfresh; discriminate.
  - apply negb_true_iff in Hok. rewrite Hok. apply Hfresh; discriminate.
  - apply negb_true_iff in Hok. rewrite Hok. apply Hfresh; discriminate.
  - assert (Hin : forall r',
      exists d',
        Ok (VObj (obj_replace "components" (VObj r') d)) = Ok (VObj d') /\
        (forall j, j <> "components" -> obj_get j d' = obj_get j d) /\
        (forall c0, Some (VObj c) = Some (VObj c0) ->
           (forall t, t <> "schemas" -> obj_get t r' = obj_get t c) ->
           exists c', obj_get "components" d' = Some (VObj c') /\
                      forall t, t <> "schemas" -> obj_get t c' = obj_get t c0)).
    { intros r'. eexists. split; [reflexivity|]. split.
      - intros j Hj. now apply obj_get_replace_other.
      - intros c0 Heq Hr. inversion Heq; subst c0. exists r'. split; [|assumption].
        apply obj_get_replace_same. eapply obj_has_get; eassumption. }
    destruct (obj_get "schemas" c) as [r|] eqn:Hr; simpl in *.
    + destruct r as [| |b|n|s|l|r|]; simpl in *; try discriminate;
        try apply negb_true_iff in Hok; rewrite ?Hok.
      all: match goal with
           | |- exists _, Ok (VObj (obj_replace "components" (VObj ?r') _)) = _ /\ _ =>
               destruct (Hin r') as (d' & Hd & Hj & Hc');
               exists d'; split; [exact Hd|]; split; [exact Hj|];
               intros c0 Hc0; apply (Hc' c0 Hc0); intros t Ht
           end.
      all: try (now apply obj_get_set_other).
      now apply obj_get_replace_other.
    + destruct (Hin (obj_set "schemas" (VObj [(k, v)]) c)) as (d' & Hd & Hj & Hc').
      exists d'. split; [exact Hd|]. split; [exact Hj|].
      intros c0 Hc0. apply (Hc' c0 Hc0). intros t Ht. now apply obj_get_set_other.
Qed.

Section RegistryPrimitives.

Context {collaborators : Collaborators}.

(** X1.  [__addToComponents] confines its write: on a well-shaped document
    it succeeds, every top-level field of the document other than
    [components] keeps its value, and when [components] was an object every
    component type other than [schemas] keeps its value. *)
Theorem addToComponents_confined (h : SchemaHandler) (d : props) (k : string)
  (v : value) :
  openAPI h = VObj d ->
  doc_ok (VObj d) = true ->
  exists d',
    addToComponents "schemas" v k h = (Ok tt, set_openAPI (VObj d') h) /\
    (forall j, j <> "components" ->
       own_prop (VObj d') j = own_prop (VObj d) j) /\
    (forall c, obj_get "components" d = Some (VObj c) ->
       forall t, t <> "schemas" ->
         own_prop (own_prop (VObj d') "components") t = own_prop (VObj c) t).
Proof.
  intros Hd Hok. destruct (assigned_frame d k v Hok) as (d' & Ha & Hj & Hc).
  exists d'. split; [|split].
  - apply addToComponents_eq. now rewrite Hd.
  - intros j Hne. simpl. now rewrite Hj.
  - intros c Hcomp t Ht. destruct (Hc c Hcomp) as (c' & Hc' & Hframe).
    simpl. rewrite Hc'. simpl. now rewrite Hframe.
Qed.

(** X2.  Guarded comparison: whatever the document is, when
    [__existsInComponents(k)] answers [true] the comparison
    [__isTheSameSchema(v, k)] does not throw, changes nothing and compares
    [v] with the registered value. *)
Theorem isTheSameSchema_after_exists (h : SchemaHandler) (k : string) (v : value) :
  fst (existsInComponents k h) = Ok true ->
  isTheSameSchema v k h =
    (Ok (isEqual v
           (own_prop (own_prop (own_prop (openAPI h) "components") "schemas") k)), h).
Proof.
  unfold existsInComponents, bind, this, ret. simpl. intros H.
  assert (Ht : truthy (opt_get (opt_get (opt_get (openAPI h) "components") "schemas") k)
               = true) by congruence.
  clear H.
  destruct (truthy_opt_get _ _ Ht) as (Hn3 & He3).
  assert (Ht2 : nullish (opt_get (openAPI h) "components") = false).
  { destruct (nullish (opt_get (openAPI h) "components")) eqn:E; [|reflexivity].
    unfold opt_get at 1 in Hn3. rewrite E in Hn3. discriminate. }
  assert (Hn1 : nullish (openAPI h) = false).
  { destruct (nullish (openAPI h)) eqn:E; [|reflexivity].
    unfold opt_get in Ht2. rewrite E in Ht2. discriminate. }
  unfold isTheSameSchema, bind, this, ret, lift, get_prop.
  rewrite Hn1. unfold opt_get in Ht2, Hn3. rewrite Hn1 in Ht2, Hn3.
  cbn [rbind]. rewrite Ht2 in Hn3 |- *. cbn [rbind]. rewrite Hn3. reflexivity.
Qed.


End RegistryPrimitives.
Lemma obj_get_None_keys (k : string) (ps : props) :
  ~ In k (keys ps) -> obj_get k ps = None.
Proof.
  induction ps as [|[k' v'] rest IH]; simpl; [reflexivity|].
  intros H. destruct (k' =? k) eqn:E.
  - apply String.eqb_eq in E. tauto.
  - apply IH. tauto.
Qed.


(** ** The resolver *)

Lemma assign_props_get (src ps : props) (k : string) :
  NoDup (keys src) ->
  obj_get k (assign_props src ps) =
  match obj_get k src with
  | Some v => Some v
  | None => obj_get k ps
  end.
Proof.
  revert ps. induction src as [|[k' v'] rest IH]; intros ps Hnd; simpl; [reflexivity|].
  inversion Hnd as [|? ? Hnot Hnd']; subst. rewrite IH by assumption.
  destruct (k' =? k) eqn:E.
  - apply String.eqb_eq in E. subst k'.
    rewrite (obj_get_None_keys k rest Hnot). apply obj_get_set_same.
  - destruct (obj_get k rest); [reflexivity|].
    apply obj_get_set_other. intros ->. now rewrite String.eqb_refl in E.
Qed.

Section Resolver.

Context {collaborators : Collaborators}.

(** X4.  What [__dereferenceSchema] returns is never a root self-reference:
    a fulfilled result has no [$ref === "#"] at its root. *)
Theorem dereferenceSchema_result_resolved (fuel : nat) :
  forall (schema d : value) (h h' : SchemaHandler),
    dereferenceSchema fuel schema h = (Ok d, h') ->
    strict_eq_str (opt_get d "$ref") "#" = false.
Proof.
  induction fuel as [|fuel IH]; intros schema d h h' Hrun; [discriminate|].
  cbn [dereferenceSchema] in Hrun. unfold bind at 1 in Hrun.
  destruct (call_bundle schema h) as [[b|e|a] h1]; try discriminate.
  unfold bind at 1 in Hrun.
  destruct (call_dereference b h1) as [[d1|e|a] h2]; try discriminate.
  destruct (strict_eq_str (opt_get d1 "$ref") "#") eqn:Hself.
  - unfold bind at 1 in Hrun. unfold lift at 1 in Hrun.
    destruct (get_prop b "$ref") as [oldRef| |]; try discriminate.
    unfold bind at 1 in Hrun. unfold lift at 1 in Hrun.
    destruct (js_split oldRef "/") as [path| |]; try discriminate.
    unfold bind at 1 in Hrun. unfold lift at 1 in Hrun.
    destruct (get_prop d1 "definitions") as [defs| |]; try discriminate.
    unfold bind at 1 in Hrun. unfold lift at 1 in Hrun.
    destruct (get_prop defs (last path "")) as [frag| |]; try discriminate.
    unfold bind at 1 in Hrun. unfold lift at 1 in Hrun.
    destruct (js_assign d1 (spread frag)) as [merged| |]; try discriminate.
    eapply IH. exact Hrun.
  - unfold ret in Hrun. inversion Hrun; subst. exact Hself.
Qed.

(** X5.  The recursion has no bound of its own: with collaborators that
    answer every document with a root self-reference that can be patched,
    [__dereferenceSchema] never returns, whatever the fuel. *)
Theorem dereferenceSchema_unbounded :
  (forall s o, exists b d ref defs frag merged,
      bundle s o = Resolved b /\
      dereference b o = Resolved d /\
      opt_get d "$ref" = VStr "#" /\
      get_prop b "$ref" = Ok (VStr ref) /\
      get_prop d "definitions" = Ok defs /\
      get_prop defs (last (split "/" ref) "") = Ok frag /\
      js_assign d (spread frag) = Ok merged) ->
  forall fuel schema h,
    fst (dereferenceSchema fuel schema h) = Abort OutOfFuel.
Proof.
  intros Hstuck fuel. induction fuel as [|fuel IH]; intros schema h; [reflexivity|].
  destruct (Hstuck schema (refParserOptions h))
    as (b & d & ref & defs & frag & merged & Hb & Hd & Href & Hold & Hdefs & Hfrag & Hm).
  cbn [dereferenceSchema]. unfold bind at 1. unfold call_bundle at 1. rewrite Hb.
  cbn [of_settled]. unfold bind at 1. unfold call_dereference at 1.
  cbn [refParserOptions record_call]. rewrite Hd. cbn [of_settled].
  rewrite Href. cbn [strict_eq_str]. rewrite String.eqb_refl.
  unfold bind at 1. unfold lift at 1. rewrite Hold.
  unfold bind at 1. unfold lift at 1. cbn [js_split].
  unfold bind at 1. unfold lift at 1. rewrite Hdefs.
  unfold bind at 1. unfold lift at 1. rewrite Hfrag.
  unfold bind at 1. unfold lift at 1. rewrite Hm.
  apply IH.
Qed.

(** The outcome of [__dereferenceSchema] does not depend on the fuel
    once the fuel suffices: when a run does not exhaust its fuel, a run with
    more fuel has the same outcome and leaves the same handler. *)
Theorem dereferenceSchema_fuel (fuel : nat) :
  forall (schema : value) (h : SchemaHandler) (extra : nat),
    fst (dereferenceSchema fuel schema h) <> Abort OutOfFuel ->
    dereferenceSchema (fuel + extra) schema h = dereferenceSchema fuel schema h.
Proof.
  induction fuel as [|fuel IH]; intros schema h extra Hrun; [now destruct Hrun|].
  cbn [Nat.add dereferenceSchema] in *. unfold bind, lift in *.
  destruct (call_bundle schema h) as [[b|e|a] h1]; try reflexivity.
  destruct (call_dereference b h1) as [[d1|e|a] h2]; try reflexivity.
  destruct (strict_eq_str (opt_get d1 "$ref") "#"); [|reflexivity].
  destruct (get_prop b "$ref") as [oldRef| |]; try reflexivity.
  destruct (js_split oldRef "/") as [path| |]; try reflexivity.
  destruct (get_prop d1 "definitions") as [defs| |]; try reflexivity.
  destruct (get_prop defs (last path "")) as [frag| |]; try reflexivity.
  destruct (js_assign d1 (spread frag)) as [merged| |]; try reflexivity.
  now apply IH.
Qed.


(** X7.  Resolving and converting a model writes neither the registry nor
    the cache and draws no identifier: whether it fulfils or rejects, the
    handler's document and cache are as before and no identifier has been
    drawn.  (What the parser does in place to the schema it is given is the
    parser's; nothing is said here of the model list, which holds that
    schema.) *)
Theorem conversion_leaves_store
  (fuel : nat) (schema name model : value) (h : SchemaHandler) :
  openAPI (snd (dereferenceAndConvert fuel schema name model h)) = openAPI h /\
  modelReferences (snd (dereferenceAndConvert fuel schema name model h)) =
    modelReferences h /\
  drawn (snd (dereferenceAndConvert fuel schema name model h)) = drawn h.
Proof.
  destruct (keeps_dereferenceAndConvert fuel schema name model h)
    as (_ & _ & Hdoc & Hrefs & _ & _ & Hdrawn).
  auto.
Qed.

End Resolver.
(** ** Vendor extensions *)

Lemma obj_replace_replace (k : string) (v w : value) (ps : props) :
  obj_replace k w (obj_replace k v ps) = obj_replace k w ps.
Proof.
  induction ps as [|[k' v'] rest IH]; simpl; [reflexivity|].
  destruct (k' =? k) eqn:E; simpl; rewrite E; [reflexivity|]. now rewrite IH.
Qed.

Lemma overlay_skipped (name converted : value) (entries : props) :
  (forall k v, In (k, v) entries ->
     startsWith "x-" k = false \/
     exists schemas, get_prop converted "schemas" = Ok schemas /\
                     truthy (opt_get schemas (to_str name)) = false) ->
  overlay name converted entries = Ok converted.
Proof.
  induction entries as [|[k v] rest IH]; intros Hall; [reflexivity|].
  cbn [overlay]. unfold overlay_entry.
  destruct (Hall k v (or_introl eq_refl)) as [Hx|(schemas & Hs & Ht)].
  - rewrite Hx. cbn [rbind]. apply IH. intros k' v' Hin. apply (Hall k' v'). now right.
  - destruct (startsWith "x-" k).
    + rewrite Hs. cbn [rbind]. rewrite Ht. cbn [rbind].
      apply IH. intros k' v' Hin. apply (Hall k' v'). now right.
    + cbn [rbind]. apply IH. intros k' v' Hin. apply (Hall k' v'). now right.
Qed.

Lemma overlay_object (name : value) (cp sp : props) (entries : props) :
  obj_get "schemas" cp = Some (VObj sp) ->
  obj_has (to_str name) sp = true ->
  forall p,
    overlay name
      (VObj (obj_replace "schemas"
               (VObj (obj_replace (to_str name) (VObj p) sp)) cp)) entries =
    Ok (VObj (obj_replace "schemas"
                (VObj (obj_replace (to_str name)
                         (VObj (assign_props
                                  (filter (fun kv => startsWith "x-" (fst kv)) entries) p))
                         sp)) cp)).
Proof.
  intros Hs Hp. induction entries as [|[k v] rest IH]; intros p; [reflexivity|].
  cbn [overlay filter fst]. unfold overlay_entry.
  destruct (startsWith "x-" k) eqn:Hx.
  - unfold get_prop. cbn [nullish own_prop].
    rewrite (obj_get_replace_same "schemas" _ cp (obj_has_get _ _ _ Hs)).
    cbn [or_undefined rbind]. unfold opt_get. cbn [nullish own_prop].
    rewrite (obj_get_replace_same (to_str name) _ sp Hp).
    cbn [or_undefined truthy put_prop rbind with_prop].
    rewrite !obj_replace_replace. cbn [assign_props]. apply IH.
  - cbn [rbind]. apply IH.
Qed.

Section Extensions.

Context {collaborators : Collaborators}.

(** X8.  No extension, no overlay: for a model none of whose keys starts
    with [x-] (the [{ name, schema }] of [createSchema] is one), the result
    of the convert step is what the converter returned or threw. *)
Theorem convert_phase_without_extensions
  (doc name model : value) (h : SchemaHandler) :
  nullish model = false ->
  (forall k v, In (k, v) (own_entries model) -> startsWith "x-" k = false) ->
  convert_phase doc name model h =
    (of_settled (convert doc name), record_call (CallConvert doc name) h).
Proof.
  intros Hnn Hno. unfold convert_phase, bind, call_convert, lift, js_entries.
  rewrite Hnn. destruct (convert doc name) as [c|e]; cbn [of_settled]; [|reflexivity].
  rewrite overlay_skipped; [reflexivity|]. intros k v Hin. left. eauto.
Qed.

(** X9.  Extensions without a primary entry are dropped: when the converted
    set has no truthy entry under the model's name, the converted result is
    returned as the converter made it, whatever [x-] keys the model has. *)
Theorem convert_phase_without_primary
  (doc name model converted schemas : value) (h : SchemaHandler) :
  nullish model = false ->
  convert doc name = Resolved converted ->
  get_prop converted "schemas" = Ok schemas ->
  truthy (opt_get schemas (to_str name)) = false ->
  convert_phase doc name model h =
    (Ok converted, record_call (CallConvert doc name) h).
Proof.
  intros Hnn Hc Hs Ht. unfold convert_phase, bind, call_convert, lift, js_entries.
  rewrite Hnn, Hc. cbn [of_settled].
  rewrite overlay_skipped; [reflexivity|]. intros k v Hin. right. eauto.
Qed.

(** X10.  Extensions onto an object: when the converted set holds an object
    under the model's name, that entry ends with every [x-] key of the model
    bound to the model's value (overriding a key the converter produced) and
    with its other keys as converted; the other entries of the set are as
    converted. *)
Theorem convert_phase_overlays_extensions
  (doc name model : value) (cp sp p : props) (h : SchemaHandler) :
  nullish model = false ->
  NoDup (keys (own_entries model)) ->
  convert doc name = Resolved (VObj cp) ->
  obj_get "schemas" cp = Some (VObj sp) ->
  obj_get (to_str name) sp = Some (VObj p) ->
  exists cp' sp' p',
    convert_phase doc name model h =
      (Ok (VObj cp'), record_call (CallConvert doc name) h) /\
    obj_get "schemas" cp' = Some (VObj sp') /\
    obj_get (to_str name) sp' = Some (VObj p') /\
    (forall k v, In (k, v) (own_entries model) -> startsWith "x-" k = true ->
       obj_get k p' = Some v) /\
    (forall k, startsWith "x-" k = false -> obj_get k p' = obj_get k p) /\
    (forall n, n <> to_str name -> obj_get n sp' = obj_get n sp) /\
    (forall j, j <> "schemas" -> obj_get j cp' = obj_get j cp).
Proof.
  intros Hnn Hnd Hc Hs Hp.
  set (xs := filter (fun kv => startsWith "x-" (fst kv)) (own_entries model)).
  exists (obj_replace "schemas"
            (VObj (obj_replace (to_str name) (VObj (assign_props xs p)) sp)) cp),
         (obj_replace (to_str name) (VObj (assign_props xs p)) sp),
         (assign_props xs p).
  assert (Hndx : NoDup (keys xs)).
  { unfold xs. clear -Hnd. induction (own_entries model) as [|[k v] rest IH];
      simpl in *; [constructor|].
    inversion Hnd as [|? ? Hnot Hnd']; subst.
    destruct (startsWith "x-" k); simpl; [|auto].
    constructor; [|auto]. intros Hin. apply Hnot.
    clear -Hin. induction rest as [|[k' v'] rest IH]; simpl in *; [assumption|].
    destruct (startsWith "x-" k'); simpl in *; tauto. }
  split; [|split; [|split; [|split; [|split; [|split]]]]].
  - unfold convert_phase, bind, call_convert, lift, js_entries.
    rewrite Hnn, Hc. cbn [of_settled].
    pose proof (overlay_object name cp sp (own_entries model) Hs
                  (obj_has_get _ _ _ Hp) p) as Ho.
    rewrite (obj_replace_same _ _ _ Hp) in Ho.
    rewrite (obj_replace_same _ _ _ Hs) in Ho. fold xs in Ho. now rewrite Ho.
  - apply obj_get_replace_same. eapply obj_has_get; eassumption.
  - apply obj_get_replace_same. eapply obj_has_get; eassumption.
  - intros k v Hin Hx. rewrite assign_props_get by assumption.
    rewrite (In_obj_get k v xs Hndx); [reflexivity|].
    unfold xs. apply filter_In. split; [assumption|exact Hx].
  - intros k Hx. rewrite assign_props_get by assumption.
    rewrite obj_get_None_keys; [reflexivity|].
    intros Hin. unfold xs, keys in Hin. apply in_map_iff in Hin.
    destruct Hin as ([k' v'] & Hk & Hin). simpl in Hk. subst k'.
    apply filter_In in Hin. simpl in Hin. destruct Hin as (_ & Hx'). congruence.
  - intros n Hn. now apply obj_get_replace_other.
  - intros j Hj. now apply obj_get_replace_other.
Qed.

End Extensions.
(** ** More on the normalizer *)

Lemma put_prop_Ok (t : value) (k : string) (v t' : value) :
  put_prop t k v = Ok t' ->
  own_prop t' k = v /\
  (forall k', k' <> k -> own_prop t' k' = own_prop t k') /\
  put_prop t' k v = Ok t' /\
  nullish t' = false /\
  isArray t' = false.
Proof.
  destruct t as [| |b|n|s|l|ps|c m ps]; simpl; try discriminate.
  - intros H. inversion H; subst t'. simpl.
    rewrite obj_get_set_same. repeat split; auto.
    + intros k' Hne. now rewrite obj_get_set_other.
    + now rewrite (obj_set_same k v _ (obj_get_set_same k v ps)).
  - destruct (k =? "message") eqn:E; intros H; inversion H; subst t'; simpl; rewrite E.
    + apply String.eqb_eq in E. subst k. repeat split; auto.
      intros k' Hne. apply String.eqb_neq in Hne. now rewrite Hne.
    + rewrite obj_get_set_same. repeat split; auto.
      * intros k' Hne. destruct (k' =? "message"); [reflexivity|].
        now rewrite obj_get_set_other.
      * now rewrite (obj_set_same k v _ (obj_get_set_same k v ps)).
Qed.

Lemma put_put_noop (t : value) (k1 k2 : string) (v1 v2 t1 t2 : value) :
  k1 <> k2 ->
  put_prop t k1 v1 = Ok t1 ->
  put_prop t1 k2 v2 = Ok t2 ->
  put_prop t2 k1 v1 = Ok t2.
Proof.
  intros Hne. destruct t as [| |b|n|s|l|ps|c m ps]; simpl; try discriminate.
  - intros H1. inversion H1; subst t1. simpl. intros H2. inversion H2; subst t2.
    simpl. f_equal. f_equal. apply obj_set_same.
    rewrite obj_get_set_other by assumption. apply obj_get_set_same.
  - destruct (k1 =? "message") eqn:E1; intros H1; inversion H1; subst t1; simpl;
      destruct (k2 =? "message") eqn:E2; intros H2; inversion H2; subst t2; simpl;
      rewrite E1.
    + apply String.eqb_eq in E1, E2. congruence.
    + reflexivity.
    + f_equal. f_equal. apply obj_set_same. apply obj_get_set_same.
    + f_equal. f_equal. apply obj_set_same.
      rewrite obj_get_set_other by assumption. apply obj_get_set_same.
Qed.

Lemma standardModel_cases (model model' : value) :
  standardModel model = Ok model' ->
  (model' = model /\ nullish model = false /\
   truthy (own_prop model "schema") = true) \/
  (exists ks mediaType model1,
      nullish model = false /\
      truthy (own_prop model "schema") = false /\
      js_keys (own_prop model "content") = Ok ks /\
      mediaType = match ks with k :: _ => VStr k | [] => VUndefined end /\
      put_prop model "contentType" mediaType = Ok model1 /\
      nullish (own_prop (own_prop model1 "content") (to_str mediaType)) = false /\
      put_prop model1 "schema"
        (own_prop (own_prop (own_prop model1 "content") (to_str mediaType)) "schema") =
        Ok model').
Proof.
  unfold standardModel, get_prop at 1.
  destruct (nullish model) eqn:Hn; [discriminate|]. cbn [rbind].
  destruct (truthy (own_prop model "schema")) eqn:Ht.
  - intros H. inversion H. auto.
  - unfold get_prop at 1. rewrite Hn. cbn [rbind].
    destruct (js_keys (own_prop model "content")) as [ks| |] eqn:Hk; try discriminate.
    cbn [rbind].
    destruct (put_prop model "contentType"
                (match ks with k :: _ => VStr k | [] => VUndefined end))
      as [model1| |] eqn:Hp; try discriminate.
    cbn [rbind]. destruct (put_prop_Ok _ _ _ _ Hp) as (_ & _ & _ & Hn1 & _).
    unfold get_prop at 1. rewrite Hn1. cbn [rbind].
    unfold get_prop at 1.
    destruct (nullish (own_prop model1 "content")) eqn:Hc; [discriminate|]. cbn [rbind].
    unfold get_prop at 1.
    destruct (nullish (own_prop (own_prop model1 "content")
                (to_str (match ks with k :: _ => VStr k | [] => VUndefined end))))
      eqn:Hm; [discriminate|].
    cbn [rbind]. intros H. right. eexists ks, _, model1. repeat split; eauto.
Qed.

(** X11.  Normalizing is idempotent: the normalized form of an entry is
    passed through unchanged when it is normalized again (as happens to an
    entry listed under both [models] and [modelsList]). *)
Theorem standardModel_idempotent (model model' : value) :
  standardModel model = Ok model' -> standardModel model' = Ok model'.
Proof.
  intros H. destruct (standardModel_cases _ _ H)
    as [(-> & _ & _)|(ks & mt & m1 & Hn & Hs & Hk & Hmt & Hp1 & Hmn & Hp2)];
    [assumption|].
  destruct (put_prop_Ok _ _ _ _ Hp1) as (Hct1 & Hfr1 & _ & Hn1 & _).
  destruct (put_prop_Ok _ _ _ _ Hp2) as (Hs2 & Hfr2 & Hidem2 & Hn2 & _).
  assert (Hcontent : own_prop model' "content" = own_prop model "content").
  { rewrite Hfr2 by discriminate. apply Hfr1. discriminate. }
  assert (Hcontent1 : own_prop m1 "content" = own_prop model "content")
    by (apply Hfr1; discriminate).
  unfold standardModel, get_prop at 1. rewrite Hn2. cbn [rbind]. rewrite Hs2.
  destruct (truthy (own_prop (own_prop (own_prop m1 "content") (to_str mt)) "schema"));
    [reflexivity|].
  unfold get_prop at 1. rewrite Hn2. cbn [rbind]. rewrite Hcontent, Hk. cbn [rbind].
  rewrite <- Hmt.
  assert (Hne : "contentType" <> "schema") by discriminate.
  rewrite (put_put_noop model "contentType" "schema" mt _ m1 model' Hne Hp1 Hp2).
  cbn [rbind]. unfold get_prop at 1. rewrite Hn2. cbn [rbind]. rewrite Hcontent.
  rewrite Hcontent1 in *. unfold get_prop at 1.
  destruct (nullish (own_prop model "content")) eqn:Hc.
  { unfold js_keys, js_entries in Hk. rewrite Hc in Hk. discriminate. }
  cbn [rbind]. unfold get_prop at 1. rewrite Hmn. cbn [rbind]. exact Hidem2.
Qed.

Lemma standardModel_keeps (model model' : value) :
  standardModel model = Ok model' ->
  isArray model' = false /\
  forall k, k <> "schema" -> k <> "contentType" -> own_prop model' k = own_prop model k.
Proof.
  intros H. destruct (standardModel_cases _ _ H)
    as [(-> & Hn & Ht)|(ks & mt & m1 & Hn & Hs & Hk & Hmt & Hp1 & Hmn & Hp2)].
  - split; [|auto]. destruct model; try reflexivity. simpl in Ht.
    destruct (array_index "schema") eqn:E; [vm_compute in E|]; discriminate.
  - destruct (put_prop_Ok _ _ _ _ Hp1) as (_ & Hfr1 & _).
    destruct (put_prop_Ok _ _ _ _ Hp2) as (_ & Hfr2 & _ & _ & Harr).
    split; [assumption|]. intros k Hk1 Hk2. rewrite Hfr2 by assumption. now apply Hfr1.
Qed.

Lemma rmap_Forall2 {A B : Type} (f : A -> result B) (l : list A) (l' : list B) :
  rmap f l = Ok l' -> Forall2 (fun x y => f x = Ok y) l l'.
Proof.
  revert l'. induction l as [|x rest IH]; intros l' H; simpl in H.
  - inversion H. constructor.
  - destruct (f x) as [y| |] eqn:Hx; try discriminate. cbn [rbind] in H.
    destruct (rmap f rest) as [ys| |]; try discriminate. cbn [rbind] in H.
    inversion H; subst. constructor; auto.
Qed.

Lemma map_standardModel_Ok (c : value) (l' : list value) :
  map_standardModel c = Ok l' ->
  exists l, collection c l /\ Forall2 (fun m m' => standardModel m = Ok m') l l'.
Proof.
  destruct c; simpl; try discriminate.
  - intros H. inversion H. exists []. split; [now constructor|constructor].
  - intros H. inversion H. exists []. split; [now constructor|constructor].
  - intros H. exists elems. split; [constructor|now apply rmap_Forall2].
Qed.

Lemma standardiseModels_descriptors (h h' : SchemaHandler) :
  standardiseModels h = (Ok tt, h') ->
  exists ms ls ks,
    collection (opt_get (documentation h) "models") ms /\
    collection (opt_get (documentation h) "modelsList") ls /\
    js_keys (apiGatewayModels h) = Ok ks /\
    Forall2 (fun m m' => standardModel m = Ok m')
      (ms ++ ls ++ map (own_prop (apiGatewayModels h)) ks)%list (models h').
Proof.
  unfold standardiseModels. unfold bind at 1. unfold this.
  unfold bind at 1. unfold lift at 1.
  destruct (map_standardModel (opt_get (documentation h) "models")) as [ms'| |] eqn:Hm;
    try discriminate.
  unfold bind at 1. unfold lift at 1.
  destruct (map_standardModel (opt_get (documentation h) "modelsList")) as [ls'| |]
    eqn:Hl; try discriminate.
  unfold bind at 1. unfold lift at 1.
  destruct (js_keys (apiGatewayModels h)) as [ks| |] eqn:Hk; try discriminate.
  unfold bind at 1. unfold lift at 1. cbv zeta.
  destruct (rmap (fun key => let? m := standardModel (own_prop (apiGatewayModels h) key) in
                             Ok (flatten1 m)) ks) as [gs| |] eqn:Hg; try discriminate.
  unfold modify. intros H. inversion H; subst h'. clear H. cbn [models set_models].
  destruct (map_standardModel_Ok _ _ Hm) as (ms & Cm & Fm).
  destruct (map_standardModel_Ok _ _ Hl) as (ls & Cl & Fl).
  exists ms, ls, ks. repeat split; try assumption.
  apply Forall2_app; [assumption|]. apply Forall2_app; [assumption|].
  clear -Hg. revert gs Hg.
  induction ks as [|k ks IH]; intros gs Hg; simpl in Hg.
  - inversion Hg. constructor.
  - destruct (standardModel (own_prop (apiGatewayModels h) k)) as [m| |] eqn:Hs;
      try discriminate.
    cbn [rbind] in Hg.
    destruct (rmap (fun key => let? m := standardModel (own_prop (apiGatewayModels h) key) in
                               Ok (flatten1 m)) ks) as [gs'| |]; try discriminate.
    cbn [rbind] in Hg. inversion Hg; subst gs. simpl.
    destruct (standardModel_keeps _ _ Hs) as (Harr & _).
    replace (flatten1 m) with [m] by (destruct m; try reflexivity; discriminate).
    simpl. constructor; auto.
Qed.

(** X12.  One descriptor per raw entry: when [__standardiseModels]
    succeeds, [this.models] lists the normalized form of each entry of
    [models], then of [modelsList], then of the gateway schemas in key
    order - as many descriptors as raw entries, none merged or dropped - and
    each descriptor has the [name] and every other field of its raw entry
    except [schema] and [contentType]. *)
Theorem standardiseModels_complete (h h' : SchemaHandler) :
  standardiseModels h = (Ok tt, h') ->
  exists ms ls ks,
    collection (opt_get (documentation h) "models") ms /\
    collection (opt_get (documentation h) "modelsList") ls /\
    js_keys (apiGatewayModels h) = Ok ks /\
    Forall2
      (fun m m' =>
         standardModel m = Ok m' /\
         forall k, k <> "schema" -> k <> "contentType" ->
                   own_prop m' k = own_prop m k)
      (ms ++ ls ++ map (own_prop (apiGatewayModels h)) ks)%list (models h').
Proof.
  intros Hrun.
  destruct (standardiseModels_descriptors h h' Hrun)
    as (ms & ls & ks & Cm & Cl & Hk & Hall).
  exists ms, ls, ks. repeat split; try assumption.
  clear -Hall. induction Hall as [|m m' l l' Hm _ IH]; constructor; auto.
  split; [assumption|]. now apply standardModel_keeps.
Qed.
(** ** The constructor *)

(** X13.  The documentation block is mandatory: when [serverless.service]
    or its [custom] is missing, the constructor throws the [TypeError] of
    the property read, whatever the gateway schemas and the options file
    are. *)
Theorem construct_without_custom (serverless doc : value) (required : settled) :
  nullish serverless = false ->
  nullish (own_prop serverless "service") = true \/
  nullish (own_prop (own_prop serverless "service") "custom") = true ->
  construct serverless doc required =
    Throw (if nullish (own_prop serverless "service")
           then cannot_read (own_prop serverless "service") "custom"
           else cannot_read (own_prop (own_prop serverless "service") "custom")
                  "documentation").
Proof.
  intros Hn Hmissing. unfold construct, get_prop at 1. rewrite Hn. cbn [rbind].
  unfold get_prop at 1.
  destruct (nullish (own_prop serverless "service")) eqn:Hs; [reflexivity|].
  cbn [rbind]. destruct Hmissing as [H|H]; [discriminate|].
  unfold get_prop. now rewrite H.
Qed.

(** X14.  What a constructed handler holds: the document it was given, an
    empty cache, the options of the options file or an empty object when
    loading it failed, and one normalized descriptor per raw entry of the
    configuration: of [documentation.models], of
    [documentation.modelsList], and of the gateway schemas, which are an
    empty object when any link to them is missing or they are falsy. *)
Theorem construct_complete (serverless doc : value) (required : settled)
  (h : SchemaHandler) :
  construct serverless doc required = Ok h ->
  openAPI h = doc /\
  modelReferences h = [] /\
  drawn h = 0 /\
  refParserOptions h =
    match required with Resolved options => options | Rejected _ => VObj [] end /\
  let schemas :=
    opt_get (opt_get (opt_get (opt_get (own_prop serverless "service") "provider")
                        "apiGateway") "request") "schemas" in
  let gateway := if truthy schemas then schemas else VObj [] in
  let configured :=
    own_prop (own_prop (own_prop serverless "service") "custom") "documentation" in
  exists ms ls ks,
    collection (opt_get configured "models") ms /\
    collection (opt_get configured "modelsList") ls /\
    js_keys gateway = Ok ks /\
    Forall2 (fun m m' => standardModel m = Ok m')
      (ms ++ ls ++ map (own_prop gateway) ks)%list (models h).
Proof.
  unfold construct, get_prop at 1.
  destruct (nullish serverless); [discriminate|]. cbn [rbind].
  unfold get_prop at 1.
  destruct (nullish (own_prop serverless "service")); [discriminate|]. cbn [rbind].
  unfold get_prop at 1.
  destruct (nullish (own_prop (own_prop serverless "service") "custom"));
    [discriminate|].
  cbn [rbind]. cbv zeta.
  match goal with
  | |- match standardiseModels ?h0 with _ => _ end = _ -> _ =>
      destruct (standardiseModels h0) as [[[]|e|a] h1] eqn:Hstd; try discriminate;
      set (start := h0) in *
  end.
  intros H. inversion H; subst h. clear H.
  assert (Hframe : apiGatewayModels h1 = apiGatewayModels start /\
                   documentation h1 = documentation start /\
                   openAPI h1 = openAPI start /\
                   modelReferences h1 = modelReferences start /\
                   drawn h1 = drawn start).
  { revert Hstd. unfold standardiseModels, bind, this, lift, modify.
    destruct (map_standardModel (opt_get (documentation start) "models"));
      try discriminate.
    destruct (map_standardModel (opt_get (documentation start) "modelsList"));
      try discriminate.
    destruct (js_keys (apiGatewayModels start)); try discriminate.
    cbv zeta.
    match goal with |- (match ?r with _ => _ end) = _ -> _ => destruct r end;
      try discriminate.
    intros H. inversion H. repeat split; reflexivity. }
  destruct Hframe as (Hgw & Hdoc & Hopen & Hrefs & Hdrawn).
  cbn [openAPI modelReferences drawn refParserOptions apiGatewayModels
       documentation models set_refParserOptions].
  rewrite Hopen, Hrefs, Hdrawn.
  repeat (split; [reflexivity|]).
  exact (standardiseModels_descriptors start h1 Hstd).
Qed.
(** ** Failures of a batch and of a single resolution *)

Lemma for_each_stops {A : Type} (body : A -> M unit) (before : list A) (x : A)
  (after : list A) (e : value) :
  forall h h1 h2,
    for_each before body h = (Ok tt, h1) ->
    body x h1 = (Throw e, h2) ->
    for_each (before ++ x :: after)%list body h = (Throw e, h2).
Proof.
  induction before as [|y rest IH]; intros h h1 h2 Hb Hx; simpl in *.
  - unfold ret in Hb. inversion Hb; subst h1. unfold bind. now rewrite Hx.
  - unfold bind in *. destruct (body y h) as [[[]|e'|a] h'] eqn:Hy; try discriminate.
    eapply IH; eassumption.
Qed.

Section Failures.

Context {collaborators : Collaborators}.

(** X15.  A batch stops at its first failing model and does not roll back:
    when the models before [m] are absorbed and [m] throws, the bulk
    operation throws the same value and the handler is the one that the
    failing model left; the models after [m] are not taken up. *)
Theorem addModels_stops_at_first_failure
  (fuel : nat) (before after : list value) (m e : value) (h h1 h2 : SchemaHandler) :
  models h = (before ++ m :: after)%list ->
  for_each before (absorb_model fuel) h = (Ok tt, h1) ->
  absorb_model fuel m h1 = (Throw e, h2) ->
  addModelsToOpenAPI fuel h = (Throw e, h2).
Proof.
  intros Hm Hb Hx. unfold addModelsToOpenAPI, bind, this. rewrite Hm.
  eapply for_each_stops; eassumption.
Qed.

(** X16.  In the bulk operation a rejection by an [Error] is thrown on as it
    is, and the model has contributed nothing to the registry or the
    cache. *)
Theorem addModels_Error_rejection
  (fuel : nat) (model name e : value) (h h1 : SchemaHandler) :
  get_prop model "name" = Ok name ->
  dereferenceAndConvert fuel (own_prop model "schema") name model h = (Throw e, h1) ->
  instanceof_Error e = true ->
  absorb_model fuel model h = (Throw e, h1) /\
  openAPI h1 = openAPI h /\
  modelReferences h1 = modelReferences h.
Proof.
  intros Hname Hconv He.
  destruct (converted_store _ _ _ _ _ _ _ Hconv) as (_ & _ & Hdoc & Hrefs & _).
  rewrite (absorb_model_run _ _ _ _ _ _ Hname Hconv). rewrite He. auto.
Qed.

(** X17.  [createSchema] substitutes nothing: when a schema is given (so
    that the cache is not consulted), any rejection of the
    resolve-and-convert step, by an [Error] or not, is thrown on as it is,
    and the registry and the cache are untouched. *)
Theorem createSchema_rejection
  (fuel : nat) (name : string) (schema e : value) (h h1 : SchemaHandler) :
  schema <> VUndefined ->
  dereferenceAndConvert fuel schema (VStr name) (inline_model name schema) h =
    (Throw e, h1) ->
  createSchema fuel name schema h = (Throw e, h1) /\
  openAPI h1 = openAPI h /\
  modelReferences h1 = modelReferences h.
Proof.
  intros Hs Hconv.
  destruct (converted_store _ _ _ _ _ _ _ Hconv) as (_ & _ & Hdoc & Hrefs & _).
  split; [|auto]. unfold createSchema. unfold bind at 1. unfold this.
  replace (truthy (or_undefined (obj_get name (modelReferences h))) &&
           match schema with VUndefined => true | _ => false end) with false.
  - unfold bind. now rewrite Hconv.
  - destruct schema; try congruence; now rewrite andb_false_r.
Qed.

(** X18.  A failure that carries a sub-error list is judged by the
    sub-errors alone: when its own message contains "HTTP ERROR" but no
    sub-error's message does (the list may be empty), the failure is
    swallowed and the conversion proceeds on the original schema. *)
Theorem aggregate_own_message_ignored
  (fuel : nat) (schema name model mname e : value) (m : string) (subs : list value)
  (ms : list string) (h h1 : SchemaHandler) :
  get_prop model "name" = Ok mname ->
  dereferenceSchema fuel schema h = (Throw e, h1) ->
  nullish e = false ->
  own_prop e "message" = VStr m ->
  includes "HTTP ERROR" m = true ->
  own_prop e "errors" = VArr subs ->
  messages_of subs = Some ms ->
  find (includes "HTTP ERROR") ms = None ->
  dereferenceAndConvert fuel schema name model h =
    convert_phase schema name model h1.
Proof.
  intros Hname Hfail Hn Hm Hinc Herrs Hms Hnone.
  assert (Hi : inspected_messages e = Some ms).
  { unfold inspected_messages. rewrite Hn, Herrs. exact Hms. }
  unfold dereferenceAndConvert. unfold bind at 1. unfold catch. rewrite Hfail.
  unfold bind, lift.
  rewrite (checkForHTTPErrorsAndThrow_messages _ _ _ _ Hname Hi). rewrite Hnone.
  unfold checkForMissingPathAndThrow, get_prop. rewrite Hn. cbn [rbind]. rewrite Hm.
  cbn [strict_eq_str].
  destruct (m =? MISSING_PATH) eqn:E; [|reflexivity].
  apply String.eqb_eq in E. subst m. vm_compute in Hinc. discriminate.
Qed.

(** X19.  A rejection that the classification cannot read is not swallowed:
    a [null] or [undefined] rejection, and a rejection without sub-errors
    whose [message] is [null] or [undefined] (a string or a plain object
    thrown as it is), make the classification itself throw a [TypeError],
    and no conversion takes place. *)
Theorem unreadable_rejection_throws
  (fuel : nat) (schema name model e : value) (h h1 : SchemaHandler) :
  dereferenceSchema fuel schema h = (Throw e, h1) ->
  (nullish e = true ->
   dereferenceAndConvert fuel schema name model h =
     (Throw (cannot_read e "errors"), h1)) /\
  (nullish e = false ->
   truthy (own_prop e "errors") = false ->
   nullish (own_prop e "message") = true ->
   dereferenceAndConvert fuel schema name model h =
     (Throw (cannot_read (own_prop e "message") "includes"), h1)).
Proof.
  intros Hfail.
  split; intros Hn; unfold dereferenceAndConvert, bind, catch; rewrite Hfail;
    unfold lift, checkForHTTPErrorsAndThrow, get_prop; rewrite Hn.
  - reflexivity.
  - intros He Hm. cbn [rbind]. rewrite He.
    unfold HTTPError, get_prop. rewrite Hn. cbn [rbind].
    destruct (own_prop e "message"); try discriminate; reflexivity.
Qed.

(** X20.  No entry of the model's own name, no cache entry: when the
    converted set of an absorbed model has no entry under the model's name,
    its entries are merged into the registry (each entry of a name other
    than [__proto__] is registered under its name, the other names keep
    their values) and the cache is left as it was. *)
Theorem addModels_without_primary_entry
  (fuel : nat) (model name converted : value) (S : props) (h h1 : SchemaHandler) :
  doc_ok (openAPI h) = true ->
  get_prop model "name" = Ok name ->
  dereferenceAndConvert fuel (own_prop model "schema") name model h =
    (Ok converted, h1) ->
  get_prop converted "schemas" = Ok (VObj S) ->
  NoDup (keys S) ->
  (forall n, name = VStr n -> ~ In n (keys S)) ->
  exists h',
    absorb_model fuel model h = (Ok tt, h') /\
    (forall k v, In (k, v) S -> k <> "__proto__" ->
       entry (openAPI h') k = Some v) /\
    (forall k, ~ In k (keys S) -> entry (openAPI h') k = entry (openAPI h) k) /\
    forall n, obj_get n (modelReferences h') = obj_get n (modelReferences h).
Proof.
  intros Hok Hname Hconv Hget Hnd Hno.
  destruct (converted_store _ _ _ _ _ _ _ Hconv) as (_ & _ & Hdoc & Hrefs & _).
  assert (Hok1 : doc_ok (openAPI h1) = true) by congruence.
  destruct (absorb_entries_ok name S h1 Hok1)
    as (h' & Hrun & _ & Hin & Hfr & _ & _ & _ & Hkeep).
  exists h'. rewrite (absorb_model_run _ _ _ _ _ _ Hname Hconv).
  rewrite (absorb_converted_mapping _ _ _ _ _ Hget).
  split; [exact Hrun|]. split; [|split].
  - intros k v Hkv _. now apply Hin.
  - intros k Hk. rewrite Hfr by assumption. now rewrite Hdoc.
  - intros n. rewrite Hkeep; [now rewrite Hrefs|].
    intros (Hn & Hinn). exact (Hno n Hn Hinn).
Qed.

End Failures.
(** ** Registered names are never lost *)

Lemma names_of_store {A : Type} (c : M A) : keeps_store c -> keeps_names c.
Proof.
  intros K h Hok. destruct (K h) as (_ & _ & Hdoc & _). rewrite Hdoc. auto.
Qed.

Lemma names_this : keeps_names this.
Proof. intros h Hok. simpl. auto. Qed.

Lemma names_bind {A B : Type} (c : M A) (k : A -> M B) :
  keeps_names c -> (forall a, keeps_names (k a)) -> keeps_names (bind c k).
Proof.
  intros Hc Hk h Hok. unfold bind. specialize (Hc h Hok).
  destruct (c h) as [[a|e|r] h1]; simpl in *; auto.
  destruct Hc as (Hok1 & Hc). destruct (Hk a h1 Hok1) as (Hok2 & Hk2). auto.
Qed.

Lemma names_catch {A : Type} (c : M A) (handler : value -> M A) :
  keeps_names c -> (forall e, keeps_names (handler e)) -> keeps_names (catch c handler).
Proof.
  intros Hc Hk h Hok. unfold catch. specialize (Hc h Hok).
  destruct (c h) as [[a|e|r] h1]; simpl in *; auto.
  destruct Hc as (Hok1 & Hc). destruct (Hk e h1 Hok1) as (Hok2 & Hk2). auto.
Qed.

Lemma names_for_each {A : Type} (l : list A) (body : A -> M unit) :
  (forall x, keeps_names (body x)) -> keeps_names (for_each l body).
Proof.
  intros Hb. induction l as [|x rest IH].
  - apply names_of_store, keeps_ret.
  - rewrite for_each_cons. apply names_bind; auto.
Qed.

Lemma names_fold_each {A S : Type} (l : list A) (body : S -> A -> M S) :
  (forall s x, keeps_names (body s x)) -> forall s, keeps_names (fold_each l s body).
Proof.
  intros Hb. induction l as [|x rest IH]; intros s.
  - apply names_of_store, keeps_ret.
  - rewrite fold_each_cons. apply names_bind; auto.
Qed.

Section Names.

Context {collaborators : Collaborators}.

Lemma names_addToComponents (schema : value) (name : string) :
  keeps_names (addToComponents "schemas" schema name).
Proof.
  intros h Hok. destruct (assigned_ok _ name schema Hok) as (doc' & Ha & _).
  destruct (entry_assigned_same _ _ _ _ Hok Ha) as (Hok' & Hv & Hfr).
  rewrite (addToComponents_eq _ _ _ _ Ha). simpl. split; [assumption|].
  intros k Hk. destruct (String.eqb_spec k name) as [->|Hne].
  - rewrite Hv. discriminate.
  - now rewrite Hfr.
Qed.

Lemma names_merge_entry (originalName finalName : string) (e : string * value) :
  keeps_names (merge_entry originalName finalName e).
Proof.
  destruct e as [k v]. intros h Hok.
  destruct (merge_entry_step originalName finalName k v h Hok) as (f & h' & Hrun & Hstep).
  rewrite Hrun. simpl.
  destruct (merge_step_facts _ _ _ _ _ _ _ Hok Hstep) as (Hok' & _).
  split; [assumption|]. intros k' Hk'.
  destruct Hstep as [cur He Ht Heq | cur doc' He Ht Heq Hk Ha | doc' Hc Ha].
  - assumption.
  - destruct (entry_assigned_same _ _ _ _ Hok Ha) as (_ & Hv & Hfr). simpl.
    destruct (String.eqb_spec k' (suffixed k (uuid (drawn h)))) as [->|Hne].
    + rewrite Hv. discriminate.
    + now rewrite Hfr.
  - destruct (entry_assigned_same _ _ _ _ Hok Ha) as (_ & Hv & Hfr). simpl.
    destruct (String.eqb_spec k' k) as [->|Hne].
    + rewrite Hv. discriminate.
    + now rewrite Hfr.
Qed.

Lemma names_absorb_entry (modelName : value) (e : string * value) :
  keeps_names (absorb_entry modelName e).
Proof.
  destruct e as [k v]. intros h Hok.
  destruct (absorb_entry_ok modelName k v h Hok) as (h' & Hrun & Hok' & Hv & Hfr & _).
  rewrite Hrun. simpl. split; [assumption|]. intros k' Hk'.
  destruct (String.eqb_spec k' k) as [->|Hne].
  - rewrite Hv. discriminate.
  - now rewrite Hfr.
Qed.

Lemma names_createSchema (fuel : nat) (name : string) (schema : value) :
  keeps_names (createSchema fuel name schema).
Proof.
  unfold createSchema. apply names_bind; [apply names_this|].
  intros h0. cbv zeta.
  destruct (truthy _ && _); [apply names_of_store, keeps_ret|].
  apply names_bind; [apply names_of_store, keeps_dereferenceAndConvert|]. intros c.
  apply names_bind; [apply names_of_store, keeps_lift|]. intros s.
  apply names_bind; [apply names_of_store, keeps_lift|]. intros es.
  apply names_bind; [|intros f; apply names_of_store, keeps_ret].
  apply names_fold_each. intros f x. apply names_merge_entry.
Qed.

Lemma names_absorb_model (fuel : nat) (model : value) :
  keeps_names (absorb_model fuel model).
Proof.
  unfold absorb_model.
  apply names_bind; [apply names_of_store, keeps_lift|]. intros n.
  apply names_bind; [apply names_of_store, keeps_lift|]. intros s.
  apply names_bind.
  { apply names_catch; [apply names_of_store, keeps_dereferenceAndConvert|].
    intros e. destruct (instanceof_Error e);
      [apply names_of_store, keeps_throw | apply names_of_store, keeps_ret]. }
  intros c. unfold absorb_converted.
  apply names_bind; [apply names_of_store, keeps_lift|]. intros ss.
  destruct (typeof_object ss && negb (isArray ss) && negb (nullish ss)).
  - apply names_bind; [apply names_of_store, keeps_lift|]. intros es.
    apply names_for_each. intros x. apply names_absorb_entry.
  - apply names_bind; [apply names_of_store, keeps_lift|]. intros e.
    apply names_of_store, keeps_throw.
Qed.

(** X21.  [createSchema] never unregisters a name: however the call ends
    (a pointer, an exception of the resolver, of the converter or of the
    traversal of the converted set), a name that the registry of a
    well-shaped document held before the call is still held after it, and
    the document is still well shaped. *)
Theorem createSchema_keeps_names
  (fuel : nat) (name : string) (schema : value) (h h' : SchemaHandler)
  (r : result value) (k : string) (v : value) :
  doc_ok (openAPI h) = true ->
  createSchema fuel name schema h = (r, h') ->
  entry (openAPI h) k = Some v ->
  doc_ok (openAPI h') = true /\ exists v', entry (openAPI h') k = Some v'.
Proof.
  intros Hok Hrun Hk.
  destruct (names_createSchema fuel name schema h Hok) as (Hok' & Hn).
  rewrite Hrun in Hok', Hn. simpl in *. split; [assumption|].
  destruct (entry (openAPI h') k) as [v'|] eqn:E; [eauto|].
  exfalso. apply (Hn k); [congruence|assumption].
Qed.

(** X22.  Nor does the bulk operation: however it ends, with whatever
    models and at whatever model it stops, every name registered before is
    registered after. *)
Theorem addModels_keeps_names
  (fuel : nat) (h h' : SchemaHandler) (r : result unit) (k : string) (v : value) :
  doc_ok (openAPI h) = true ->
  addModelsToOpenAPI fuel h = (r, h') ->
  entry (openAPI h) k = Some v ->
  doc_ok (openAPI h') = true /\ exists v', entry (openAPI h') k = Some v'.
Proof.
  intros Hok Hrun Hk.
  assert (K : keeps_names (addModelsToOpenAPI fuel)).
  { unfold addModelsToOpenAPI. apply names_bind; [apply names_this|].
    intros h0. apply names_for_each. intros x. apply names_absorb_model. }
  destruct (K h Hok) as (Hok' & Hn).
  rewrite Hrun in Hok', Hn. simpl in *. split; [assumption|].
  destruct (entry (openAPI h') k) as [v'|] eqn:E; [eauto|].
  exfalso. apply (Hn k); [congruence|assumption].
Qed.

End Names.
(** ** The whole effect of [createSchema] on the registry *)



Section Effect.

Context {collaborators : Collaborators}.




End Effect.
(** ** Entries and converted sets that cannot be used *)

Lemma rmap_stops {A B : Type} (f : A -> result B) (before : list A) (x : A)
  (after : list A) (e : value) :
  Forall (fun y => exists y', f y = Ok y') before ->
  f x = Throw e ->
  rmap f (before ++ x :: after)%list = Throw e.
Proof.
  intros Hb Hx. induction Hb as [|y rest (y' & Hy) _ IH]; simpl.
  - now rewrite Hx.
  - rewrite Hy. cbn [rbind]. now rewrite IH.
Qed.

(** X24.  A raw entry with neither a schema nor a usable content cannot be
    normalized: without [content] the normalizer throws the [TypeError] of
    [Object.keys], and with an empty [content] object the one of reading
    [schema] of the missing media type. *)
Theorem standardModel_without_content (model : value) :
  nullish model = false ->
  truthy (own_prop model "schema") = false ->
  (nullish (own_prop model "content") = true ->
   standardModel model =
     Throw (TypeError "Cannot convert undefined or null to object")) /\
  (forall ps, model = VObj ps -> own_prop model "content" = VObj [] ->
   standardModel model = Throw (cannot_read VUndefined "schema")).
Proof.
  intros Hnn Hs. split.
  - intros Hc. unfold standardModel, get_prop. rewrite Hnn. cbn [rbind]. rewrite Hs.
    unfold js_keys, js_entries. now rewrite Hc.
  - intros ps -> Hc. unfold standardModel, get_prop. cbn [nullish rbind].
    rewrite Hs, Hc. cbn [js_keys js_entries nullish own_entries keys map rbind put_prop].
    cbn [own_prop] in Hc |- *.
    rewrite obj_get_set_other by discriminate. rewrite Hc. reflexivity.
Qed.

Section Unusable.

Context {collaborators : Collaborators}.

(** X25.  One bad entry fails the whole normalization: when the entries of
    [models] before [m] normalize and [m] throws, [__standardiseModels]
    throws the same value and [this.models] is not assigned. *)
Theorem standardiseModels_rejects_entry
  (h : SchemaHandler) (before after : list value) (m e : value) :
  opt_get (documentation h) "models" = VArr (before ++ m :: after)%list ->
  Forall (fun x => exists x', standardModel x = Ok x') before ->
  standardModel m = Throw e ->
  fst (standardiseModels h) = Throw e /\
  models (snd (standardiseModels h)) = models h.
Proof.
  intros Hm Hb Hx.
  assert (Hrun : standardiseModels h = (Throw e, h)).
  { unfold standardiseModels. unfold bind at 1. unfold this.
    unfold bind at 1. unfold lift at 1. rewrite Hm. cbn [map_standardModel].
    now rewrite (rmap_stops standardModel before m after e Hb Hx). }
  rewrite Hrun. auto.
Qed.

(** X26.  [createSchema] has no shape check: when a schema is given and the
    converter fulfils with [null] or [undefined], or with a value whose
    [schemas] is [null] or [undefined], the call throws the engine's [TypeError] (of the property
    read, or of [Object.entries]) rather than a descriptive error, and the
    registry and the cache are untouched. *)
Theorem createSchema_unreadable_set
  (fuel : nat) (name : string) (schema converted : value) (h h1 : SchemaHandler) :
  schema <> VUndefined ->
  dereferenceAndConvert fuel schema (VStr name) (inline_model name schema) h =
    (Ok converted, h1) ->
  nullish converted = true \/ nullish (own_prop converted "schemas") = true ->
  createSchema fuel name schema h =
    (Throw (if nullish converted then cannot_read converted "schemas"
            else TypeError "Cannot convert undefined or null to object"), h1) /\
  openAPI h1 = openAPI h /\
  modelReferences h1 = modelReferences h.
Proof.
  intros Hs Hconv Hbad.
  destruct (converted_store _ _ _ _ _ _ _ Hconv) as (_ & _ & Hdoc & Hrefs & _).
  split; [|auto]. unfold createSchema. unfold bind at 1. unfold this.
  replace (truthy (or_undefined (obj_get name (modelReferences h))) &&
           match schema with VUndefined => true | _ => false end) with false.
  - unfold bind at 1. rewrite Hconv. unfold bind at 1. unfold lift at 1.
    unfold get_prop. destruct (nullish converted) eqn:Hn; [reflexivity|].
    destruct Hbad as [Hbad|Hbad]; [discriminate|].
    unfold bind at 1. unfold lift at 1. unfold js_entries. now rewrite Hbad.
  - destruct schema; try congruence; now rewrite andb_false_r.
Qed.

End Unusable.

(** ** The further properties at concrete inputs *)

Lemma addToComponents_confined_witness :
  exists d',
    addToComponents "schemas" number_schema "Bar" handler_Foo =
      (Ok tt, set_openAPI (VObj d') handler_Foo) /\
    (forall j, j <> "components" ->
       own_prop (VObj d') j = own_prop (openAPI handler_Foo) j) /\
    (forall c,
       obj_get "components"
         [("openapi", VStr "3.0.0");
          ("components", VObj [("schemas", VObj [("Foo", string_schema)])])] =
         Some (VObj c) ->
       forall t, t <> "schemas" ->
         own_prop (own_prop (VObj d') "components") t = own_prop (VObj c) t).
Proof.
  apply (addToComponents_confined handler_Foo
           [("openapi", VStr "3.0.0");
            ("components", VObj [("schemas", VObj [("Foo", string_schema)])])]
           "Bar" number_schema); reflexivity.
Defined.

Lemma isTheSameSchema_after_exists_witness :
  isTheSameSchema number_schema "Foo" handler_Foo =
    (Ok false, handler_Foo).
Proof.
  apply (isTheSameSchema_after_exists handler_Foo "Foo"
           number_schema).
  reflexivity.
Defined.


Lemma dereferenceSchema_result_resolved_witness :
  strict_eq_str (opt_get nested_resolved "$ref") "#" = false.
Proof.
  apply (dereferenceSchema_result_resolved (collaborators := demo_nested) 2
           nested_doc nested_resolved handler_empty
           (snd (dereferenceSchema (collaborators := demo_nested) 2 nested_doc
                   handler_empty))).
  reflexivity.
Defined.

Lemma dereferenceSchema_unbounded_witness :
  fst (dereferenceSchema (collaborators := demo_stuck) 5 string_schema handler_empty) =
    Abort OutOfFuel.
Proof.
  apply (dereferenceSchema_unbounded (collaborators := demo_stuck)).
  intros s o.
  exists (VObj [("$ref", VStr "#/definitions/A")]),
         (VObj [("$ref", VStr "#"); ("definitions", VObj [("A", VObj [])])]),
         "#/definitions/A", (VObj [("A", VObj [])]), (VObj []),
         (VObj [("$ref", VStr "#"); ("definitions", VObj [("A", VObj [])])]).
  repeat split; reflexivity.
Defined.

Lemma dereferenceSchema_fuel_witness :
  dereferenceSchema (collaborators := demo_nested) (2 + 7) nested_doc handler_empty =
  dereferenceSchema (collaborators := demo_nested) 2 nested_doc handler_empty.
Proof.
  apply (dereferenceSchema_fuel (collaborators := demo_nested) 2 nested_doc
           handler_empty 7).
  discriminate.
Defined.


Lemma convert_phase_without_extensions_witness :
  convert_phase (collaborators := demo) number_schema (VStr "Foo") Foo_model
    handler_empty =
  (Ok (VObj [("schemas", VObj [("Foo", number_schema)])]),
   record_call (CallConvert number_schema (VStr "Foo")) handler_empty).
Proof.
  apply (convert_phase_without_extensions (collaborators := demo) number_schema
           (VStr "Foo") Foo_model handler_empty).
  - reflexivity.
  - simpl. intros k v [H|[H|[]]]; inversion H; reflexivity.
Defined.

Lemma convert_phase_without_primary_witness :
  convert_phase (collaborators := demo_converting (Resolved other_converted))
    number_schema (VStr "Foo") Ext_model handler_empty =
  (Ok other_converted,
   record_call (CallConvert number_schema (VStr "Foo")) handler_empty).
Proof.
  apply (convert_phase_without_primary
           (collaborators := demo_converting (Resolved other_converted))
           number_schema (VStr "Foo") Ext_model other_converted
           (VObj [("Other", number_schema)]) handler_empty); reflexivity.
Defined.

Lemma convert_phase_overlays_extensions_witness :
  exists cp' sp' p',
    convert_phase (collaborators := demo) number_schema (VStr "Foo") Ext_model
      handler_empty =
      (Ok (VObj cp'), record_call (CallConvert number_schema (VStr "Foo")) handler_empty) /\
    obj_get "schemas" cp' = Some (VObj sp') /\
    obj_get "Foo" sp' = Some (VObj p') /\
    obj_get "x-tag" p' = Some (VStr "t") /\
    obj_get "type" p' = Some (VStr "number").
Proof.
  destruct (convert_phase_overlays_extensions (collaborators := demo) number_schema
              (VStr "Foo") Ext_model
              [("schemas", VObj [("Foo", number_schema)])]
              [("Foo", number_schema)] [("type", VStr "number")] handler_empty)
    as (cp' & sp' & p' & Hrun & Hs & Hp & Hx & Hother & _).
  - reflexivity.
  - repeat constructor; simpl; intuition discriminate.
  - reflexivity.
  - reflexivity.
  - reflexivity.
  - exists cp', sp', p'. split; [exact Hrun|]. split; [exact Hs|]. split; [exact Hp|].
    split.
    + apply Hx; [simpl; tauto|reflexivity].
    + rewrite Hother by reflexivity. reflexivity.
Defined.

Lemma standardModel_idempotent_witness :
  standardModel Problem_standard = Ok Problem_standard.
Proof.
  apply (standardModel_idempotent Problem_model Problem_standard). reflexivity.
Defined.

Lemma standardiseModels_complete_witness :
  exists ms ls ks,
    collection (VArr [User_model]) ms /\
    collection VUndefined ls /\
    js_keys (VObj [("problem", Problem_model)]) = Ok ks /\
    Forall2
      (fun m m' =>
         standardModel m = Ok m' /\
         forall k, k <> "schema" -> k <> "contentType" ->
                   own_prop m' k = own_prop m k)
      (ms ++ ls ++ map (own_prop (VObj [("problem", Problem_model)])) ks)%list
      [User_model; Problem_standard].
Proof.
  apply (standardiseModels_complete
           (handler_raw (VObj [("models", VArr [User_model])])
                        (VObj [("problem", Problem_model)]))
           (set_models [User_model; Problem_standard]
              (handler_raw (VObj [("models", VArr [User_model])])
                           (VObj [("problem", Problem_model)])))).
  reflexivity.
Defined.

Lemma construct_without_custom_witness :
  construct serverless_bare (VObj []) (Resolved (VObj [])) =
    Throw (cannot_read VUndefined "documentation").
Proof.
  apply (construct_without_custom serverless_bare (VObj []) (Resolved (VObj []))).
  - reflexivity.
  - right. reflexivity.
Defined.

Lemma construct_complete_witness :
  exists h,
    construct serverless_documented (VObj []) (Rejected VUndefined) = Ok h /\
    openAPI h = VObj [] /\
    modelReferences h = [] /\
    refParserOptions h = VObj [].
Proof.
  exists (set_models [User_model; Problem_standard]
            (mkSchemaHandler (VObj [])
               (VObj [("models", VArr [User_model; Problem_model])])
               (VObj []) [] [] (VObj []) 0 [])).
  split; [reflexivity|].
  destruct (construct_complete serverless_documented (VObj []) (Rejected VUndefined)
              (set_models [User_model; Problem_standard]
                 (mkSchemaHandler (VObj [])
                    (VObj [("models", VArr [User_model; Problem_model])])
                    (VObj []) [] [] (VObj []) 0 [])))
    as (Hdoc & Hrefs & _ & Hopt & _).
  - reflexivity.
  - split; [exact Hdoc|]. split; [exact Hrefs|]. exact Hopt.
Defined.

Lemma addModels_stops_at_first_failure_witness :
  addModelsToOpenAPI (collaborators := demo) 1 handler_batch =
    (Throw (new_Error MISSING_PATH),
     snd (absorb_model (collaborators := demo) 1 Bad_model
            (snd (absorb_model (collaborators := demo) 1 Foo_model handler_batch)))).
Proof.
  apply (addModels_stops_at_first_failure (collaborators := demo) 1
           [Foo_model] [User_model] Bad_model (new_Error MISSING_PATH) handler_batch
           (snd (absorb_model (collaborators := demo) 1 Foo_model handler_batch)));
    reflexivity.
Defined.

Lemma addModels_Error_rejection_witness :
  absorb_model (collaborators := demo) 1 Bad_model handler_Foo =
    (Throw (new_Error MISSING_PATH),
     snd (dereferenceAndConvert (collaborators := demo) 1 VUndefined (VStr "Bad")
            Bad_model handler_Foo)) /\
  openAPI (snd (dereferenceAndConvert (collaborators := demo) 1 VUndefined (VStr "Bad")
                  Bad_model handler_Foo)) = openAPI handler_Foo /\
  modelReferences
    (snd (dereferenceAndConvert (collaborators := demo) 1 VUndefined (VStr "Bad")
            Bad_model handler_Foo)) = modelReferences handler_Foo.
Proof.
  apply (addModels_Error_rejection (collaborators := demo) 1 Bad_model (VStr "Bad")
           (new_Error MISSING_PATH) handler_Foo); reflexivity.
Defined.

Lemma createSchema_rejection_witness :
  createSchema (collaborators := demo_failing (VStr "boom")) 1 "Foo" number_schema
    handler_Foo =
    (Throw (cannot_read VUndefined "includes"),
     snd (dereferenceAndConvert (collaborators := demo_failing (VStr "boom")) 1
            number_schema (VStr "Foo") (inline_model "Foo" number_schema) handler_Foo)) /\
  openAPI (snd (dereferenceAndConvert (collaborators := demo_failing (VStr "boom")) 1
                  number_schema (VStr "Foo") (inline_model "Foo" number_schema)
                  handler_Foo)) = openAPI handler_Foo /\
  modelReferences
    (snd (dereferenceAndConvert (collaborators := demo_failing (VStr "boom")) 1
            number_schema (VStr "Foo") (inline_model "Foo" number_schema)
            handler_Foo)) = modelReferences handler_Foo.
Proof.
  apply (createSchema_rejection (collaborators := demo_failing (VStr "boom")) 1 "Foo"
           number_schema (cannot_read VUndefined "includes") handler_Foo).
  - discriminate.
  - reflexivity.
Defined.

Lemma aggregate_own_message_ignored_witness :
  dereferenceAndConvert (collaborators := demo_failing aggregate_failure) 1
    number_schema (VStr "Foo") Foo_model handler_empty =
  convert_phase (collaborators := demo_failing aggregate_failure)
    number_schema (VStr "Foo") Foo_model
    (snd (dereferenceSchema (collaborators := demo_failing aggregate_failure) 1
            number_schema handler_empty)).
Proof.
  apply (aggregate_own_message_ignored (collaborators := demo_failing aggregate_failure)
           1 number_schema (VStr "Foo") Foo_model (VStr "Foo") aggregate_failure
           "HTTP ERROR 404" [] [] handler_empty); reflexivity.
Defined.

Lemma unreadable_rejection_throws_witness :
  dereferenceAndConvert (collaborators := demo_failing (VStr "boom")) 1
    number_schema (VStr "Foo") Foo_model handler_empty =
  (Throw (cannot_read VUndefined "includes"),
   snd (dereferenceSchema (collaborators := demo_failing (VStr "boom")) 1
          number_schema handler_empty)).
Proof.
  destruct (unreadable_rejection_throws (collaborators := demo_failing (VStr "boom"))
              1 number_schema (VStr "Foo") Foo_model (VStr "boom") handler_empty
              (snd (dereferenceSchema (collaborators := demo_failing (VStr "boom")) 1
                      number_schema handler_empty)) eq_refl) as (_ & Hplain).
  apply Hplain; reflexivity.
Defined.

Lemma addModels_without_primary_entry_witness :
  exists h',
    absorb_model (collaborators := demo_converting (Resolved other_converted)) 1
      Foo_model handler_Foo = (Ok tt, h') /\
    entry (openAPI h') "Other" = Some number_schema /\
    entry (openAPI h') "Foo" = Some string_schema /\
    obj_get "Foo" (modelReferences h') = None.
Proof.
  destruct (addModels_without_primary_entry
              (collaborators := demo_converting (Resolved other_converted)) 1
              Foo_model (VStr "Foo") other_converted [("Other", number_schema)]
              handler_Foo
              (snd (dereferenceAndConvert
                      (collaborators := demo_converting (Resolved other_converted)) 1
                      number_schema (VStr "Foo") Foo_model handler_Foo)))
    as (h' & Hrun & Hin & Hframe & Hcache).
  - reflexivity.
  - reflexivity.
  - reflexivity.
  - reflexivity.
  - repeat constructor. simpl. tauto.
  - intros n Hn. inversion Hn; subst n. simpl. intros [H|[]]. discriminate H.
  - exists h'. split; [exact Hrun|]. split; [|split].
    + apply Hin; [simpl; tauto|discriminate].
    + rewrite Hframe; [reflexivity|]. simpl. intros [H|[]]. discriminate H.
    + rewrite Hcache. reflexivity.
Defined.

Lemma createSchema_keeps_names_witness :
  doc_ok (openAPI (snd Foo_first)) = true /\
  exists v', entry (openAPI (snd Foo_first)) "Foo" = Some v'.
Proof.
  apply (createSchema_keeps_names (collaborators := demo) 1 "Foo" number_schema
           handler_Foo (snd Foo_first) (fst Foo_first) "Foo" string_schema);
    reflexivity.
Defined.

Lemma addModels_keeps_names_witness :
  doc_ok (openAPI (snd Foo_bulk)) = true /\
  exists v', entry (openAPI (snd Foo_bulk)) "Foo" = Some v'.
Proof.
  apply (addModels_keeps_names (collaborators := demo) 1 handler_Foo_model
           (snd Foo_bulk) (fst Foo_bulk) "Foo" string_schema);
    reflexivity.
Defined.


Lemma standardModel_without_content_witness :
  standardModel (VObj [("name", VStr "Bad")]) =
    Throw (TypeError "Cannot convert undefined or null to object").
Proof.
  destruct (standardModel_without_content (VObj [("name", VStr "Bad")])
              eq_refl eq_refl) as (Hmissing & _).
  apply Hmissing. reflexivity.
Defined.

Lemma standardiseModels_rejects_entry_witness :
  fst (standardiseModels
         (handler_raw (VObj [("models", VArr [User_model; Bad_model])]) (VObj []))) =
    Throw (TypeError "Cannot convert undefined or null to object") /\
  models (snd (standardiseModels
                 (handler_raw (VObj [("models", VArr [User_model; Bad_model])])
                    (VObj [])))) = [].
Proof.
  apply (standardiseModels_rejects_entry
           (handler_raw (VObj [("models", VArr [User_model; Bad_model])]) (VObj []))
           [User_model] [] Bad_model).
  - reflexivity.
  - constructor; [|constructor]. exists User_model. reflexivity.
  - reflexivity.
Defined.

Lemma createSchema_unreadable_set_witness :
  createSchema (collaborators := demo_converting (Resolved (VObj []))) 1 "Foo"
    number_schema handler_Foo =
    (Throw (TypeError "Cannot convert undefined or null to object"),
     snd (dereferenceAndConvert (collaborators := demo_converting (Resolved (VObj [])))
            1 number_schema (VStr "Foo") (inline_model "Foo" number_schema)
            handler_Foo)) /\
  openAPI (snd (dereferenceAndConvert
                  (collaborators := demo_converting (Resolved (VObj [])))
                  1 number_schema (VStr "Foo") (inline_model "Foo" number_schema)
                  handler_Foo)) = openAPI handler_Foo /\
  modelReferences
    (snd (dereferenceAndConvert (collaborators := demo_converting (Resolved (VObj [])))
            1 number_schema (VStr "Foo") (inline_model "Foo" number_schema)
            handler_Foo)) = modelReferences handler_Foo.
Proof.
  apply (createSchema_unreadable_set
           (collaborators := demo_converting (Resolved (VObj []))) 1 "Foo"
           number_schema (VObj []) handler_Foo).
  - discriminate.
  - reflexivity.
  - right. reflexivity.
Defined.
